(** * Infiny PDF parser: the metadata extraction engine of [app.py]

    A shallow embedding of [find_page], [is_valid_name],
    [extract_elements_from_page], [parse_document] and
    [extract_legal_metadata], together with the parts of Python's [re],
    [str] and [datetime] that these functions call.

    Python [str] values are modelled as [string]; a character is a code
    point in the Latin-1 range 0..255, and the character classes below are
    Python's Unicode classes restricted to that range. *)

From Stdlib Require Import ZArith Lia Ascii String DecimalString.
From stdpp Require Import base decidable list strings gmap sorting.

Local Open Scope Z_scope.

#[local] Set Default Proof Using "Type".

(** ** Characters and [str] methods *)

Module PyStr.

Definition code (c : ascii) : nat := nat_of_ascii c.

Definition in_range (lo hi : nat) (c : ascii) : bool :=
  ((lo <=? code c) && (code c <=? hi))%nat.

Definition is_code (n : nat) (c : ascii) : bool := (code c =? n)%nat.

(** [str.isspace] on one character, which is also the class [\s] of a
    [str] pattern: TAB..CR, FS..US, SPACE, NEL and NBSP. *)
Definition isspace (c : ascii) : bool :=
  in_range 9 13 c || in_range 28 32 c || is_code 133 c || is_code 160 c.

(** The class [\d] of a [str] pattern (decimal digits): in the Latin-1
    range these are the ten ASCII digits. *)
Definition isdecimal (c : ascii) : bool := in_range 48 57 c.

(** [str.isalpha] on one character. *)
Definition isalpha (c : ascii) : bool :=
  in_range 65 90 c || in_range 97 122 c ||
  is_code 170 c || is_code 181 c || is_code 186 c ||
  in_range 192 214 c || in_range 216 246 c || in_range 248 255 c.

(** Superscript digits and vulgar fractions count as numeric. *)
Definition isnumeric (c : ascii) : bool :=
  isdecimal c || in_range 178 179 c || is_code 185 c || in_range 188 190 c.

(** The class [\w] of a [str] pattern: alphanumerics and underscore. *)
Definition isword (c : ascii) : bool :=
  isalpha c || isnumeric c || is_code 95 c.

Definition isupper (c : ascii) : bool :=
  in_range 65 90 c || in_range 192 214 c || in_range 216 222 c.

Definition lower_char (c : ascii) : ascii :=
  if isupper c then ascii_of_nat (code c + 32) else c.

(** [str.lower] *)
Fixpoint lower (s : string) : string :=
  match s with
  | EmptyString => EmptyString
  | String c s' => String (lower_char c) (lower s')
  end.

(** [str.lstrip], [str.rstrip] and [str.strip] with no argument. *)
Fixpoint lstrip (s : string) : string :=
  match s with
  | EmptyString => EmptyString
  | String c s' => if isspace c then lstrip s' else s
  end.

Fixpoint rstrip (s : string) : string :=
  match s with
  | EmptyString => EmptyString
  | String c s' =>
      match rstrip s' with
      | EmptyString => if isspace c then EmptyString else String c EmptyString
      | r => String c r
      end
  end.

Definition strip (s : string) : string := rstrip (lstrip s).

(** Truth value of a [str]: non-empty. *)
Definition truthy (s : string) : bool :=
  match s with EmptyString => false | _ => true end.

(** [sep.join(parts)] *)
Fixpoint join (sep : string) (parts : list string) : string :=
  match parts with
  | [] => ""
  | [p] => p
  | p :: ps => p +:+ sep +:+ join sep ps
  end.

(** [s.startswith(p)] *)
Fixpoint startswith (p s : string) : bool :=
  match p, s with
  | EmptyString, _ => true
  | String a p', String b s' => if decide (a = b) then startswith p' s' else false
  | String _ _, EmptyString => false
  end.

(** [snippet in s]: the substring test of Python's [in] on [str]. *)
Fixpoint contains (snippet s : string) : bool :=
  startswith snippet s ||
  match s with
  | EmptyString => false
  | String _ s' => contains snippet s'
  end.

(** The slice [s[i:j]] for [0 <= i] (indices beyond the end are clamped,
    as Python does). *)
Definition slice (i j : nat) (s : string) : string :=
  String.substring i (Nat.min j (String.length s) - i) s.

End PyStr.

(** ** Regular expressions: the fragment of [re] used by the patterns

    A backtracking matcher in continuation-passing style, with the priorities
    of Python's engine: alternatives are tried left to right, repetition is
    greedy, and the first overall success is the match. *)

Module Re.

Inductive regex : Type :=
| Eps
| Chr (p : ascii → bool)      (* one character of a class, or a literal *)
| Bnd                         (* [\b] *)
| Seq (r1 r2 : regex)
| Alt (r1 r2 : regex)         (* [r1|r2] *)
| Star (r : regex)            (* [r*], greedy *)
| Group (n : nat) (r : regex) (* capturing group number [n] *).

Definition Plus (r : regex) : regex := Seq r (Star r).
Definition Opt (r : regex) : regex := Alt r Eps.

(** [r{lo,lo+extra}], greedy *)
Fixpoint Upto (extra : nat) (r : regex) : regex :=
  match extra with
  | O => Eps
  | S n => Opt (Seq r (Upto n r))
  end.

Fixpoint Times (n : nat) (r : regex) : regex :=
  match n with
  | O => Eps
  | S n' => Seq r (Times n' r)
  end.

Definition Repeat (lo hi : nat) (r : regex) : regex :=
  Seq (Times lo r) (Upto (hi - lo) r).

Definition is_char (a : ascii) : ascii → bool := fun c => bool_decide (c = a).

(** A literal character under [re.IGNORECASE]: in the Latin-1 range the
    characters that match a letter are its two cases. *)
Definition is_char_i (a : ascii) : ascii → bool :=
  fun c => bool_decide (PyStr.lower_char c = PyStr.lower_char a).

Fixpoint Lit (s : string) : regex :=
  match s with
  | EmptyString => Eps
  | String a s' => Seq (Chr (is_char a)) (Lit s')
  end.

Fixpoint LitI (s : string) : regex :=
  match s with
  | EmptyString => Eps
  | String a s' => Seq (Chr (is_char_i a)) (LitI s')
  end.

Fixpoint Seqs (rs : list regex) : regex :=
  match rs with
  | [] => Eps
  | [r] => r
  | r :: rs' => Seq r (Seqs rs')
  end.

Fixpoint Alts (rs : list regex) : regex :=
  match rs with
  | [] => Chr (fun _ => false)
  | [r] => r
  | r :: rs' => Alt r (Alts rs')
  end.

(** [.] without [re.DOTALL]: anything but a newline. *)
Definition dot : ascii → bool := fun c => negb (PyStr.is_code 10 c).

(** The state of one match attempt: the offset reached, the character
    before it, the text still to read, and the spans of the groups that
    matched so far (most recent first). *)
Record mstate : Type := MState {
  pos : nat;
  prev : option ascii;
  rest : string;
  caps : list (nat * (nat * nat))
}.

Definition wordish (o : option ascii) : bool :=
  match o with Some c => PyStr.isword c | None => false end.

Definition next (st : mstate) : option ascii :=
  match rest st with String c _ => Some c | EmptyString => None end.

Fixpoint exec (r : regex) (st : mstate) (k : mstate → option mstate)
  {struct r} : option mstate :=
  match r with
  | Eps => k st
  | Chr p =>
      match rest st with
      | String c s' =>
          if p c then k (MState (S (pos st)) (Some c) s' (caps st)) else None
      | EmptyString => None
      end
  | Bnd =>
      if xorb (wordish (prev st)) (wordish (next st)) then k st else None
  | Seq r1 r2 => exec r1 st (fun st' => exec r2 st' k)
  | Alt r1 r2 =>
      match exec r1 st k with
      | Some x => Some x
      | None => exec r2 st k
      end
  | Star r' =>
      (fix loop (n : nat) (st : mstate) : option mstate :=
         match n with
         | O => k st
         | S n' =>
             match exec r' st (fun st' =>
                     if (pos st <? pos st')%nat then loop n' st' else None) with
             | Some x => Some x
             | None => k st
             end
         end) (S (String.length (rest st))) st
  | Group n r' =>
      exec r' st (fun st' =>
        k (MState (pos st') (prev st') (rest st')
             ((n, (pos st, pos st')) :: caps st')))
  end.

(** A match object: [m.start()], [m.end()] and the group spans. *)
Record match_obj : Type := MatchObj {
  m_start : nat;
  m_end : nat;
  m_caps : list (nat * (nat * nat))
}.

Fixpoint cap_lookup (n : nat) (cs : list (nat * (nat * nat))) : option (nat * nat) :=
  match cs with
  | [] => None
  | (i, sp) :: cs' => if (i =? n)%nat then Some sp else cap_lookup n cs'
  end.

(** [m.group(0)] *)
Definition group0 (text : string) (m : match_obj) : string :=
  PyStr.slice (m_start m) (m_end m) text.

(** The text of group [n] as [re.findall] reports it: the empty string
    for a group that took no part in the match. *)
Definition group_or_empty (text : string) (n : nat) (m : match_obj) : string :=
  match cap_lookup n (m_caps m) with
  | Some (b, e) => PyStr.slice b e text
  | None => ""
  end.

(** Leftmost match at or after the current offset. *)
Fixpoint search_from (r : regex) (i : nat) (pv : option ascii) (s : string)
  : option (nat * mstate) :=
  match exec r (MState i pv s []) Some with
  | Some st' => Some (i, st')
  | None =>
      match s with
      | EmptyString => None
      | String c s' => search_from r (S i) (Some c) s'
      end
  end.

(** Successive non-overlapping matches.  After an empty match the scan
    moves on by one character; every pattern of [app.py] consumes at least
    one character, so that branch is not taken for them. *)
Fixpoint scan (fuel : nat) (r : regex) (i : nat) (pv : option ascii) (s : string)
  : list match_obj :=
  match fuel with
  | O => []
  | S fuel' =>
      match search_from r i pv s with
      | None => []
      | Some (b, st') =>
          MatchObj b (pos st') (caps st') ::
          (if (b <? pos st')%nat
           then scan fuel' r (pos st') (prev st') (rest st')
           else match rest st' with
                | EmptyString => []
                | String c s' => scan fuel' r (S (pos st')) (Some c) s'
                end)
      end
  end.

(** [re.finditer(r, text)] *)
Definition finditer (r : regex) (text : string) : list match_obj :=
  scan (S (String.length text)) r 0%nat None text.

(** [re.search(r, text)] *)
Definition search (r : regex) (text : string) : option match_obj :=
  match search_from r 0%nat None text with
  | Some (b, st') => Some (MatchObj b (pos st') (caps st'))
  | None => None
  end.

(** [re.match(r, text)]: a match anchored at offset 0. *)
Definition match_ (r : regex) (text : string) : option match_obj :=
  match exec r (MState 0 None text []) Some with
  | Some st' => Some (MatchObj 0 (pos st') (caps st'))
  | None => None
  end.

(** [re.findall] for a pattern with one group and with two groups. *)
Definition findall1 (r : regex) (text : string) : list string :=
  map (group_or_empty text 1) (finditer r text).

Definition findall2 (r : regex) (text : string) : list (string * string) :=
  map (fun m => (group_or_empty text 1 m, group_or_empty text 2 m))
      (finditer r text).

End Re.

(** ** The patterns of [app.py] *)

Module Patterns.
Import Re.

Definition d : regex := Chr PyStr.isdecimal.
Definition sp : regex := Chr PyStr.isspace.

(** [(Figure|Fig)[\s\-:]*(\d+)?[:\.\-]?\s*(.+)] with [re.IGNORECASE] *)
Definition caption_re : regex :=
  Seqs [ Group 1 (Alt (LitI "Figure") (LitI "Fig"));
         Star (Chr (fun c => PyStr.isspace c || is_char "-" c || is_char ":" c));
         Opt (Group 2 (Plus d));
         Opt (Chr (fun c => is_char ":" c || is_char "." c || is_char "-" c));
         Star sp;
         Group 3 (Plus (Chr dot)) ].

(** [\b\d{4}-\d{2}-\d{2}\b] *)
Definition date_iso_re : regex :=
  Seqs [ Bnd; Repeat 4 4 d; Lit "-"; Repeat 2 2 d; Lit "-"; Repeat 2 2 d; Bnd ].

(** [\b\d{1,2}/\d{1,2}/\d{2,4}\b] *)
Definition date_slash_re : regex :=
  Seqs [ Bnd; Repeat 1 2 d; Lit "/"; Repeat 1 2 d; Lit "/"; Repeat 2 4 d; Bnd ].

(** [\b\d{1,2} [A-Za-z]+ \d{4}\b] *)
Definition date_long_re : regex :=
  Seqs [ Bnd; Repeat 1 2 d; Lit " ";
         Plus (Chr (fun c => PyStr.in_range 65 90 c || PyStr.in_range 97 122 c));
         Lit " "; Repeat 4 4 d; Bnd ].

Definition date_patterns : list regex :=
  [ date_iso_re; date_slash_re; date_long_re ].

(** [Letter\s+(?:No\.|Number)?\s*([\w\-\/]+)] with [re.IGNORECASE] *)
Definition letter_re : regex :=
  Seqs [ LitI "Letter"; Plus sp;
         Opt (Alt (LitI "No.") (LitI "Number"));
         Star sp;
         Group 1 (Plus (Chr (fun c =>
           PyStr.isword c || is_char "-" c || is_char "/" c))) ].

(** [(Clause|Article|Act)\s+\d+(\.\d+)?] *)
Definition clause_re : regex :=
  Seqs [ Group 1 (Alts [Lit "Clause"; Lit "Article"; Lit "Act"]);
         Plus sp; Plus d;
         Opt (Group 2 (Seq (Lit ".") (Plus d))) ].

End Patterns.

(** ** The data model *)

(** Python's [str(n)] and the [{n}] of an f-string, for an [int]. *)
Definition str_of_int (n : Z) : string := NilZero.string_of_int (Z.to_int n).

(** What the page parser (pdfplumber) hands over for one page: the words
    with their bounding boxes, the tables as grids of cells, and the raw
    page text, which may be missing.  In a [Page] every cell is a string;
    [Plumber.Page] below also has the cells that pdfplumber returns as
    [None]. *)
Record Word (coord : Type) : Type := MkWord {
  w_text : string;
  w_x0 : coord;
  w_top : coord;
  w_x1 : coord;
  w_bottom : coord
}.
Arguments MkWord {coord}.
Arguments w_text {coord}.
Arguments w_x0 {coord}.
Arguments w_top {coord}.
Arguments w_x1 {coord}.
Arguments w_bottom {coord}.

Record Page (coord : Type) : Type := MkPage {
  extract_words : list (Word coord);
  extract_tables : list (list (list string));
  extract_text : option string
}.
Arguments MkPage {coord}.
Arguments extract_words {coord}.
Arguments extract_tables {coord}.
Arguments extract_text {coord}.

(** The three shapes of dictionaries that [extract_elements_from_page]
    builds.  Only paragraphs and tables have a ["text"] key. *)
Inductive ContentElement (coord : Type) : Type :=
| Paragraph (text : string) (page_number : Z) (bbox : list coord)
| Table (text html : string) (page_number : Z)
| Figure (image_filename caption : string) (page_number : Z).
Arguments Paragraph {coord}.
Arguments Table {coord}.
Arguments Figure {coord}.

Record ParsedDocument (coord : Type) : Type := MkParsed {
  content : list (ContentElement coord)
}.
Arguments MkParsed {coord}.
Arguments content {coord}.

Record DateReference : Type := MkDateRef {
  date : string;
  surrounding_context : string
}.

Record PersonReference : Type := MkPersonRef {
  person_name : string;
  person_page : Z
}.

Record LetterReference : Type := MkLetterRef {
  letter_name : string;
  letter_page : Z
}.

Record ClauseReference : Type := MkClauseRef {
  reference : string;
  clause_type : string;
  clause_page : Z
}.

Record References : Type := MkRefs {
  letters_mentioned : list LetterReference;
  laws_clauses_articles_acts : list ClauseReference;
  persons : list PersonReference
}.

Record LegalMetadata : Type := MkMeta {
  document_name : string;
  document_date : string;
  dates : list DateReference;
  references : References
}.

(** A span of the entity tagger: [ent.text] and [ent.label_]. *)
Record Ent : Type := MkEnt {
  ent_text : string;
  label_ : string
}.

Section Elements.
Context {coord : Type}.

(** [el["type"]] *)
Definition el_type (el : ContentElement coord) : string :=
  match el with
  | Paragraph _ _ _ => "paragraph"
  | Table _ _ _ => "table"
  | Figure _ _ _ => "figure"
  end.

(** [el.get("text", "")] *)
Definition get_text (el : ContentElement coord) : string :=
  match el with
  | Paragraph t _ _ => t
  | Table t _ _ => t
  | Figure _ _ _ => ""
  end.

(** [el["page_number"]] *)
Definition page_number (el : ContentElement coord) : Z :=
  match el with
  | Paragraph _ p _ => p
  | Table _ _ p => p
  | Figure _ _ p => p
  end.

Definition is_figure (el : ContentElement coord) : bool :=
  match el with Figure _ _ _ => true | _ => false end.

(** ** Utilities of [app.py] *)

Definition extract_caption_from_page_text (text : option string) : string :=
  match text with
  | None => ""
  | Some t =>
      if PyStr.truthy t then
        match Re.search Patterns.caption_re t with
        | Some m => Re.group0 t m
        | None => ""
        end
      else ""
  end.

Fixpoint find_page_in (text_snippet : string) (els : list (ContentElement coord)) : Z :=
  match els with
  | [] => -1
  | el :: els' =>
      if PyStr.contains text_snippet (get_text el)
      then page_number el
      else find_page_in text_snippet els'
  end.

Definition find_page (text_snippet : string) (parsed_doc : ParsedDocument coord) : Z :=
  find_page_in text_snippet (content parsed_doc).

Definition generic_terms : gset string :=
  {[ "Contractor"; "Request"; "Works"; "Milestones"; "no."; "Name"; "Company" ]}.

Definition is_valid_name (name : string) : bool :=
  PyStr.truthy name && PyStr.truthy (PyStr.strip name) &&
  bool_decide (name ∉ generic_terms).

(** ** Page Element Builder and Document Assembler *)

Definition table_text (table : list (list string)) : string :=
  PyStr.join (String "010" "") (map (PyStr.join " | ") table).

Definition html_of_table (table : list (list string)) : string :=
  "<table>" +:+
  PyStr.join "" (map (fun row =>
    "<tr>" +:+ PyStr.join "" (map (fun cell => "<td>" +:+ cell +:+ "</td>") row)
    +:+ "</tr>") table)
  +:+ "</table>".

Definition add_word (page_no : Z) (elements : list (ContentElement coord))
  (block : Word coord) : list (ContentElement coord) :=
  let text := PyStr.strip (w_text block) in
  if PyStr.truthy text
  then elements ++
       [Paragraph text page_no [w_x0 block; w_top block; w_x1 block; w_bottom block]]
  else elements.

Definition add_table (page_no : Z) (elements : list (ContentElement coord))
  (table : list (list string)) : list (ContentElement coord) :=
  elements ++ [Table (table_text table) (html_of_table table) page_no].

Definition extract_elements_from_page (page : Page coord) (page_no : Z)
  : list (ContentElement coord) :=
  let elements := fold_left (add_word page_no) (extract_words page) [] in
  let elements := fold_left (add_table page_no) (extract_tables page) elements in
  let caption := extract_caption_from_page_text (extract_text page) in
  elements ++
  [Figure ("page_" +:+ str_of_int page_no +:+ ".png") caption page_no].

(** The loop of [parse_document] over [enumerate(pdf.pages)]; [i] is the
    index of the first page of [pages]. *)
Fixpoint parse_pages (i : Z) (pages : list (Page coord))
  (acc : list (ContentElement coord)) : list (ContentElement coord) :=
  match pages with
  | [] => acc
  | page :: pages' =>
      parse_pages (i + 1) pages' (acc ++ extract_elements_from_page page (i + 1))
  end.

Definition parse_document (pages : list (Page coord)) : ParsedDocument coord :=
  MkParsed (parse_pages 0 pages []).

End Elements.

(** ** The part of [datetime] that the date extractor calls *)

Inductive exn : Type := ValueError | TypeError.

(** The result of a call that may raise. *)
Inductive pyresult (A : Type) : Type :=
| Returns (a : A)
| Raises (e : exn).
Arguments Returns {A}.
Arguments Raises {A}.

(** ** The builder on a page as pdfplumber returns it

    [page.extract_tables()] gives [None] in place of a string for a cell
    that has no text.  [Page] above is a page all of whose cells are
    strings, on which the builder returns; [Plumber.Page] is a page as the
    library returns it, and the builder on it raises [TypeError] where
    [" | ".join(row)] meets a [None]. *)

Module Plumber.

Record Page (coord : Type) : Type := MkPage {
  extract_words : list (Word coord);
  extract_tables : list (list (list (option string)));
  extract_text : option string
}.
Arguments MkPage {coord}.
Arguments extract_words {coord}.
Arguments extract_tables {coord}.
Arguments extract_text {coord}.

(** The items of [row] when all of them are strings: [str.join] raises
    [TypeError] at an item that is not one. *)
Fixpoint strings_of (row : list (option string)) : pyresult (list string) :=
  match row with
  | [] => Returns []
  | None :: _ => Raises TypeError
  | Some cell :: row' =>
      match strings_of row' with
      | Returns cells => Returns (cell :: cells)
      | Raises e => Raises e
      end
  end.

(** [[" | ".join(row) for row in table]] *)
Fixpoint row_texts (table : list (list (option string))) : pyresult (list string) :=
  match table with
  | [] => Returns []
  | row :: table' =>
      match strings_of row with
      | Raises e => Raises e
      | Returns cells =>
          match row_texts table' with
          | Returns texts => Returns (PyStr.join " | " cells :: texts)
          | Raises e => Raises e
          end
      end
  end.

(** [f"{cell}"] *)
Definition format_cell (cell : option string) : string :=
  match cell with
  | Some text => text
  | None => "None"
  end.

Definition html_of_table (table : list (list (option string))) : string :=
  "<table>" +:+
  PyStr.join "" (map (fun row =>
    "<tr>" +:+
    PyStr.join "" (map (fun cell => "<td>" +:+ format_cell cell +:+ "</td>") row)
    +:+ "</tr>") table)
  +:+ "</table>".

Section Builder.
Context {coord : Type}.

(** The loop over the tables; [table_text] is computed first. *)
Fixpoint add_tables (page_no : Z) (elements : list (ContentElement coord))
  (tables : list (list (list (option string))))
  : pyresult (list (ContentElement coord)) :=
  match tables with
  | [] => Returns elements
  | table :: tables' =>
      match row_texts table with
      | Raises e => Raises e
      | Returns texts =>
          add_tables page_no
            (elements ++
             [Table (PyStr.join (String "010" "") texts) (html_of_table table) page_no])
            tables'
      end
  end.

Definition extract_elements_from_page (page : Page coord) (page_no : Z)
  : pyresult (list (ContentElement coord)) :=
  let elements := fold_left (add_word page_no) (extract_words page) [] in
  match add_tables page_no elements (extract_tables page) with
  | Raises e => Raises e
  | Returns elements =>
      let caption := extract_caption_from_page_text (extract_text page) in
      Returns (elements ++
               [Figure ("page_" +:+ str_of_int page_no +:+ ".png") caption page_no])
  end.

(** The loop of [parse_document]; an exception of the builder leaves it. *)
Fixpoint parse_pages (i : Z) (pages : list (Page coord))
  (acc : list (ContentElement coord)) : pyresult (list (ContentElement coord)) :=
  match pages with
  | [] => Returns acc
  | page :: pages' =>
      match extract_elements_from_page page (i + 1) with
      | Raises e => Raises e
      | Returns elements => parse_pages (i + 1) pages' (acc ++ elements)
      end
  end.

Definition parse_document (pages : list (Page coord))
  : pyresult (ParsedDocument coord) :=
  match parse_pages 0 pages [] with
  | Returns els => Returns (MkParsed els)
  | Raises e => Raises e
  end.

(** No cell of [page] is [None]. *)
Definition no_gap (page : Page coord) : Prop :=
  ∀ table row, table ∈ extract_tables page → row ∈ table → None ∉ row.

End Builder.

End Plumber.

(** A page whose cells are all strings, as pdfplumber returns it. *)
Definition plumber_page {coord : Type} (page : Page coord) : Plumber.Page coord :=
  Plumber.MkPage (extract_words page)
                 (map (map (map Some)) (extract_tables page))
                 (extract_text page).

(** The strings of a page that has no [None] cell. *)
Definition page_of_plumber {coord : Type} (page : Plumber.Page coord) : Page coord :=
  MkPage (Plumber.extract_words page)
         (map (map (map (default ""))) (Plumber.extract_tables page))
         (Plumber.extract_text page).

Module DateTime.
Import Re.

(** A [datetime] value; the time of day is always midnight here and is
    left out.  Python only builds values for which [valid_date] holds. *)
Record datetime : Type := MkDate { year : Z; month : Z; day : Z }.

Definition is_leap (y : Z) : bool :=
  (y mod 4 =? 0) && (negb (y mod 100 =? 0) || (y mod 400 =? 0)).

Definition days_in_month (y m : Z) : Z :=
  if m =? 2 then (if is_leap y then 29 else 28)
  else if (m =? 4) || (m =? 6) || (m =? 9) || (m =? 11) then 30
  else 31.

Definition valid_date (y m dd : Z) : bool :=
  (1 <=? y) && (y <=? 9999) && (1 <=? m) && (m <=? 12) &&
  (1 <=? dd) && (dd <=? days_in_month y m).

(** The three format strings of [app.py]. *)
Inductive format : Type :=
| Fmt_Y_m_d   (* "%Y-%m-%d" *)
| Fmt_d_m_Y   (* "%d/%m/%Y" *)
| Fmt_d_B_Y.  (* "%d %B %Y" *)

Definition month_names : list string :=
  [ "january"; "february"; "march"; "april"; "may"; "june"; "july";
    "august"; "september"; "october"; "november"; "december" ].

Definition digit_in (lo hi : nat) : regex :=
  Chr (PyStr.in_range (48 + lo) (48 + hi)).

(** The regular expressions that [_strptime] substitutes for the
    directives; the groups are numbered Y = 1, m = 2, d = 3, B = 4. *)
Definition re_Y : regex := Group 1 (Times 4 Patterns.d).
Definition re_m : regex :=
  Group 2 (Alts [ Seq (Lit "1") (digit_in 0 2);
                  Seq (Lit "0") (digit_in 1 9);
                  digit_in 1 9 ]).
Definition re_d : regex :=
  Group 3 (Alts [ Seq (Lit "3") (digit_in 0 1);
                  Seq (digit_in 1 2) Patterns.d;
                  Seq (Lit "0") (digit_in 1 9);
                  digit_in 1 9;
                  Seq (Lit " ") (digit_in 1 9) ]).
(** Longest names first, as [_strptime] orders them. *)
Definition re_B : regex :=
  Group 4 (Alts (map LitI
    [ "september"; "february"; "november"; "december"; "january";
      "october"; "august"; "march"; "april"; "june"; "july"; "may" ])).

Definition format_regex (f : format) : regex :=
  match f with
  | Fmt_Y_m_d => Seqs [ re_Y; Lit "-"; re_m; Lit "-"; re_d ]
  | Fmt_d_m_Y => Seqs [ re_d; Lit "/"; re_m; Lit "/"; re_Y ]
  | Fmt_d_B_Y => Seqs [ re_d; Plus Patterns.sp; re_B; Plus Patterns.sp; re_Y ]
  end.

(** [int(s)] on the text of a group: optional blanks, then digits. *)
Fixpoint int_digits (acc : Z) (s : string) : Z :=
  match s with
  | EmptyString => acc
  | String c s' => int_digits (10 * acc + Z.of_nat (PyStr.code c - 48)) s'
  end.

Definition int_of_str (s : string) : Z := int_digits 0 (PyStr.strip s).

Fixpoint index_of (x : string) (l : list string) (i : Z) : option Z :=
  match l with
  | [] => None
  | y :: l' => if decide (x = y) then Some i else index_of x l' (i + 1)
  end.

Definition month_of_match (f : format) (s : string) (m : match_obj) : option Z :=
  match f with
  | Fmt_d_B_Y => index_of (PyStr.lower (group_or_empty s 4 m)) month_names 1
  | _ => Some (int_of_str (group_or_empty s 2 m))
  end.

(** [datetime.strptime(s, f)]: the whole of [s] must match the format, and
    the fields must form a date of the calendar. *)
Definition strptime (s : string) (f : format) : pyresult datetime :=
  match match_ (format_regex f) s with
  | None => Raises ValueError
  | Some m =>
      if negb (m_end m =? String.length s)%nat then Raises ValueError
      else
        let y := int_of_str (group_or_empty s 1 m) in
        let dd := int_of_str (group_or_empty s 3 m) in
        match month_of_match f s m with
        | None => Raises ValueError
        | Some mo =>
            if valid_date y mo dd then Returns (MkDate y mo dd)
            else Raises ValueError
        end
  end.

Definition digit_char (k : Z) : ascii := ascii_of_nat (48 + Z.to_nat k).

(** [n] in decimal, zero-filled to [w] digits (for [0 <= n < 10 ^ w]). *)
Fixpoint pad (w : nat) (n : Z) : string :=
  match w with
  | O => ""
  | S w' =>
      String (digit_char ((n / 10 ^ Z.of_nat w') mod 10))
             (pad w' (n mod 10 ^ Z.of_nat w'))
  end.

(** The number of decimal digits of [n], for [0 <= n]. *)
Fixpoint digits_of (fuel : nat) (n : Z) : nat :=
  match fuel with
  | O => 1
  | S fuel' => if n <? 10 then 1%nat else S (digits_of fuel' (n / 10))
  end.

(** [n] in decimal with no zero fill, for [0 <= n]; a number has at most
    [log2 n + 1] digits. *)
Definition dec (n : Z) : string := pad (digits_of (Z.to_nat (Z.log2 n)) n) n.

(** [dt.strftime("%Y-%m-%d")].  CPython hands the format to the C library,
    and glibc writes [%Y] as the plain number of the year, with no zero fill:
    the year 999 gives ["999-03-05"].  [%m] and [%d] have two digits. *)
Definition strftime (dt : datetime) : string :=
  dec (year dt) +:+ "-" +:+ pad 2 (month dt) +:+ "-" +:+ pad 2 (day dt).


End DateTime.

(** ** What a match is

    [matches r st st'] says that [r] can take the match state [st] to
    [st']: the relation of which [Re.exec] explores the alternatives in
    priority order. *)

Inductive matches : Re.regex → Re.mstate → Re.mstate → Prop :=
| matches_eps st : matches Re.Eps st st
| matches_chr (p : ascii → bool) st c s' :
    Re.rest st = String c s' → p c = true →
    matches (Re.Chr p) st (Re.MState (S (Re.pos st)) (Some c) s' (Re.caps st))
| matches_bnd st :
    xorb (Re.wordish (Re.prev st)) (Re.wordish (Re.next st)) = true →
    matches Re.Bnd st st
| matches_seq r1 r2 st st1 st2 :
    matches r1 st st1 → matches r2 st1 st2 → matches (Re.Seq r1 r2) st st2
| matches_alt_l r1 r2 st st' : matches r1 st st' → matches (Re.Alt r1 r2) st st'
| matches_alt_r r1 r2 st st' : matches r2 st st' → matches (Re.Alt r1 r2) st st'
| matches_star_stop r st : matches (Re.Star r) st st
| matches_star_step r st st1 st2 :
    matches r st st1 → (Re.pos st < Re.pos st1)%nat → matches (Re.Star r) st1 st2 →
    matches (Re.Star r) st st2
| matches_group n r st st' :
    matches r st st' →
    matches (Re.Group n r) st
      (Re.MState (Re.pos st') (Re.prev st') (Re.rest st')
         ((n, (Re.pos st, Re.pos st')) :: Re.caps st')).

(** [st'] is [st] after reading the characters [w]. *)
Definition seg (st : Re.mstate) (w : string) (st' : Re.mstate) : Prop :=
  Re.rest st = w +:+ Re.rest st' ∧ Re.pos st' = (Re.pos st + String.length w)%nat.

(** The state [st] stands at offset [Re.pos st] of [text]. *)
Definition at_text (text : string) (st : Re.mstate) : Prop :=
  ∃ pre, text = pre +:+ Re.rest st ∧ String.length pre = Re.pos st.

(** Every character of [w] is in the class [p]. *)
Fixpoint all_chars (p : ascii → bool) (w : string) : Prop :=
  match w with
  | EmptyString => True
  | String c w' => p c = true ∧ all_chars p w'
  end.

(** [m] is a match of [r] in [text]: [r] takes the state at offset
    [m.start()], with no group set, to a state at offset [m.end()] that holds
    the groups of [m]. *)
Definition is_match (r : Re.regex) (text : string) (m : Re.match_obj) : Prop :=
  ∃ pre s pv st',
    text = pre +:+ s ∧ String.length pre = Re.m_start m ∧
    matches r (Re.MState (Re.m_start m) pv s []) st' ∧
    Re.m_end m = Re.pos st' ∧ Re.m_caps m = Re.caps st'.

(** A character of a letter identifier: the class [[\w\-\/]]. *)
Definition letter_char (c : ascii) : bool :=
  PyStr.isword c || Re.is_char "-" c || Re.is_char "/" c.

(** [text] holds a decimal digit. *)
Definition has_digit (text : string) : Prop :=
  ∃ a c b, text = a +:+ String c b ∧ PyStr.isdecimal c = true.

(** [s] holds a blank character. *)
Definition has_space (s : string) : Prop :=
  ∃ a c b, s = a +:+ String c b ∧ PyStr.isspace c = true.

(** No character of [s] is blank. *)
Definition blank_free (s : string) : Prop :=
  all_chars (fun c => negb (PyStr.isspace c)) s.


(** A character of a day field: a digit, or the space that may stand for
    a leading zero. *)
Definition day_char (c : ascii) : bool := PyStr.isdecimal c || Re.is_char " " c.

(** [s] has one of the three shapes that [strptime] accepts here, and [dt]
    is the date read from its fields: year first in the ISO form, day first
    in the other two. *)
Definition read_as (s : string) (dt : DateTime.datetime) : Prop :=
  (∃ Y M D,
     s = Y +:+ "-" +:+ M +:+ "-" +:+ D ∧
     String.length Y = 4%nat ∧ all_chars PyStr.isdecimal Y ∧
     all_chars PyStr.isdecimal M ∧ all_chars day_char D ∧
     dt = DateTime.MkDate (DateTime.int_of_str Y) (DateTime.int_of_str M)
                          (DateTime.int_of_str D)) ∨
  (∃ D M Y,
     s = D +:+ "/" +:+ M +:+ "/" +:+ Y ∧
     String.length Y = 4%nat ∧ all_chars PyStr.isdecimal Y ∧
     all_chars PyStr.isdecimal M ∧ all_chars day_char D ∧
     dt = DateTime.MkDate (DateTime.int_of_str Y) (DateTime.int_of_str M)
                          (DateTime.int_of_str D)) ∨
  (∃ D sp1 B sp2 Y mo,
     s = D +:+ sp1 +:+ B +:+ sp2 +:+ Y ∧
     String.length Y = 4%nat ∧ all_chars PyStr.isdecimal Y ∧
     all_chars PyStr.isspace sp1 ∧ all_chars PyStr.isspace sp2 ∧
     all_chars day_char D ∧
     DateTime.index_of (PyStr.lower B) DateTime.month_names 1 = Some mo ∧
     dt = DateTime.MkDate (DateTime.int_of_str Y) mo (DateTime.int_of_str D)).

(** ** Sample inputs *)

(** A tagger that finds nothing, and one with a fixed output. *)
Definition no_entities : string → list Ent := fun _ => [].

Definition sample_tagger : string → list Ent := fun _ =>
  [ MkEnt "Contractor" "PERSON"; MkEnt "John Smith" "PERSON"; MkEnt "   " "PERSON";
    MkEnt "John Smith " "PERSON"; MkEnt "Acme" "ORG"; MkEnt "john smith" "PERSON" ].

(** A document whose only element is one paragraph on page 1. *)
Definition text_doc (t : string) : ParsedDocument unit :=
  MkParsed [Paragraph t 1 []].

Definition three_pages : ParsedDocument unit :=
  MkParsed [ Paragraph "Scope" 1 []; Figure "page_1.png" "" 1;
             Paragraph "Terms" 2 []; Figure "page_2.png" "" 2;
             Paragraph "see Clause 7 below" 3 []; Figure "page_3.png" "" 3 ].

(** One decomposed page with the given words and no table. *)
Definition words_page (ws : list string) : Page unit :=
  MkPage (map (fun w => MkWord w tt tt tt tt) ws) [] None.

(** The words of the sentence "The contractor shall comply with Article 5
    per Letter No. XYZ-123 dated 2024-01-01, as confirmed by John Smith." on
    one page, and a tagger that reports the person in it. *)
Definition scenario_page : Page unit :=
  words_page [ "The"; "contractor"; "shall"; "comply"; "with"; "Article"; "5"; "per";
               "Letter"; "No."; "XYZ-123"; "dated"; "2024-01-01,"; "as"; "confirmed";
               "by"; "John"; "Smith." ].

Definition scenario_tagger : string → list Ent := fun _ =>
  [ MkEnt "John Smith" "PERSON" ].

(** A page with two words and a raw text that holds a figure caption. *)
Definition captioned_page : Page unit :=
  MkPage [MkWord "Site" tt tt tt tt; MkWord "plan" tt tt tt tt] []
         (Some "Figure 1: Clause 9 of 2024-01-01").

(** A page as pdfplumber returns it, with a table of two rows, and the same
    page with one cell that has no text. *)
Definition table_page : Plumber.Page unit :=
  Plumber.MkPage [MkWord "Schedule" tt tt tt tt]
                 [[[Some "Item"; Some "Qty"]; [Some "Bolt"; Some "4"]]]
                 (Some "Schedule").

Definition gap_page : Plumber.Page unit :=
  Plumber.MkPage [MkWord "Schedule" tt tt tt tt]
                 [[[Some "Item"; Some "Qty"]; [Some "Bolt"; None]]]
                 (Some "Schedule").

(** ** State and exceptions

    [extract_legal_metadata] reads the document it is given and fills a
    dictionary and three sets of its own.  These objects make up the store;
    a computation takes a store and either returns a value or raises, in
    both cases with the store it leaves behind. *)

Section Engine.
Context {coord : Type}.

Record store : Type := MkStore {
  parsed_doc : ParsedDocument coord;
  metadata : LegalMetadata;
  found_dates : gset (string * Z * Z);
  seen_persons : gset string;
  seen_clauses : gset string
}.

Inductive outcome (A : Type) : Type :=
| Ok (a : A) (s : store)
| Raise (e : exn) (s : store).
Arguments Ok {A}.
Arguments Raise {A}.

Definition M (A : Type) : Type := store → outcome A.

#[local] Instance M_ret : MRet M := fun A a s => Ok a s.

#[local] Instance M_bind : MBind M := fun A B f m s =>
  match m s with
  | Ok a s' => f a s'
  | Raise e s' => Raise e s'
  end.

Definition gets {A : Type} (f : store → A) : M A := fun s => Ok (f s) s.

Definition modify (f : store → store) : M unit := fun s => Ok tt (f s).

(** A call of a library function that may raise. *)
Definition call {A : Type} (r : pyresult A) : M A := fun s =>
  match r with
  | Returns a => Ok a s
  | Raises e => Raise e s
  end.

(** [try: m  except: h] with a bare [except]. *)
Definition try_except {A : Type} (m h : M A) : M A := fun s =>
  match m s with
  | Ok a s' => Ok a s'
  | Raise _ s' => h s'
  end.

(** [for x in l: body(x)] *)
Fixpoint for_each {A : Type} (l : list A) (body : A → M unit) : M unit :=
  match l with
  | [] => mret tt
  | x :: l' => body x;; for_each l' body
  end.

Definition set_metadata (md : LegalMetadata) (s : store) : store :=
  MkStore (parsed_doc s) md (found_dates s) (seen_persons s) (seen_clauses s).

Definition set_found_dates (fd : gset (string * Z * Z)) (s : store) : store :=
  MkStore (parsed_doc s) (metadata s) fd (seen_persons s) (seen_clauses s).

Definition set_seen_persons (sp : gset string) (s : store) : store :=
  MkStore (parsed_doc s) (metadata s) (found_dates s) sp (seen_clauses s).

Definition set_seen_clauses (sc : gset string) (s : store) : store :=
  MkStore (parsed_doc s) (metadata s) (found_dates s) (seen_persons s) sc.

(** Updates of the [metadata] dictionary. *)
Definition set_document_date (d : string) (md : LegalMetadata) : LegalMetadata :=
  MkMeta (document_name md) d (dates md) (references md).

Definition append_date (d : DateReference) (md : LegalMetadata) : LegalMetadata :=
  MkMeta (document_name md) (document_date md) (dates md ++ [d]) (references md).

Definition append_person (p : PersonReference) (md : LegalMetadata) : LegalMetadata :=
  let r := references md in
  MkMeta (document_name md) (document_date md) (dates md)
    (MkRefs (letters_mentioned r) (laws_clauses_articles_acts r) (persons r ++ [p])).

Definition append_letter (l : LetterReference) (md : LegalMetadata) : LegalMetadata :=
  let r := references md in
  MkMeta (document_name md) (document_date md) (dates md)
    (MkRefs (letters_mentioned r ++ [l]) (laws_clauses_articles_acts r) (persons r)).

Definition append_clause (c : ClauseReference) (md : LegalMetadata) : LegalMetadata :=
  let r := references md in
  MkMeta (document_name md) (document_date md) (dates md)
    (MkRefs (letters_mentioned r) (laws_clauses_articles_acts r ++ [c]) (persons r)).

(** Order of the tuples [(iso, start, end)]: lexicographic, strings first. *)
Definition key_leb (a b : string * Z * Z) : bool :=
  match String.compare a.1.1 b.1.1 with
  | Lt => true
  | Gt => false
  | Eq => (a.1.2 <? b.1.2) || ((a.1.2 =? b.1.2) && (a.2 <=? b.2))
  end.

Definition key_le (a b : string * Z * Z) : Prop := key_leb a b = true.

#[local] Instance key_le_dec a b : Decision (key_le a b).
Proof. unfold key_le. apply _. Defined.

(** [sorted(found_dates)] *)
Definition sorted (fd : gset (string * Z * Z)) : list (string * Z * Z) :=
  merge_sort key_le (elements fd).

(** ** [extract_legal_metadata] *)

Definition init_metadata (pdf_filename : string) : LegalMetadata :=
  MkMeta pdf_filename "not found" [] (MkRefs [] [] []).

Definition all_text_of (parsed : ParsedDocument coord) : string :=
  PyStr.join " " (map get_text (content parsed)).

(** The body of the inner date loop.  [None] stands for the [continue] of
    the innermost handler. *)
Definition date_body (all_text : string) (m : Re.match_obj) : M unit :=
  let date_str := Re.group0 all_text m in
  r ← try_except
        (dt ← call (DateTime.strptime date_str DateTime.Fmt_Y_m_d); mret (Some dt))
        (try_except
           (dt ← call (DateTime.strptime date_str DateTime.Fmt_d_m_Y); mret (Some dt))
           (try_except
              (dt ← call (DateTime.strptime date_str DateTime.Fmt_d_B_Y); mret (Some dt))
              (mret None)));
  match r with
  | None => mret tt
  | Some dt =>
      let iso := DateTime.strftime dt in
      modify (fun s =>
        set_found_dates
          ({[ (iso, Z.of_nat (Re.m_start m), Z.of_nat (Re.m_end m)) ]} ∪ found_dates s) s)
  end.

Definition date_entry (all_text : string) (k : string * Z * Z) : DateReference :=
  let '(iso, start, end_) := k in
  MkDateRef iso
    (PyStr.slice (Z.to_nat (Z.max (start - 50) 0)) (Z.to_nat (end_ + 50)) all_text).

Definition person_body (ent : Ent) : M unit :=
  if bool_decide (label_ ent = "PERSON") && is_valid_name (ent_text ent) then
    let name := PyStr.strip (ent_text ent) in
    seen ← gets seen_persons;
    if bool_decide (name ∉ seen) then
      modify (set_seen_persons ({[ name ]} ∪ seen));;
      pd ← gets parsed_doc;
      modify (fun s =>
        set_metadata (append_person (MkPersonRef name (find_page name pd)) (metadata s)) s)
    else mret tt
  else mret tt.

Definition letter_body (match_ : string) : M unit :=
  if is_valid_name match_ then
    pd ← gets parsed_doc;
    modify (fun s =>
      set_metadata (append_letter (MkLetterRef match_ (find_page match_ pd)) (metadata s)) s)
  else mret tt.

Definition clause_body (ref : string * string) : M unit :=
  let full_ref :=
    PyStr.strip (ref.1 +:+ " " +:+ (if PyStr.truthy ref.2 then ref.2 else "")) in
  seen ← gets seen_clauses;
  if bool_decide (full_ref ∉ seen) then
    modify (set_seen_clauses ({[ full_ref ]} ∪ seen));;
    pd ← gets parsed_doc;
    modify (fun s =>
      set_metadata
        (append_clause (MkClauseRef full_ref (PyStr.lower ref.1) (find_page full_ref pd))
           (metadata s)) s)
  else mret tt.

(** The function returns [{"metadata": metadata}]; the wrapper with its
    single key is left out.  [nlp] is the entity tagger, [nlp(text).ents]. *)
Definition extract_legal_metadata (nlp : string → list Ent) (pdf_filename : string)
  : M LegalMetadata :=
  modify (set_metadata (init_metadata pdf_filename));;
  pd ← gets parsed_doc;
  let all_text := all_text_of pd in
  let doc := nlp all_text in
  (* Dates *)
  modify (set_found_dates ∅);;
  for_each Patterns.date_patterns (fun pattern =>
    for_each (Re.finditer pattern all_text) (date_body all_text));;
  fd ← gets found_dates;
  for_each (sorted fd) (fun k =>
    modify (fun s => set_metadata (append_date (date_entry all_text k) (metadata s)) s));;
  md ← gets metadata;
  match dates md with
  | d0 :: _ => modify (fun s => set_metadata (set_document_date (date d0) (metadata s)) s)
  | [] => mret tt
  end;;
  (* Persons *)
  modify (set_seen_persons ∅);;
  for_each doc person_body;;
  (* Letters *)
  for_each (Re.findall1 Patterns.letter_re all_text) letter_body;;
  (* Clauses / Articles / Acts *)
  modify (set_seen_clauses ∅);;
  for_each (Re.findall2 Patterns.clause_re all_text) clause_body;;
  gets metadata.

(** The value a call returned, if it returned. *)
Definition returned {A : Type} (o : outcome A) : option A :=
  match o with
  | Ok a _ => Some a
  | Raise _ _ => None
  end.

(** The store at the call: the argument, and locals not yet assigned. *)
Definition init_store (parsed : ParsedDocument coord) : store :=
  MkStore parsed (MkMeta "" "" [] (MkRefs [] [] [])) ∅ ∅ ∅.

Definition run_extract (nlp : string → list Ent) (parsed : ParsedDocument coord)
  (pdf_filename : string) : outcome LegalMetadata :=
  extract_legal_metadata nlp pdf_filename (init_store parsed).

(** ** The store transformer computed by each loop

    Each loop body returns normally with a store that is a function of
    the store before it; the loops are then folds of these functions. *)

(** The first format that parses [date_str], in the order of the nested
    handlers. *)
Definition first_parse (date_str : string) : option DateTime.datetime :=
  match DateTime.strptime date_str DateTime.Fmt_Y_m_d with
  | Returns dt => Some dt
  | Raises _ =>
      match DateTime.strptime date_str DateTime.Fmt_d_m_Y with
      | Returns dt => Some dt
      | Raises _ =>
          match DateTime.strptime date_str DateTime.Fmt_d_B_Y with
          | Returns dt => Some dt
          | Raises _ => None
          end
      end
  end.

Definition match_key (dt : DateTime.datetime) (m : Re.match_obj) : string * Z * Z :=
  (DateTime.strftime dt, Z.of_nat (Re.m_start m), Z.of_nat (Re.m_end m)).

Definition date_step (all_text : string) (s : store) (m : Re.match_obj) : store :=
  match first_parse (Re.group0 all_text m) with
  | Some dt => set_found_dates ({[ match_key dt m ]} ∪ found_dates s) s
  | None => s
  end.

Definition dates_phase (all_text : string) (s : store) : store :=
  fold_left (fun s pattern =>
               fold_left (date_step all_text) (Re.finditer pattern all_text) s)
            Patterns.date_patterns s.

Definition append_dates_phase (all_text : string) (s : store) : store :=
  fold_left (fun s k => set_metadata (append_date (date_entry all_text k) (metadata s)) s)
            (sorted (found_dates s)) s.

Definition doc_date_phase (s : store) : store :=
  match dates (metadata s) with
  | d0 :: _ => set_metadata (set_document_date (date d0) (metadata s)) s
  | [] => s
  end.

Definition valid_person (ent : Ent) : bool :=
  bool_decide (label_ ent = "PERSON") && is_valid_name (ent_text ent).

Definition person_step (s : store) (ent : Ent) : store :=
  if valid_person ent then
    let name := PyStr.strip (ent_text ent) in
    if bool_decide (name ∉ seen_persons s) then
      let s1 := set_seen_persons ({[ name ]} ∪ seen_persons s) s in
      set_metadata
        (append_person (MkPersonRef name (find_page name (parsed_doc s1))) (metadata s1)) s1
    else s
  else s.

Definition letter_step (s : store) (match_ : string) : store :=
  if is_valid_name match_ then
    set_metadata
      (append_letter (MkLetterRef match_ (find_page match_ (parsed_doc s))) (metadata s)) s
  else s.

Definition render_ref (ref : string * string) : string :=
  PyStr.strip (ref.1 +:+ " " +:+ (if PyStr.truthy ref.2 then ref.2 else "")).

Definition clause_step (s : store) (ref : string * string) : store :=
  let full_ref := render_ref ref in
  if bool_decide (full_ref ∉ seen_clauses s) then
    let s1 := set_seen_clauses ({[ full_ref ]} ∪ seen_clauses s) s in
    set_metadata
      (append_clause
         (MkClauseRef full_ref (PyStr.lower ref.1) (find_page full_ref (parsed_doc s1)))
         (metadata s1)) s1
  else s.

Definition final_store (nlp : string → list Ent) (pdf_filename : string) (s : store)
  : store :=
  let s0 := set_metadata (init_metadata pdf_filename) s in
  let all_text := all_text_of (parsed_doc s0) in
  let s1 := dates_phase all_text (set_found_dates ∅ s0) in
  let s2 := doc_date_phase (append_dates_phase all_text s1) in
  let s3 := fold_left person_step (nlp all_text) (set_seen_persons ∅ s2) in
  let s4 := fold_left letter_step (Re.findall1 Patterns.letter_re all_text) s3 in
  fold_left clause_step (Re.findall2 Patterns.clause_re all_text) (set_seen_clauses ∅ s4).

(** Deduplication that keeps the first occurrence of each string. *)
Fixpoint keep_first (l : list string) : list string :=
  match l with
  | [] => []
  | x :: l' => x :: filter (fun y => y ≠ x) (keep_first l')
  end.

(** [k] is the key of a match of one of the three patterns whose text
    parses: its ISO date and its offsets in the text. *)
Definition date_hit (all_text : string) (k : string * Z * Z) : Prop :=
  ∃ pattern m dt,
    pattern ∈ Patterns.date_patterns ∧
    m ∈ Re.finditer pattern all_text ∧
    first_parse (Re.group0 all_text m) = Some dt ∧
    k = match_key dt m.

(** [a] occurs in [s] as a contiguous run of characters. *)
Definition occurs_in (a s : string) : Prop := ∃ l r, s = l +:+ a +:+ r.

(** A page number that a reference of a document assembled from [pages]
    may carry: the sentinel, or the number of one of the pages, borne by
    some element of the document. *)
Definition page_ok (pages : list (Page coord)) (pg : Z) : Prop :=
  pg = -1 ∨
  (1 ≤ pg ≤ Z.of_nat (length pages) ∧
   ∃ el, el ∈ content (parse_document pages) ∧ page_number el = pg).

(** A span that the person extractor keeps. *)
Definition accepted_span (e : Ent) : Prop :=
  label_ e = "PERSON" ∧
  (ent_text e ∉ ["Contractor"; "Request"; "Works"; "Milestones"; "no."; "Name"; "Company"]) ∧
  PyStr.strip (ent_text e) ≠ "".

#[global] Instance accepted_span_dec (e : Ent) : Decision (accepted_span e).
Proof. unfold accepted_span. apply _. Defined.

(** The same element with the caption of a figure rewritten. *)
Definition with_caption (f : string → string) (el : ContentElement coord)
  : ContentElement coord :=
  match el with
  | Figure image_filename caption p => Figure image_filename (f caption) p
  | _ => el
  end.

(** Projections of the result used in the statements below. *)
Definition md_dates (s : store) : string * list DateReference :=
  (document_date (metadata s), dates (metadata s)).

Definition md_persons (s : store) : list PersonReference :=
  persons (references (metadata s)).

Definition md_letters (s : store) : list LetterReference :=
  letters_mentioned (references (metadata s)).

Definition md_clauses (s : store) : list ClauseReference :=
  laws_clauses_articles_acts (references (metadata s)).

(** The trimmed names of the spans that pass [valid_person], in order. *)
Definition candidates (ents : list Ent) : list string :=
  map (fun e => PyStr.strip (ent_text e)) (filter (fun e => valid_person e = true) ents).

(** The entries that the loops append. *)
Definition person_entry (doc : ParsedDocument coord) (name : string) : PersonReference :=
  MkPersonRef name (find_page name doc).

Definition letter_entry (doc : ParsedDocument coord) (name : string) : LetterReference :=
  MkLetterRef name (find_page name doc).

(** The store once the dates and the document date are set. *)
Definition store_after_dates (pdf_filename : string) (s : store) : store :=
  let s0 := set_metadata (init_metadata pdf_filename) s in
  let all_text := all_text_of (parsed_doc s0) in
  doc_date_phase (append_dates_phase all_text (dates_phase all_text (set_found_dates ∅ s0))).

(** A clause entry whose page is what the resolver gives for its reference. *)
Definition clause_resolved (doc : ParsedDocument coord) (c : ClauseReference) : Prop :=
  clause_page c = find_page (reference c) doc.


(** Deduplication by a key that keeps the first element with each key. *)
Fixpoint keep_first_by {A : Type} (key : A → string) (l : list A) : list A :=
  match l with
  | [] => []
  | x :: l' => x :: filter (fun y => key y ≠ key x) (keep_first_by key l')
  end.

(** The entry that a clause match [(kind, sub)] appends. *)
Definition clause_entry (doc : ParsedDocument coord) (ref : string * string)
  : ClauseReference :=
  MkClauseRef (render_ref ref) (PyStr.lower ref.1) (find_page (render_ref ref) doc).

(** The elements that [extract_elements_from_page] builds for a word, a
    table and the page itself. *)
Definition paragraph_of (page_no : Z) (block : Word coord) : ContentElement coord :=
  Paragraph (PyStr.strip (w_text block)) page_no
            [w_x0 block; w_top block; w_x1 block; w_bottom block].

Definition table_of (page_no : Z) (table : list (list string)) : ContentElement coord :=
  Table (table_text table) (html_of_table table) page_no.

Definition figure_of (page_no : Z) (page : Page coord) : ContentElement coord :=
  Figure ("page_" +:+ str_of_int page_no +:+ ".png")
         (extract_caption_from_page_text (extract_text page)) page_no.

(** What the extraction reads of an element: its text and its page. *)
Definition el_view (el : ContentElement coord) : string * Z :=
  (get_text el, page_number el).

(** ** Loops return normally *)

Lemma for_each_ok {A : Type} (body : A → M unit) (step : store → A → store) :
  (∀ x s, body x s = Ok tt (step s x)) →
  ∀ l s, for_each l body s = Ok tt (fold_left step l s).
Proof.
  intros Hbody l. induction l as [|x l IH]; intros s; simpl.
  - reflexivity.
  - unfold mbind, M_bind. rewrite Hbody. apply IH.
Qed.

Lemma date_body_ok all_text m s :
  date_body all_text m s = Ok tt (date_step all_text s m).
Proof.
  unfold date_body, date_step, first_parse, try_except, call, mbind, M_bind, mret, M_ret.
  destruct (DateTime.strptime _ DateTime.Fmt_Y_m_d); [reflexivity|].
  destruct (DateTime.strptime _ DateTime.Fmt_d_m_Y); [reflexivity|].
  destruct (DateTime.strptime _ DateTime.Fmt_d_B_Y); reflexivity.
Qed.

Lemma person_body_ok ent s : person_body ent s = Ok tt (person_step s ent).
Proof.
  unfold person_body, person_step, valid_person.
  destruct (_ && _); [|reflexivity].
  unfold mbind, M_bind, gets, modify, mret, M_ret.
  destruct (bool_decide _); reflexivity.
Qed.

Lemma letter_body_ok x s : letter_body x s = Ok tt (letter_step s x).
Proof.
  unfold letter_body, letter_step.
  destruct (is_valid_name x); reflexivity.
Qed.

Lemma clause_body_ok ref s : clause_body ref s = Ok tt (clause_step s ref).
Proof.
  unfold clause_body, clause_step, render_ref.
  unfold mbind, M_bind, gets, modify, mret, M_ret.
  destruct (bool_decide _); reflexivity.
Qed.

Lemma dates_loop_ok all_text s :
  for_each Patterns.date_patterns (fun pattern =>
    for_each (Re.finditer pattern all_text) (date_body all_text)) s
  = Ok tt (dates_phase all_text s).
Proof.
  unfold dates_phase. apply for_each_ok. intros pattern s'.
  apply for_each_ok. intros m s''. apply date_body_ok.
Qed.

Lemma bind_ok {A B : Type} (m : M A) (f : A → M B) s a s' :
  m s = Ok a s' → (m ≫= f) s = f a s'.
Proof. intros H. unfold mbind, M_bind. rewrite H. reflexivity. Qed.

Lemma doc_date_ok s :
  (match dates (metadata s) with
   | d0 :: _ => modify (fun s =>
       set_metadata (set_document_date (date d0) (metadata s)) s)
   | [] => mret tt
   end) s = Ok tt (doc_date_phase s).
Proof. unfold doc_date_phase. destruct (dates (metadata s)); reflexivity. Qed.

Lemma append_dates_ok all_text s :
  for_each (sorted (found_dates s)) (fun k =>
    modify (fun s => set_metadata (append_date (date_entry all_text k) (metadata s)) s)) s
  = Ok tt (append_dates_phase all_text s).
Proof. unfold append_dates_phase. apply for_each_ok. reflexivity. Qed.

Ltac run_step tac := erewrite bind_ok; [ | tac ].

Lemma extract_ok nlp pdf_filename s :
  extract_legal_metadata nlp pdf_filename s
  = Ok (metadata (final_store nlp pdf_filename s)) (final_store nlp pdf_filename s).
Proof.
  unfold extract_legal_metadata.
  run_step ltac:(unfold modify; reflexivity).
  run_step ltac:(unfold gets; reflexivity).
  run_step ltac:(unfold modify; reflexivity).
  run_step ltac:(apply dates_loop_ok).
  run_step ltac:(unfold gets; reflexivity).
  run_step ltac:(apply append_dates_ok).
  run_step ltac:(unfold gets; reflexivity).
  run_step ltac:(apply doc_date_ok).
  run_step ltac:(unfold modify; reflexivity).
  run_step ltac:(apply (for_each_ok _ _ person_body_ok)).
  run_step ltac:(apply (for_each_ok _ _ letter_body_ok)).
  run_step ltac:(unfold modify; reflexivity).
  run_step ltac:(apply (for_each_ok _ _ clause_body_ok)).
  reflexivity.
Qed.

(** ** What each loop leaves untouched *)

Lemma fold_left_proj {A B : Type} (f : store → B) (step : store → A → store) :
  (∀ s x, f (step s x) = f s) → ∀ l s, f (fold_left step l s) = f s.
Proof.
  intros Hstep l. induction l as [|x l IH]; intros s; simpl; [reflexivity|].
  rewrite IH. apply Hstep.
Qed.

Ltac step_proj :=
  intros;
  unfold date_step, person_step, letter_step, clause_step, doc_date_phase;
  repeat case_match; reflexivity.

Lemma dates_phase_proj {B : Type} (f : store → B) all_text :
  (∀ fd s, f (set_found_dates fd s) = f s) →
  ∀ s, f (dates_phase all_text s) = f s.
Proof.
  intros Hf s. unfold dates_phase.
  apply (fold_left_proj f). clear s. intros s pattern.
  apply (fold_left_proj f). clear s. intros s m.
  unfold date_step. case_match; [apply Hf | reflexivity].
Qed.

Lemma append_dates_phase_proj {B : Type} (f : store → B) all_text :
  (∀ md s, f (set_metadata md s) = f s) →
  ∀ s, f (append_dates_phase all_text s) = f s.
Proof.
  intros Hf s. unfold append_dates_phase.
  apply (fold_left_proj f). intros s' k. apply Hf.
Qed.

Lemma final_store_parsed_doc nlp pdf_filename s :
  parsed_doc (final_store nlp pdf_filename s) = parsed_doc s.
Proof.
  unfold final_store.
  rewrite (fold_left_proj parsed_doc) by step_proj. simpl.
  rewrite (fold_left_proj parsed_doc) by step_proj.
  rewrite (fold_left_proj parsed_doc) by step_proj. simpl.
  assert (Hd : ∀ s, parsed_doc (doc_date_phase s) = parsed_doc s) by step_proj.
  rewrite Hd, append_dates_phase_proj, dates_phase_proj by reflexivity.
  reflexivity.
Qed.

(** ** The order of the date keys *)

Lemma ascii_compare_refl (a : ascii) : Ascii.compare a a = Eq.
Proof. unfold Ascii.compare. apply N.compare_refl. Qed.

Lemma ascii_compare_lt_trans (a b c : ascii) :
  Ascii.compare a b = Lt → Ascii.compare b c = Lt → Ascii.compare a c = Lt.
Proof.
  unfold Ascii.compare. rewrite !N.compare_lt_iff. apply N.lt_trans.
Qed.

Lemma str_compare_refl (a : string) : String.compare a a = Eq.
Proof.
  induction a as [|x a IH]; simpl; [reflexivity|].
  rewrite ascii_compare_refl. exact IH.
Qed.

Lemma str_compare_eq (a b : string) : String.compare a b = Eq ↔ a = b.
Proof.
  split; [apply String.compare_eq_iff|]. intros ->. apply str_compare_refl.
Qed.

Lemma str_compare_lt_trans (a b c : string) :
  String.compare a b = Lt → String.compare b c = Lt → String.compare a c = Lt.
Proof.
  revert b c. induction a as [|x a IH]; intros [|y b] [|z c]; simpl; try congruence.
  destruct (Ascii.compare x y) eqn:Hxy; try discriminate;
    destruct (Ascii.compare y z) eqn:Hyz; try discriminate; intros Hab Hbc.
  - apply Ascii.compare_eq_iff in Hxy, Hyz. subst.
    rewrite ascii_compare_refl. eauto.
  - apply Ascii.compare_eq_iff in Hxy. subst. rewrite Hyz. reflexivity.
  - apply Ascii.compare_eq_iff in Hyz. subst. rewrite Hxy. reflexivity.
  - rewrite (ascii_compare_lt_trans _ _ _ Hxy Hyz). reflexivity.
Qed.


#[local] Instance key_le_total : Total key_le.
Proof.
  intros [[a i] j] [[b i'] j']. unfold key_le, key_leb. simpl.
  rewrite (String.compare_antisym b a).
  destruct (String.compare a b) eqn:Hc; simpl; auto.
  rewrite !orb_true_iff, !andb_true_iff, !Z.ltb_lt, !Z.eqb_eq, !Z.leb_le. lia.
Qed.

#[local] Instance key_le_trans : Transitive key_le.
Proof.
  intros [[a i] j] [[b i'] j'] [[c i''] j'']. unfold key_le, key_leb. simpl.
  destruct (String.compare a b) eqn:Hab; try discriminate;
    destruct (String.compare b c) eqn:Hbc; try discriminate.
  - apply str_compare_eq in Hab, Hbc. subst. rewrite str_compare_refl.
    rewrite !orb_true_iff, !andb_true_iff, !Z.ltb_lt, !Z.eqb_eq, !Z.leb_le. lia.
  - apply str_compare_eq in Hab. subst. rewrite Hbc. auto.
  - apply str_compare_eq in Hbc. subst. rewrite Hab. auto.
  - rewrite (str_compare_lt_trans _ _ _ Hab Hbc). auto.
Qed.

#[local] Instance key_le_antisym : AntiSymm (=) key_le.
Proof.
  intros [[a i] j] [[b i'] j']. unfold key_le, key_leb. simpl.
  rewrite (String.compare_antisym b a).
  destruct (String.compare a b) eqn:Hc; simpl; try discriminate.
  apply str_compare_eq in Hc. subst.
  rewrite !orb_true_iff, !andb_true_iff, !Z.ltb_lt, !Z.eqb_eq, !Z.leb_le.
  intros H1 H2. f_equal; [f_equal|]; lia.
Qed.

Lemma sorted_elem_of (fd : gset (string * Z * Z)) k : k ∈ sorted fd ↔ k ∈ fd.
Proof.
  unfold sorted. rewrite merge_sort_Permutation. apply elem_of_elements.
Qed.

Lemma sorted_NoDup (fd : gset (string * Z * Z)) : NoDup (sorted fd).
Proof.
  unfold sorted. rewrite merge_sort_Permutation. apply NoDup_elements.
Qed.

Lemma sorted_StronglySorted (fd : gset (string * Z * Z)) :
  StronglySorted key_le (sorted fd).
Proof. unfold sorted. apply StronglySorted_merge_sort; apply _. Qed.

Lemma sorted_head_least (fd : gset (string * Z * Z)) k ks :
  sorted fd = k :: ks → ∀ k', k' ∈ fd → key_le k k'.
Proof.
  intros Hs k' Hk'. apply sorted_elem_of in Hk'.
  pose proof (sorted_StronglySorted fd) as Hss. rewrite Hs in Hss, Hk'.
  apply StronglySorted_inv in Hss as [_ Hall].
  apply elem_of_cons in Hk' as [->|Hin].
  - destruct (total key_le k k); assumption.
  - rewrite Forall_forall in Hall. apply Hall, Hin.
Qed.

(** ** The dates *)

Lemma found_dates_fold_matches all_text ms s k :
  k ∈ found_dates (fold_left (date_step all_text) ms s) ↔
  k ∈ found_dates s ∨
  ∃ m dt, m ∈ ms ∧ first_parse (Re.group0 all_text m) = Some dt ∧ k = match_key dt m.
Proof.
  revert s. induction ms as [|m ms IH]; intros s; simpl.
  - split; [auto|]. intros [H|(m & dt & Hm & _)]; [exact H|]. inversion Hm.
  - rewrite IH. unfold date_step at 1.
    destruct (first_parse (Re.group0 all_text m)) as [dt|] eqn:Hp; simpl.
    + rewrite elem_of_union, elem_of_singleton. split.
      * intros [[->|H]|(m' & dt' & Hm' & Hp' & ->)]; [right|left|right]; eauto.
        -- exists m, dt. split; [left|]; auto.
        -- exists m', dt'. split; [right|]; auto.
      * intros [H|(m' & dt' & Hm' & Hp' & ->)]; [auto|].
        apply elem_of_cons in Hm' as [->|Hm'].
        -- left. left. congruence.
        -- right. eauto.
    + split.
      * intros [H|(m' & dt' & Hm' & Hp' & ->)]; [auto|right].
        exists m', dt'. split; [right|]; auto.
      * intros [H|(m' & dt' & Hm' & Hp' & ->)]; [auto|].
        apply elem_of_cons in Hm' as [->|Hm']; [congruence|]. right. eauto.
Qed.

Lemma found_dates_fold_patterns all_text ps s k :
  k ∈ found_dates
        (fold_left (fun s pattern =>
           fold_left (date_step all_text) (Re.finditer pattern all_text) s) ps s) ↔
  k ∈ found_dates s ∨
  ∃ pattern m dt, pattern ∈ ps ∧ m ∈ Re.finditer pattern all_text ∧
    first_parse (Re.group0 all_text m) = Some dt ∧ k = match_key dt m.
Proof.
  revert s. induction ps as [|p ps IH]; intros s; simpl.
  - split; [auto|]. intros [H|(p & m & dt & Hp & _)]; [exact H|]. inversion Hp.
  - rewrite IH, found_dates_fold_matches. split.
    + intros [[H|(m & dt & Hm & Hd & ->)]|(p' & m & dt & Hp' & Hm & Hd & ->)]; [auto|right..].
      * exists p, m, dt. split; [left|]; auto.
      * exists p', m, dt. split; [right|]; auto.
    + intros [H|(p' & m & dt & Hp' & Hm & Hd & ->)]; [auto|].
      apply elem_of_cons in Hp' as [->|Hp'].
      * left. right. eauto.
      * right. eauto 10.
Qed.

Lemma found_dates_phase all_text s k :
  k ∈ found_dates (dates_phase all_text (set_found_dates ∅ s)) ↔ date_hit all_text k.
Proof.
  unfold dates_phase, date_hit. rewrite found_dates_fold_patterns. simpl.
  split; [|auto]. intros [H|H]; [|exact H]. set_solver.
Qed.

Lemma date_of_entry all_text k : date (date_entry all_text k) = k.1.1.
Proof. destruct k as [[iso start] end_]. reflexivity. Qed.

Lemma fold_append_dates all_text ks s :
  metadata (fold_left (fun s k =>
     set_metadata (append_date (date_entry all_text k) (metadata s)) s) ks s)
  = MkMeta (document_name (metadata s)) (document_date (metadata s))
      (dates (metadata s) ++ map (date_entry all_text) ks) (references (metadata s)).
Proof.
  revert s. induction ks as [|k ks IH]; intros s; simpl.
  - rewrite app_nil_r. destruct (metadata s); reflexivity.
  - rewrite IH. simpl. rewrite <- app_assoc. reflexivity.
Qed.

(** The dates and the document date of the result. *)
Lemma final_dates_spec nlp pdf_filename s :
  ∃ fd : gset (string * Z * Z),
    (∀ k, k ∈ fd ↔ date_hit (all_text_of (parsed_doc s)) k) ∧
    dates (metadata (final_store nlp pdf_filename s))
      = map (date_entry (all_text_of (parsed_doc s))) (sorted fd) ∧
    document_date (metadata (final_store nlp pdf_filename s))
      = match sorted fd with
        | [] => "not found"
        | k :: _ => k.1.1
        end.
Proof.
  set (text := all_text_of (parsed_doc s)).
  set (s0 := set_metadata (init_metadata pdf_filename) s).
  set (s1 := dates_phase text (set_found_dates ∅ s0)).
  exists (found_dates s1). split; [intros k; apply found_dates_phase|].
  assert (Hmd : md_dates (final_store nlp pdf_filename s)
                = md_dates (doc_date_phase (append_dates_phase text s1))).
  { unfold final_store.
    rewrite (fold_left_proj md_dates) by step_proj.
    change (md_dates (set_seen_clauses ∅ ?x)) with (md_dates x).
    rewrite (fold_left_proj md_dates) by step_proj.
    rewrite (fold_left_proj md_dates) by step_proj.
    reflexivity. }
  assert (Hm1 : metadata s1 = init_metadata pdf_filename).
  { unfold s1. rewrite dates_phase_proj by reflexivity. reflexivity. }
  assert (Hm2 : metadata (append_dates_phase text s1)
                = MkMeta pdf_filename "not found"
                    (map (date_entry text) (sorted (found_dates s1))) (MkRefs [] [] [])).
  { unfold append_dates_phase. rewrite fold_append_dates, Hm1. reflexivity. }
  unfold md_dates in Hmd. injection Hmd as Hdd Hds. rewrite Hdd, Hds.
  unfold doc_date_phase. rewrite Hm2. simpl.
  destruct (sorted (found_dates s1)) as [|k ks]; simpl.
  - rewrite Hm2. auto.
  - rewrite date_of_entry. auto.
Qed.

(** ** The persons *)

Lemma filter_not_in_snoc (names : list string) (n : string) (l : list string) :
  filter (fun y => y ∉ names ++ [n]) l
  = filter (fun y => y ∉ names) (filter (fun y => y ≠ n) l).
Proof.
  rewrite list_filter_filter. apply list_filter_iff. intros y.
  rewrite not_elem_of_app, list_elem_of_singleton. tauto.
Qed.

Lemma filter_not_in_known (names : list string) (n : string) (l : list string) :
  n ∈ names →
  filter (fun y => y ∉ names) (filter (fun y => y ≠ n) l)
  = filter (fun y => y ∉ names) l.
Proof.
  intros Hn. rewrite list_filter_filter. apply list_filter_iff. intros y.
  split; [tauto|]. intros Hy. split; [exact Hy|]. intros ->. exact (Hy Hn).
Qed.

Lemma persons_fold ents s :
  (∀ y, y ∈ seen_persons s ↔ y ∈ map person_name (md_persons s)) →
  md_persons (fold_left person_step ents s)
  = md_persons s ++
    map (person_entry (parsed_doc s))
      (filter (fun y => y ∉ map person_name (md_persons s))
         (keep_first (candidates ents))).
Proof.
  revert s. induction ents as [|e ents IH]; intros s Hseen; simpl.
  - rewrite app_nil_r. reflexivity.
  - unfold person_step at 2, candidates.
    destruct (valid_person e) eqn:Hv.
    + rewrite filter_cons_True by exact Hv.
      simpl. fold (candidates ents).
      set (n := PyStr.strip (ent_text e)).
      destruct (bool_decide (n ∉ seen_persons s)) eqn:Hn.
      * apply bool_decide_eq_true in Hn.
        assert (Hn' : n ∉ map person_name (md_persons s)) by (rewrite <- Hseen; exact Hn).
        rewrite IH.
        -- unfold md_persons at 1 2. simpl.
           rewrite filter_cons_True by exact Hn'.
           change (persons (references (metadata s))) with (md_persons s).
           rewrite <- app_assoc. simpl. do 3 f_equal.
           rewrite <- filter_not_in_snoc. apply list_filter_iff. intros y.
           rewrite List.map_app. reflexivity.
        -- intros y. unfold md_persons. simpl. rewrite List.map_app. simpl.
           rewrite elem_of_union, elem_of_singleton, elem_of_app, list_elem_of_singleton.
           rewrite Hseen. unfold md_persons. tauto.
      * apply bool_decide_eq_false in Hn.
        assert (Hn' : n ∈ map person_name (md_persons s)).
        { rewrite <- Hseen. destruct (decide (n ∈ seen_persons s)); tauto. }
        rewrite IH by exact Hseen.
        rewrite filter_cons_False by tauto.
        rewrite filter_not_in_known by exact Hn'. reflexivity.
    + rewrite filter_cons_False by (rewrite Hv; discriminate).
      apply IH, Hseen.
Qed.

Lemma keep_first_elem_of (l : list string) x : x ∈ keep_first l ↔ x ∈ l.
Proof.
  induction l as [|y l IH]; simpl; [reflexivity|].
  rewrite !elem_of_cons, list_elem_of_filter, IH.
  destruct (decide (x = y)); tauto.
Qed.

Lemma keep_first_NoDup (l : list string) : NoDup (keep_first l).
Proof.
  induction l as [|y l IH]; simpl; constructor.
  - rewrite list_elem_of_filter. tauto.
  - apply NoDup_filter, IH.
Qed.

Lemma filter_not_in_nil (l : list string) : filter (fun y => y ∉ @nil string) l = l.
Proof.
  induction l as [|x l IH]; [reflexivity|].
  rewrite filter_cons_True by apply not_elem_of_nil. f_equal. exact IH.
Qed.

(** ** The letters *)

Lemma letters_fold l s :
  md_letters (fold_left letter_step l s)
  = md_letters s ++
    map (letter_entry (parsed_doc s)) (filter (fun x => is_valid_name x = true) l).
Proof.
  revert s. induction l as [|x l IH]; intros s; simpl.
  - rewrite app_nil_r. reflexivity.
  - rewrite IH. unfold letter_step. destruct (is_valid_name x) eqn:Hv.
    + rewrite filter_cons_True by exact Hv. unfold md_letters. simpl.
      rewrite <- app_assoc. reflexivity.
    + rewrite filter_cons_False by (rewrite Hv; discriminate). reflexivity.
Qed.

(** ** The store after the date phases *)

Lemma parsed_doc_after_dates pdf_filename s :
  parsed_doc (store_after_dates pdf_filename s) = parsed_doc s.
Proof.
  unfold store_after_dates.
  assert (Hd : ∀ s, parsed_doc (doc_date_phase s) = parsed_doc s) by step_proj.
  rewrite Hd, append_dates_phase_proj, dates_phase_proj by reflexivity.
  reflexivity.
Qed.

Lemma references_after_dates pdf_filename s :
  references (metadata (store_after_dates pdf_filename s)) = MkRefs [] [] [].
Proof.
  unfold store_after_dates.
  assert (Hd : ∀ s, references (metadata (doc_date_phase s)) = references (metadata s))
    by step_proj.
  rewrite Hd. unfold append_dates_phase. rewrite fold_append_dates. simpl.
  rewrite (dates_phase_proj metadata) by reflexivity. reflexivity.
Qed.

Lemma final_persons nlp pdf_filename s :
  md_persons (final_store nlp pdf_filename s)
  = map (person_entry (parsed_doc s))
      (keep_first (candidates (nlp (all_text_of (parsed_doc s))))).
Proof.
  unfold final_store. fold (store_after_dates pdf_filename s).
  rewrite (fold_left_proj md_persons) by step_proj.
  change (md_persons (set_seen_clauses ∅ ?x)) with (md_persons x).
  rewrite (fold_left_proj md_persons) by step_proj.
  assert (Hp : md_persons (set_seen_persons ∅ (store_after_dates pdf_filename s)) = []).
  { unfold md_persons. simpl. rewrite (references_after_dates pdf_filename s).
    reflexivity. }
  rewrite persons_fold.
  - rewrite Hp. simpl.
    rewrite filter_not_in_nil, parsed_doc_after_dates. reflexivity.
  - intros y. unfold md_persons. simpl. rewrite (references_after_dates pdf_filename s). simpl.
    set_solver.
Qed.

Lemma final_letters nlp pdf_filename s :
  md_letters (final_store nlp pdf_filename s)
  = map (letter_entry (parsed_doc s))
      (filter (fun x => is_valid_name x = true)
         (Re.findall1 Patterns.letter_re (all_text_of (parsed_doc s)))).
Proof.
  unfold final_store. fold (store_after_dates pdf_filename s).
  rewrite (fold_left_proj md_letters) by step_proj.
  change (md_letters (set_seen_clauses ∅ ?x)) with (md_letters x).
  rewrite letters_fold.
  rewrite (fold_left_proj md_letters), (fold_left_proj parsed_doc) by step_proj.
  unfold md_letters. simpl. rewrite (references_after_dates pdf_filename s), parsed_doc_after_dates.
  reflexivity.
Qed.

Lemma clauses_fold_resolved doc refs s :
  parsed_doc s = doc →
  Forall (clause_resolved doc) (md_clauses s) →
  Forall (clause_resolved doc) (md_clauses (fold_left clause_step refs s)).
Proof.
  revert s. induction refs as [|ref refs IH]; intros s Hdoc Hall; simpl; [exact Hall|].
  apply IH.
  - rewrite <- Hdoc. step_proj.
  - unfold clause_step. case_match; [|exact Hall].
    unfold md_clauses. simpl. apply Forall_app. split; [exact Hall|].
    constructor; [|constructor]. unfold clause_resolved. simpl. congruence.
Qed.

Lemma final_clauses_resolved nlp pdf_filename s :
  Forall (clause_resolved (parsed_doc s)) (md_clauses (final_store nlp pdf_filename s)).
Proof.
  unfold final_store. fold (store_after_dates pdf_filename s).
  apply clauses_fold_resolved.
  - simpl. rewrite !(fold_left_proj parsed_doc) by step_proj.
    simpl. apply parsed_doc_after_dates.
  - change (md_clauses (set_seen_clauses ∅ ?x)) with (md_clauses x).
    rewrite !(fold_left_proj md_clauses) by step_proj.
    unfold md_clauses. simpl. rewrite (references_after_dates pdf_filename s). constructor.
Qed.

(** ** Substrings and the page resolver *)

Lemma append_cons (c : ascii) (a b : string) :
  String c a +:+ b = String c (a +:+ b).
Proof. reflexivity. Qed.

Lemma append_empty (b : string) : "" +:+ b = b.
Proof. reflexivity. Qed.

Lemma startswith_spec (p s : string) :
  PyStr.startswith p s = true ↔ ∃ r, s = p +:+ r.
Proof.
  revert s. induction p as [|a p IH]; intros s; simpl.
  - split; [eauto|reflexivity].
  - destruct s as [|b s].
    + split; [discriminate|]. intros [r Hr]. discriminate.
    + destruct (decide (a = b)) as [->|Hne].
      * rewrite IH. split; intros [r Hr]; exists r;
          rewrite append_cons in *; congruence.
      * split; [discriminate|]. intros [r Hr]. rewrite append_cons in Hr. congruence.
Qed.

Lemma contains_spec (a s : string) :
  PyStr.contains a s = true ↔ occurs_in a s.
Proof.
  unfold occurs_in. split.
  - induction s as [|c s IH]; simpl; rewrite orb_true_iff.
    + intros [H|H]; [|discriminate].
      apply startswith_spec in H as [r Hr]. exists "", r. exact Hr.
    + intros [H|H].
      * apply startswith_spec in H as [r Hr]. exists "", r. exact Hr.
      * destruct (IH H) as (l & r & ->). exists (String c l), r. reflexivity.
  - intros (l & r & ->). induction l as [|c l IH].
    + rewrite append_empty.
      assert (H : PyStr.startswith a (a +:+ r) = true)
        by (apply startswith_spec; eauto).
      destruct (a +:+ r); simpl; rewrite H; reflexivity.
    + rewrite append_cons. simpl. rewrite IH. apply orb_true_r.
Qed.

Lemma not_contains_spec (a s : string) :
  PyStr.contains a s = false ↔ ¬ occurs_in a s.
Proof.
  rewrite <- contains_spec. destruct (PyStr.contains a s); split; congruence.
Qed.

Lemma find_page_in_first snippet (pre : list (ContentElement coord)) el post :
  (∀ e, e ∈ pre → ¬ occurs_in snippet (get_text e)) →
  occurs_in snippet (get_text el) →
  find_page_in snippet (pre ++ el :: post) = page_number el.
Proof.
  intros Hpre Hel. induction pre as [|e pre IH]; simpl.
  - apply contains_spec in Hel. rewrite Hel. reflexivity.
  - assert (He : PyStr.contains snippet (get_text e) = false).
    { apply not_contains_spec, Hpre. left. }
    rewrite He. apply IH. intros e' He'. apply Hpre. right. exact He'.
Qed.

Lemma find_page_in_none snippet (els : list (ContentElement coord)) :
  (∀ e, e ∈ els → ¬ occurs_in snippet (get_text e)) →
  find_page_in snippet els = -1.
Proof.
  intros Hels. induction els as [|e els IH]; simpl; [reflexivity|].
  assert (He : PyStr.contains snippet (get_text e) = false).
  { apply not_contains_spec, Hels. left. }
  rewrite He. apply IH. intros e' He'. apply Hels. right. exact He'.
Qed.

Lemma find_page_in_range snippet (els : list (ContentElement coord)) :
  find_page_in snippet els = -1 ∨
  ∃ el, el ∈ els ∧ page_number el = find_page_in snippet els.
Proof.
  induction els as [|e els IH]; simpl; [left; reflexivity|].
  destruct (PyStr.contains snippet (get_text e)).
  - right. exists e. split; [left|reflexivity].
  - destruct IH as [H|(el & Hel & Hp)]; [left; exact H|].
    right. exists el. split; [right; exact Hel|exact Hp].
Qed.

(** ** Page numbers of an assembled document *)

Lemma add_word_pages n (ws : list (Word coord)) acc :
  Forall (fun el => page_number el = n) acc →
  Forall (fun el => page_number el = n) (fold_left (add_word n) ws acc).
Proof.
  revert acc. induction ws as [|w ws IH]; intros acc Hacc; simpl; [exact Hacc|].
  apply IH. unfold add_word. case_match; [|exact Hacc].
  apply Forall_app. split; [exact Hacc|]. constructor; [reflexivity|constructor].
Qed.

Lemma add_table_pages n (ts : list (list (list string))) (acc : list (ContentElement coord)) :
  Forall (fun el => page_number el = n) acc →
  Forall (fun el => page_number el = n) (fold_left (add_table n) ts acc).
Proof.
  revert acc. induction ts as [|t ts IH]; intros acc Hacc; simpl; [exact Hacc|].
  apply IH. unfold add_table.
  apply Forall_app. split; [exact Hacc|]. constructor; [reflexivity|constructor].
Qed.

Lemma extract_elements_pages (page : Page coord) n :
  Forall (fun el => page_number el = n) (extract_elements_from_page page n).
Proof.
  unfold extract_elements_from_page. apply Forall_app. split.
  - apply add_table_pages, add_word_pages. constructor.
  - constructor; [reflexivity|constructor].
Qed.

Lemma parse_pages_range (pages : list (Page coord)) i acc N :
  0 ≤ i → i + Z.of_nat (length pages) = N →
  Forall (fun el => 1 ≤ page_number el ≤ N) acc →
  Forall (fun el => 1 ≤ page_number el ≤ N) (parse_pages i pages acc).
Proof.
  revert i acc. induction pages as [|page pages IH]; intros i acc Hi HN Hacc; simpl;
    [exact Hacc|].
  simpl in HN. apply IH; [lia|lia|].
  apply Forall_app. split; [exact Hacc|].
  eapply Forall_impl; [apply extract_elements_pages|].
  simpl. intros el ->. lia.
Qed.

Lemma parse_document_pages (pages : list (Page coord)) el :
  el ∈ content (parse_document pages) →
  1 ≤ page_number el ≤ Z.of_nat (length pages).
Proof.
  intros Hel.
  assert (H : Forall (fun el => 1 ≤ page_number el ≤ Z.of_nat (length pages))
                (content (parse_document pages))).
  { apply (parse_pages_range pages 0 []); [lia|lia|constructor]. }
  rewrite Forall_forall in H. apply H, Hel.
Qed.

(** ** Rendered dates and the order of the calendar *)













(** ** The result of a call *)

Lemma run_extract_final nlp parsed pdf_filename :
  run_extract nlp parsed pdf_filename
  = Ok (metadata (final_store nlp pdf_filename (init_store parsed)))
       (final_store nlp pdf_filename (init_store parsed)).
Proof. unfold run_extract. apply extract_ok. Qed.

Lemma truthy_spec (x : string) : PyStr.truthy x = true ↔ x ≠ "".
Proof. destruct x; simpl; split; congruence. Qed.

Lemma in_generic_terms (x : string) :
  x ∈ generic_terms ↔
  x ∈ ["Contractor"; "Request"; "Works"; "Milestones"; "no."; "Name"; "Company"].
Proof.
  unfold generic_terms.
  rewrite !elem_of_union, !elem_of_singleton, !elem_of_cons, elem_of_nil. tauto.
Qed.

Lemma is_valid_name_spec (name : string) :
  is_valid_name name = true ↔
  (name ∉ ["Contractor"; "Request"; "Works"; "Milestones"; "no."; "Name"; "Company"]) ∧
  PyStr.strip name ≠ "".
Proof.
  unfold is_valid_name.
  rewrite !andb_true_iff, bool_decide_eq_true, !truthy_spec, in_generic_terms.
  split; [tauto|]. intros [Hn Hs]. repeat split; try assumption.
  intros ->. apply Hs. reflexivity.
Qed.

Lemma valid_person_spec (e : Ent) :
  valid_person e = true ↔
  label_ e = "PERSON" ∧
  (ent_text e ∉ ["Contractor"; "Request"; "Works"; "Milestones"; "no."; "Name"; "Company"]) ∧
  PyStr.strip (ent_text e) ≠ "".
Proof.
  unfold valid_person.
  rewrite andb_true_iff, bool_decide_eq_true, is_valid_name_spec. tauto.
Qed.

Lemma rejected_span_skipped (e : Ent) s :
  valid_person e = false → person_body e s = Ok tt s.
Proof.
  intros Hv. rewrite person_body_ok. unfold person_step. rewrite Hv. reflexivity.
Qed.

Lemma strptime_raises (s : string) (f : DateTime.format) (e : exn) :
  DateTime.strptime s f = Raises e → e = ValueError.
Proof.
  unfold DateTime.strptime. intros H. repeat case_match; congruence.
Qed.

Lemma first_parse_spec (date_str : string) (dt : DateTime.datetime) :
  first_parse date_str = Some dt ↔
  DateTime.strptime date_str DateTime.Fmt_Y_m_d = Returns dt ∨
  (DateTime.strptime date_str DateTime.Fmt_Y_m_d = Raises ValueError ∧
   DateTime.strptime date_str DateTime.Fmt_d_m_Y = Returns dt) ∨
  (DateTime.strptime date_str DateTime.Fmt_Y_m_d = Raises ValueError ∧
   DateTime.strptime date_str DateTime.Fmt_d_m_Y = Raises ValueError ∧
   DateTime.strptime date_str DateTime.Fmt_d_B_Y = Returns dt).
Proof.
  unfold first_parse.
  destruct (DateTime.strptime date_str DateTime.Fmt_Y_m_d) as [d1|e1] eqn:E1;
    [split; [intros [= ->]; auto | intros [H|[[H _]|[H _]]]; congruence]|apply strptime_raises in E1 as ->].
  destruct (DateTime.strptime date_str DateTime.Fmt_d_m_Y) as [d2|e2] eqn:E2;
    [split; [intros [= ->]; auto | intros [H|[[_ H]|[_ [H _]]]]; congruence]|apply strptime_raises in E2 as ->].
  destruct (DateTime.strptime date_str DateTime.Fmt_d_B_Y) as [d3|e3] eqn:E3;
    [split; [intros [= ->]; auto 6 | intros [H|[[_ H]|[_ [_ H]]]]; congruence]|apply strptime_raises in E3 as ->].
  split; [discriminate|]. intros [H|[[_ H]|[_ [_ H]]]]; discriminate.
Qed.

Lemma first_parse_none (date_str : string) :
  first_parse date_str = None ↔
  DateTime.strptime date_str DateTime.Fmt_Y_m_d = Raises ValueError ∧
  DateTime.strptime date_str DateTime.Fmt_d_m_Y = Raises ValueError ∧
  DateTime.strptime date_str DateTime.Fmt_d_B_Y = Raises ValueError.
Proof.
  unfold first_parse.
  destruct (DateTime.strptime date_str DateTime.Fmt_Y_m_d) as [d1|e1] eqn:E1;
    [split; [discriminate | intros [H _]; discriminate]|apply strptime_raises in E1 as ->].
  destruct (DateTime.strptime date_str DateTime.Fmt_d_m_Y) as [d2|e2] eqn:E2;
    [split; [discriminate | intros [_ [H _]]; discriminate]|apply strptime_raises in E2 as ->].
  destruct (DateTime.strptime date_str DateTime.Fmt_d_B_Y) as [d3|e3] eqn:E3;
    [split; [discriminate | intros [_ [_ H]]; discriminate]|apply strptime_raises in E3 as ->].
  split; auto.
Qed.

Lemma parse_pages_spec (pages : list (Page coord)) (i : nat) acc :
  parse_pages (Z.of_nat i) pages acc
  = acc ++ concat (imap (fun j page =>
      extract_elements_from_page page (Z.of_nat (i + j) + 1)) pages).
Proof.
  revert i acc. induction pages as [|page pages IH]; intros i acc; simpl.
  - rewrite app_nil_r. reflexivity.
  - replace (Z.of_nat i + 1) with (Z.of_nat (S i)) by lia.
    rewrite IH, <- app_assoc. do 2 f_equal.
    + f_equal. lia.
    + f_equal. apply imap_ext. intros j page' _. simpl. f_equal. lia.
Qed.

Lemma find_page_ok (pages : list (Page coord)) snippet :
  page_ok pages (find_page snippet (parse_document pages)).
Proof.
  unfold page_ok, find_page.
  destruct (find_page_in_range snippet (content (parse_document pages)))
    as [H|(el & Hel & Hp)]; [left; exact H|].
  right. rewrite <- Hp. split; [apply parse_document_pages, Hel|eauto].
Qed.

Lemma contains_empty_text (snippet : string) :
  snippet ≠ "" → PyStr.contains snippet "" = false.
Proof. destruct snippet; [congruence|reflexivity]. Qed.

Lemma find_page_in_skips_figures snippet (els : list (ContentElement coord)) :
  snippet ≠ "" →
  find_page_in snippet els
  = find_page_in snippet (filter (fun el => is_figure el = false) els).
Proof.
  intros Hs. induction els as [|el els IH]; [reflexivity|].
  destruct el as [t p b|t h p|fn cap p].
  - rewrite filter_cons_True by reflexivity. simpl. rewrite IH. reflexivity.
  - rewrite filter_cons_True by reflexivity. simpl. rewrite IH. reflexivity.
  - rewrite filter_cons_False by (simpl; discriminate).
    cbn [find_page_in get_text]. rewrite contains_empty_text by exact Hs. exact IH.
Qed.

Lemma get_text_with_caption f (el : ContentElement coord) :
  get_text (with_caption f el) = get_text el ∧
  page_number (with_caption f el) = page_number el.
Proof. destruct el; split; reflexivity. Qed.

Lemma find_page_in_with_caption f snippet (els : list (ContentElement coord)) :
  find_page_in snippet (map (with_caption f) els) = find_page_in snippet els.
Proof.
  induction els as [|el els IH]; [reflexivity|]. simpl.
  destruct (get_text_with_caption f el) as [-> ->]. rewrite IH. reflexivity.
Qed.

Lemma map_get_text_with_caption f (els : list (ContentElement coord)) :
  map get_text (map (with_caption f) els) = map get_text els.
Proof.
  induction els as [|el els IH]; [reflexivity|]. simpl.
  destruct (get_text_with_caption f el) as [-> _]. rewrite IH. reflexivity.
Qed.

Lemma accepted_candidates (ents : list Ent) :
  candidates ents
  = map (fun e => PyStr.strip (ent_text e)) (filter accepted_span ents).
Proof.
  unfold candidates. f_equal. apply list_filter_iff. intros e.
  apply valid_person_spec.
Qed.

Lemma person_entry_names (doc : ParsedDocument coord) (l : list string) :
  map person_name (map (person_entry doc) l) = l.
Proof.
  induction l as [|x l IH]; [reflexivity|]. simpl. rewrite IH. reflexivity.
Qed.

Lemma add_word_no_figure n (ws : list (Word coord)) acc :
  Forall (fun el => is_figure el = false) acc →
  Forall (fun el => is_figure el = false) (fold_left (add_word n) ws acc).
Proof.
  revert acc. induction ws as [|w ws IH]; intros acc Hacc; simpl; [exact Hacc|].
  apply IH. unfold add_word. case_match; [|exact Hacc].
  apply Forall_app. split; [exact Hacc|]. constructor; [reflexivity|constructor].
Qed.

Lemma add_table_no_figure n (ts : list (list (list string)))
  (acc : list (ContentElement coord)) :
  Forall (fun el => is_figure el = false) acc →
  Forall (fun el => is_figure el = false) (fold_left (add_table n) ts acc).
Proof.
  revert acc. induction ts as [|t ts IH]; intros acc Hacc; simpl; [exact Hacc|].
  apply IH. unfold add_table.
  apply Forall_app. split; [exact Hacc|]. constructor; [reflexivity|constructor].
Qed.

End Engine.

Arguments Ok {coord A}.
Arguments Raise {coord A}.
Arguments returned {coord A}.
Arguments page_ok {coord}.
Arguments person_entry {coord}.
Arguments letter_entry {coord}.
Arguments clause_entry {coord}.
Arguments paragraph_of {coord}.
Arguments table_of {coord}.
Arguments figure_of {coord}.
Arguments el_view {coord}.

(** * The claims *)

(** C9. Metadata extraction only reads the parsed document: the call returns,
    and the document in the store afterwards is the one passed in, whatever
    the tagger reports; the same holds from any store. *)
Theorem extract_leaves_parsed_doc_unchanged :
  ∀ (coord : Type) (nlp : string → list Ent) (parsed : ParsedDocument coord)
    (pdf_filename : string),
    (∃ md s', run_extract nlp parsed pdf_filename = Ok md s' ∧ parsed_doc s' = parsed) ∧
    (∀ s : @store coord, ∃ md s', extract_legal_metadata nlp pdf_filename s = Ok md s' ∧
                   parsed_doc s' = parsed_doc s).
Proof.
  intros coord nlp parsed pdf_filename. split.
  - eexists _, _. split; [apply run_extract_final|].
    rewrite final_store_parsed_doc. reflexivity.
  - intros s. eexists _, _. split; [apply extract_ok|].
    apply final_store_parsed_doc.
Qed.

(** C2. The document date is the date of the first entry of the sorted,
    deduplicated dates (the entry whose key [(ISO date, start, end)] is
    least), and the sentinel ["not found"] when no date survives. *)
Theorem document_date_is_first_sorted_date :
  (∀ (coord : Type) (nlp : string → list Ent) (parsed : ParsedDocument coord)
     (pdf_filename : string),
     ∃ md s' (keys : list (string * Z * Z)),
       run_extract nlp parsed pdf_filename = Ok md s' ∧
       dates md = map (date_entry (all_text_of parsed)) keys ∧
       (∀ k, k ∈ keys ↔ date_hit (all_text_of parsed) k) ∧
       NoDup keys ∧ StronglySorted key_le keys ∧
       document_date md
         = match dates md with
           | d0 :: _ => date d0
           | [] => "not found"
           end ∧
       match keys with
       | [] => document_date md = "not found"
       | k0 :: _ =>
           document_date md = k0.1.1 ∧
           ∀ k, date_hit (all_text_of parsed) k → key_le k0 k
       end) ∧
  document_date <$> returned (run_extract no_entities
      (text_doc "signed 15 March 2023, effective 2022-01-01") "a.pdf")
    = Some "2022-01-01" ∧
  document_date <$> returned (run_extract no_entities
      (text_doc "due 2024-02-30 or 31/04/2024") "a.pdf")
    = Some "not found".
Proof.
  split; [|split; vm_compute; reflexivity].
  intros coord nlp parsed pdf_filename.
  destruct (final_dates_spec nlp pdf_filename (init_store parsed)) as (fd & Hfd & Hds & Hdd).
  change (parsed_doc (init_store parsed)) with parsed in Hfd, Hds.
  eexists _, _, (sorted fd). split; [apply run_extract_final|].
  split; [exact Hds|].
  split; [intros k; rewrite sorted_elem_of; apply Hfd|].
  split; [apply sorted_NoDup|].
  split; [apply sorted_StronglySorted|].
  rewrite Hdd, Hds.
  destruct (sorted fd) as [|k0 ks] eqn:Hs; simpl.
  - split; reflexivity.
  - rewrite date_of_entry. split; [reflexivity|]. split; [reflexivity|].
    intros k Hk. eapply sorted_head_least; [exact Hs|]. apply Hfd, Hk.
Qed.



(** C8. Each date match is parsed as ISO, then as day/month/year, then as
    day, month name and year; the first format that parses gives the ISO date
    of its entry, a match that no format parses leaves no entry, and neither
    the loop body nor the call ever raises. *)
Theorem unparseable_dates_are_dropped :
  (∀ (date_str : string) (dt : DateTime.datetime),
     first_parse date_str = Some dt ↔
     DateTime.strptime date_str DateTime.Fmt_Y_m_d = Returns dt ∨
     (DateTime.strptime date_str DateTime.Fmt_Y_m_d = Raises ValueError ∧
      DateTime.strptime date_str DateTime.Fmt_d_m_Y = Returns dt) ∨
     (DateTime.strptime date_str DateTime.Fmt_Y_m_d = Raises ValueError ∧
      DateTime.strptime date_str DateTime.Fmt_d_m_Y = Raises ValueError ∧
      DateTime.strptime date_str DateTime.Fmt_d_B_Y = Returns dt)) ∧
  (∀ (coord : Type) (all_text : string) (m : Re.match_obj) (s : @store coord),
     ∃ s', date_body all_text m s = Ok tt s' ∧
       match first_parse (Re.group0 all_text m) with
       | Some dt =>
           found_dates s' = {[ match_key dt m ]} ∪ found_dates s ∧
           metadata s' = metadata s
       | None => s' = s
       end) ∧
  (∀ (coord : Type) (nlp : string → list Ent) (parsed : ParsedDocument coord)
     (pdf_filename : string),
     ∃ md s',
       run_extract nlp parsed pdf_filename = Ok md s' ∧
       ∀ d, d ∈ dates md ↔
         ∃ pattern m dt,
           pattern ∈ Patterns.date_patterns ∧
           m ∈ Re.finditer pattern (all_text_of parsed) ∧
           first_parse (Re.group0 (all_text_of parsed) m) = Some dt ∧
           d = date_entry (all_text_of parsed) (match_key dt m)) ∧
  dates <$> returned (run_extract no_entities
      (text_doc "due 2024-02-30 or 31/04/2024") "a.pdf") = Some [].
Proof.
  split; [apply first_parse_spec|].
  split; [|split; [|vm_compute; reflexivity]].
  - intros coord all_text m s. exists (date_step all_text s m).
    split; [apply date_body_ok|]. unfold date_step.
    destruct (first_parse (Re.group0 all_text m)); [split|]; reflexivity.
  - intros coord nlp parsed pdf_filename.
    destruct (final_dates_spec nlp pdf_filename (init_store parsed))
      as (fd & Hfd & Hds & _).
    change (parsed_doc (init_store parsed)) with parsed in Hfd, Hds.
    eexists _, _. split; [apply run_extract_final|].
    intros d. rewrite Hds, list_elem_of_fmap. split.
    + intros (k & -> & Hk). apply sorted_elem_of, Hfd in Hk.
      destruct Hk as (pattern & m & dt & Hp & Hm & Hd & ->). eauto 10.
    + intros (pattern & m & dt & Hp & Hm & Hd & ->).
      exists (match_key dt m). split; [reflexivity|].
      apply sorted_elem_of, Hfd. exists pattern, m, dt. auto.
Qed.

(** C4. The page resolver returns the page of the first content element, in
    assembled order, whose text contains the fragment as an exact,
    case-sensitive substring, and -1 when no element contains it. *)
Theorem find_page_first_containing_element :
  (∀ (coord : Type) (text_snippet : string) (parsed_doc : ParsedDocument coord),
     (∀ pre el post,
        content parsed_doc = pre ++ el :: post →
        (∀ e, e ∈ pre → ¬ occurs_in text_snippet (get_text e)) →
        occurs_in text_snippet (get_text el) →
        find_page text_snippet parsed_doc = page_number el) ∧
     ((∀ e, e ∈ content parsed_doc → ¬ occurs_in text_snippet (get_text e)) →
      find_page text_snippet parsed_doc = -1)) ∧
  find_page "Clause 7" three_pages = 3 ∧
  find_page "clause 7" three_pages = -1 ∧
  find_page "Clause 8" three_pages = -1.
Proof.
  split; [|repeat split; reflexivity].
  intros coord text_snippet parsed_doc. split.
  - intros pre el post Hc Hpre Hel. unfold find_page. rewrite Hc.
    apply find_page_in_first; assumption.
  - intros Hnone. unfold find_page. apply find_page_in_none, Hnone.
Qed.

(** C7. The letter citations are not deduplicated: the entries are the
    identifiers captured by the matches of the letter pattern that pass the
    stop-list check, one entry per match and in match order, so an
    identifier cited twice is listed twice. *)
Theorem letters_listed_once_per_match :
  (∀ (coord : Type) (nlp : string → list Ent) (parsed : ParsedDocument coord)
     (pdf_filename : string),
     ∃ md s',
       run_extract nlp parsed pdf_filename = Ok md s' ∧
       letters_mentioned (references md)
       = map (letter_entry parsed)
           (filter (fun x => is_valid_name x = true)
              (Re.findall1 Patterns.letter_re (all_text_of parsed)))) ∧
  (∀ name : string,
     is_valid_name name = true ↔
     (name ∉ ["Contractor"; "Request"; "Works"; "Milestones"; "no."; "Name"; "Company"]) ∧
     PyStr.strip name ≠ "") ∧
  letters_mentioned <$> (references <$> returned (run_extract no_entities
      (text_doc "see Letter No. XYZ-123 and again letter XYZ-123, not Letter Name") "a.pdf"))
    = Some [ MkLetterRef "XYZ-123" 1; MkLetterRef "XYZ-123" 1 ].
Proof.
  split; [|split; [apply is_valid_name_spec|vm_compute; reflexivity]].
  intros coord nlp parsed pdf_filename.
  eexists _, _. split; [apply run_extract_final|].
  apply (final_letters nlp pdf_filename (init_store parsed)).
Qed.

(** C5. For a document assembled from [n] pages, whose elements carry the
    numbers 1..n in page order, every person, letter and clause reference has
    a page number that is -1 or the number of one of these pages, carried by
    an element of the document. *)
Theorem reference_pages_in_document :
  ∀ (coord : Type) (nlp : string → list Ent) (pages : list (Page coord))
    (pdf_filename : string),
    content (parse_document pages)
    = concat (imap (fun i page =>
        extract_elements_from_page page (Z.of_nat i + 1)) pages) ∧
    (∀ i page el, pages !! i = Some page →
       el ∈ extract_elements_from_page page (Z.of_nat i + 1) →
       page_number el = Z.of_nat i + 1) ∧
    ∃ md s',
      run_extract nlp (parse_document pages) pdf_filename = Ok md s' ∧
      (∀ p, p ∈ persons (references md) → page_ok pages (person_page p)) ∧
      (∀ l, l ∈ letters_mentioned (references md) → page_ok pages (letter_page l)) ∧
      (∀ c, c ∈ laws_clauses_articles_acts (references md) →
            page_ok pages (clause_page c)).
Proof.
  intros coord nlp pages pdf_filename. split; [|split].
  - unfold parse_document. simpl. apply (parse_pages_spec pages 0 []).
  - intros i page el _ Hel.
    pose proof (extract_elements_pages page (Z.of_nat i + 1)) as Hall.
    rewrite Forall_forall in Hall. apply Hall, Hel.
  - eexists _, _. split; [apply run_extract_final|]. split; [|split].
    + intros p Hp.
      change (p ∈ md_persons (final_store nlp pdf_filename (init_store (parse_document pages))))
        in Hp.
      rewrite final_persons in Hp. apply list_elem_of_fmap in Hp as (name & -> & _).
      apply find_page_ok.
    + intros l Hl.
      change (l ∈ md_letters (final_store nlp pdf_filename (init_store (parse_document pages))))
        in Hl.
      rewrite final_letters in Hl. apply list_elem_of_fmap in Hl as (name & -> & _).
      apply find_page_ok.
    + intros c Hc.
      pose proof (final_clauses_resolved nlp pdf_filename (init_store (parse_document pages)))
        as Hall.
      rewrite Forall_forall in Hall. specialize (Hall c Hc).
      unfold clause_resolved in Hall. rewrite Hall. apply find_page_ok.
Qed.

(** C6. A span labelled PERSON whose text is one of the stop-list terms, or
    is empty after trimming, adds nothing to the persons; the names of the
    other PERSON spans are trimmed and deduplicated by exact string, the
    first occurrence in tagger order being kept. *)
Theorem persons_stop_list_and_first_occurrence :
  (∀ (coord : Type) (nlp : string → list Ent) (parsed : ParsedDocument coord)
     (pdf_filename : string),
     ∃ md s',
       run_extract nlp parsed pdf_filename = Ok md s' ∧
       persons (references md)
       = map (person_entry parsed)
           (keep_first (map (fun e => PyStr.strip (ent_text e))
                            (filter accepted_span (nlp (all_text_of parsed))))) ∧
       NoDup (map person_name (persons (references md)))) ∧
  (∀ (coord : Type) (e : Ent) (s : @store coord),
     label_ e = "PERSON" →
     ent_text e ∈ ["Contractor"; "Request"; "Works"; "Milestones"; "no."; "Name"; "Company"]
     ∨ PyStr.strip (ent_text e) = "" →
     person_body e s = Ok tt s) ∧
  (∀ l : list string, NoDup (keep_first l) ∧ ∀ x, x ∈ keep_first l ↔ x ∈ l) ∧
  map person_name <$> (persons <$> (references <$> returned
      (run_extract sample_tagger (text_doc "John Smith for the Contractor") "a.pdf")))
    = Some ["John Smith"; "john smith"].
Proof.
  split; [|split; [|split; [|vm_compute; reflexivity]]].
  - intros coord nlp parsed pdf_filename.
    eexists _, _. split; [apply run_extract_final|].
    change (persons (references (metadata ?s))) with (md_persons s).
    rewrite final_persons, accepted_candidates.
    change (parsed_doc (init_store parsed)) with parsed.
    split; [reflexivity|].
    rewrite person_entry_names. apply keep_first_NoDup.
  - intros coord e s Hl Hrej. apply rejected_span_skipped.
    destruct (valid_person e) eqn:Hv; [|reflexivity].
    apply valid_person_spec in Hv as (_ & Hn & Hs). tauto.
  - intros l. split; [apply keep_first_NoDup|apply keep_first_elem_of].
Qed.

(** C10. A figure element has no text field and the page resolver reads the
    empty string for it: for a non-empty fragment the resolver's answer is
    the one it gives on the document without its figure elements, and
    neither the whole-document text nor the resolver depends on the
    captions; a figure adds only an empty string to the space-join. *)
Theorem figures_contribute_no_text :
  (∀ (coord : Type) (page : Page coord) (page_no : Z),
     ∃ els,
       extract_elements_from_page page page_no
       = els ++ [Figure ("page_" +:+ str_of_int page_no +:+ ".png")
                        (extract_caption_from_page_text (extract_text page)) page_no] ∧
       Forall (fun el => is_figure el = false) els) ∧
  (∀ (coord : Type) (el : ContentElement coord), is_figure el = true → get_text el = "") ∧
  (∀ (coord : Type) (text_snippet : string) (parsed : ParsedDocument coord),
     text_snippet ≠ "" →
     find_page text_snippet parsed
     = find_page text_snippet
         (MkParsed (filter (fun el => is_figure el = false) (content parsed)))) ∧
  (∀ (coord : Type) (f : string → string) (text_snippet : string)
     (parsed : ParsedDocument coord),
     all_text_of (MkParsed (map (with_caption f) (content parsed))) = all_text_of parsed ∧
     find_page text_snippet (MkParsed (map (with_caption f) (content parsed)))
     = find_page text_snippet parsed) ∧
  (∀ (coord : Type) (parsed : ParsedDocument coord),
     all_text_of parsed
     = PyStr.join " " (map (fun el => if is_figure el then "" else get_text el)
                           (content parsed))) ∧
  content (parse_document [captioned_page])
    = [ Paragraph "Site" 1 [tt; tt; tt; tt]; Paragraph "plan" 1 [tt; tt; tt; tt];
        Figure "page_1.png" "Figure 1: Clause 9 of 2024-01-01" 1 ] ∧
  all_text_of (parse_document [captioned_page]) = "Site plan " ∧
  find_page "Clause 9" (parse_document [captioned_page]) = -1 ∧
  returned (run_extract no_entities (parse_document [captioned_page]) "a.pdf")
    = Some (MkMeta "a.pdf" "not found" [] (MkRefs [] [] [])).
Proof.
  split; [|split; [|split; [|split; [|split; [|repeat split; vm_compute; reflexivity]]]]].
  - intros coord page page_no. eexists. split; [reflexivity|].
    apply add_table_no_figure, add_word_no_figure. constructor.
  - intros coord [t p b|t h p|fn cap p]; simpl; congruence.
  - intros coord text_snippet parsed Hne. unfold find_page. simpl.
    apply find_page_in_skips_figures, Hne.
  - intros coord f text_snippet parsed. unfold all_text_of, find_page. simpl.
    rewrite map_get_text_with_caption, find_page_in_with_caption. split; reflexivity.
  - intros coord parsed. unfold all_text_of. f_equal.
    apply map_ext. intros [t p b|t h p|fn cap p]; reflexivity.
Qed.

(** C1 (the code departs from the claim). The clause pattern captures the
    kind and the optional sub-clause but not the number, so the rendered
    reference lacks it: "Article 5" gives the reference "Article", and
    "Clause 4.2", "Clause   4.2" and "Clause 5.2" all give "Clause .2". *)
Theorem clause_reference_drops_number :
  all_text_of (parse_document [scenario_page])
    = "The contractor shall comply with Article 5 per Letter No. XYZ-123 dated 2024-01-01, as confirmed by John Smith. " ∧
  Re.findall2 Patterns.clause_re (all_text_of (parse_document [scenario_page]))
    = [("Article", "")] ∧
  references <$> returned
      (run_extract scenario_tagger (parse_document [scenario_page]) "contract.pdf")
    = Some (MkRefs [ MkLetterRef "XYZ-123" 1 ]
                   [ MkClauseRef "Article" "article" 1 ]
                   [ MkPersonRef "John Smith" (-1) ]) ∧
  laws_clauses_articles_acts <$> (references <$> returned (run_extract no_entities
      (text_doc "Clause 4.2 and Clause   4.2") "a.pdf"))
    = Some [ MkClauseRef "Clause .2" "clause" (-1) ] ∧
  laws_clauses_articles_acts <$> (references <$> returned (run_extract no_entities
      (text_doc "Clause 4.2 and Clause 5.2") "a.pdf"))
    = Some [ MkClauseRef "Clause .2" "clause" (-1) ].
Proof. repeat split; vm_compute; reflexivity. Qed.

(** * Further properties of the code *)

(** ** Strings *)

Lemma str_app_assoc (a b c : string) : (a +:+ b) +:+ c = a +:+ b +:+ c.
Proof.
  induction a as [|x a IH]; [reflexivity|].
  rewrite !append_cons, IH. reflexivity.
Qed.

Lemma str_app_nil_r (a : string) : a +:+ "" = a.
Proof.
  induction a as [|x a IH]; [reflexivity|]. rewrite append_cons, IH. reflexivity.
Qed.

Lemma str_app_length (a b : string) :
  String.length (a +:+ b) = (String.length a + String.length b)%nat.
Proof.
  induction a as [|x a IH]; [reflexivity|]. rewrite append_cons. simpl. rewrite IH.
  reflexivity.
Qed.

Lemma substring_prefix (w suf : string) :
  String.substring 0 (String.length w) (w +:+ suf) = w.
Proof.
  induction w as [|x w IH].
  - rewrite append_empty. destruct suf; reflexivity.
  - rewrite append_cons. simpl. rewrite IH. reflexivity.
Qed.

Lemma substring_middle (pre w suf : string) :
  String.substring (String.length pre) (String.length w) (pre +:+ w +:+ suf) = w.
Proof.
  induction pre as [|x pre IH].
  - rewrite append_empty. apply substring_prefix.
  - rewrite append_cons. simpl. exact IH.
Qed.

Lemma slice_middle (pre w suf : string) :
  PyStr.slice (String.length pre) (String.length pre + String.length w) (pre +:+ w +:+ suf)
  = w.
Proof.
  unfold PyStr.slice. rewrite !str_app_length.
  replace (Nat.min _ _ - String.length pre)%nat with (String.length w) by lia.
  apply substring_middle.
Qed.

(** ** The matcher finds matches only *)

Lemma exec_sound (r : Re.regex) :
  ∀ st k res, Re.exec r st k = Some res →
    ∃ st', matches r st st' ∧ k st' = Some res.
Proof.
  induction r as [|p| |r1 IH1 r2 IH2|r1 IH1 r2 IH2|r IH|n r IH]; intros st k res H.
  - exists st. split; [constructor|exact H].
  - simpl in H. destruct (Re.rest st) as [|c s'] eqn:Hr; [discriminate|].
    destruct (p c) eqn:Hp; [|discriminate].
    eexists. split; [eapply matches_chr; eassumption|exact H].
  - simpl in H. destruct (xorb _ _) eqn:Hb; [|discriminate].
    exists st. split; [constructor; exact Hb|exact H].
  - simpl in H. apply IH1 in H as (st1 & Hm1 & H). apply IH2 in H as (st2 & Hm2 & H).
    exists st2. split; [econstructor; eassumption|exact H].
  - simpl in H. destruct (Re.exec r1 st k) as [x|] eqn:H1.
    + injection H as ->. apply IH1 in H1 as (st1 & Hm1 & H1).
      exists st1. split; [apply matches_alt_l; exact Hm1|exact H1].
    + apply IH2 in H as (st2 & Hm2 & H).
      exists st2. split; [apply matches_alt_r; exact Hm2|exact H].
  - set (loop := fix loop (n : nat) (st : Re.mstate) : option Re.mstate :=
        match n with
        | O => k st
        | S n' =>
            match Re.exec r st (fun st' =>
                    if (Re.pos st <? Re.pos st')%nat then loop n' st' else None) with
            | Some x => Some x
            | None => k st
            end
        end).
    change (loop (S (String.length (Re.rest st))) st = Some res) in H.
    revert H. generalize (S (String.length (Re.rest st))). intros fuel. revert st.
    induction fuel as [|fuel IHf]; intros st H.
    + exists st. split; [apply matches_star_stop|exact H].
    + change (match Re.exec r st (fun st' =>
                      if (Re.pos st <? Re.pos st')%nat then loop fuel st' else None) with
              | Some x => Some x
              | None => k st
              end = Some res) in H.
      destruct (Re.exec r st _) as [x|] eqn:He.
      * injection H as ->. apply IH in He as (st1 & Hm1 & He).
        destruct (Re.pos st <? Re.pos st1)%nat eqn:Hlt; [|discriminate].
        apply IHf in He as (st2 & Hm2 & He).
        exists st2. split; [|exact He].
        eapply matches_star_step; [exact Hm1| |exact Hm2].
        apply Nat.ltb_lt. exact Hlt.
      * exists st. split; [apply matches_star_stop|exact H].
  - simpl in H. apply IH in H as (st1 & Hm1 & H).
    eexists. split; [apply matches_group; exact Hm1|exact H].
Qed.

Lemma seg_refl st : seg st "" st.
Proof. split; [reflexivity|]. simpl. lia. Qed.

Lemma seg_trans a w1 b w2 c : seg a w1 b → seg b w2 c → seg a (w1 +:+ w2) c.
Proof.
  intros [H1 P1] [H2 P2]. split.
  - rewrite H1, H2, str_app_assoc. reflexivity.
  - rewrite P2, P1, str_app_length. lia.
Qed.

Lemma matches_seg r st st' : matches r st st' → ∃ w, seg st w st'.
Proof.
  induction 1 as [st|p st c s' Hr Hp|st Hb|r1 r2 st st1 st2 _ [w1 H1] _ [w2 H2]
                  |r1 r2 st st' _ IH|r1 r2 st st' _ IH|r st
                  |r st st1 st2 _ [w1 H1] _ _ [w2 H2]|n r st st' _ [w IH]].
  - exists "". apply seg_refl.
  - exists (String c ""). split; simpl; [exact Hr|lia].
  - exists "". apply seg_refl.
  - exists (w1 +:+ w2). eapply seg_trans; eassumption.
  - exact IH.
  - exact IH.
  - exists "". apply seg_refl.
  - exists (w1 +:+ w2). eapply seg_trans; eassumption.
  - exists w. exact IH.
Qed.

Lemma seg_at_text text st w st' :
  at_text text st → seg st w st' →
  at_text text st' ∧ PyStr.slice (Re.pos st) (Re.pos st') text = w.
Proof.
  intros (pre & -> & Hlen) [Hr Hp]. split.
  - exists (pre +:+ w). rewrite str_app_assoc, <- Hr, str_app_length. split; [reflexivity|lia].
  - rewrite Hr, Hp, <- Hlen. apply slice_middle.
Qed.

(** *** Shapes of what a class, a literal and their repetitions read *)

Lemma matches_chr_inv p st st' :
  matches (Re.Chr p) st st' →
  ∃ c, seg st (String c "") st' ∧ p c = true ∧ Re.caps st' = Re.caps st.
Proof.
  inversion 1; subst. exists c. split; [|split; [assumption|reflexivity]].
  split; simpl; [assumption|lia].
Qed.

Lemma matches_lit_inv s st st' :
  matches (Re.Lit s) st st' → seg st s st' ∧ Re.caps st' = Re.caps st.
Proof.
  revert st. induction s as [|a s IH]; intros st H; simpl in H.
  - inversion H; subst. split; [apply seg_refl|reflexivity].
  - inversion H as [| | |? ? ? st1 ? H1 H2| | | | |]; subst.
    apply matches_chr_inv in H1 as (c & Hs & Hc & Hcaps).
    apply IH in H2 as [Hs2 Hcaps2].
    unfold Re.is_char in Hc. apply bool_decide_eq_true in Hc. subst c.
    split; [|congruence].
    change (String a s) with (String a "" +:+ s). eapply seg_trans; eassumption.
Qed.

Lemma matches_liti_inv s st st' :
  matches (Re.LitI s) st st' →
  ∃ w, seg st w st' ∧ PyStr.lower w = PyStr.lower s ∧ Re.caps st' = Re.caps st.
Proof.
  revert st. induction s as [|a s IH]; intros st H; simpl in H.
  - inversion H; subst. exists "". split; [apply seg_refl|split; reflexivity].
  - inversion H as [| | |? ? ? st1 ? H1 H2| | | | |]; subst.
    apply matches_chr_inv in H1 as (c & Hs & Hc & Hcaps).
    apply IH in H2 as (w & Hs2 & Hl & Hcaps2).
    unfold Re.is_char_i in Hc. apply bool_decide_eq_true in Hc.
    exists (String c w). split; [|split; [|congruence]].
    + change (String c w) with (String c "" +:+ w). eapply seg_trans; eassumption.
    + simpl. rewrite Hc, Hl. reflexivity.
Qed.

Lemma all_chars_app p (a b : string) :
  all_chars p a → all_chars p b → all_chars p (a +:+ b).
Proof.
  induction a as [|c a IH]; [intros _ H; exact H|].
  rewrite append_cons. simpl. intros [Hc Ha] Hb. split; [exact Hc|apply IH; assumption].
Qed.

Lemma matches_star_class_inv p st st' :
  matches (Re.Star (Re.Chr p)) st st' →
  ∃ w, seg st w st' ∧ all_chars p w ∧ Re.caps st' = Re.caps st.
Proof.
  intros H. remember (Re.Star (Re.Chr p)) as r eqn:Er.
  induction H as [| | | | | |r st|r st st1 st2 H1 _ Hlt H2 IH2|]; try discriminate.
  - exists "". split; [apply seg_refl|split; [exact I|reflexivity]].
  - injection Er as ->.
    apply matches_chr_inv in H1 as (c & Hs & Hc & Hcaps).
    destruct (IH2 eq_refl) as (w & Hs2 & Hall & Hcaps2).
    exists (String c w). split; [|split; [split; assumption|congruence]].
    change (String c w) with (String c "" +:+ w). eapply seg_trans; eassumption.
Qed.

Lemma matches_plus_class_inv p st st' :
  matches (Re.Plus (Re.Chr p)) st st' →
  ∃ c w, seg st (String c w) st' ∧ p c = true ∧ all_chars p w ∧
         Re.caps st' = Re.caps st.
Proof.
  unfold Re.Plus. inversion 1 as [| | |? ? ? st1 ? H1 H2| | | | |]; subst.
  apply matches_chr_inv in H1 as (c & Hs & Hc & Hcaps).
  apply matches_star_class_inv in H2 as (w & Hs2 & Hall & Hcaps2).
  exists c, w. split; [|split; [exact Hc|split; [exact Hall|congruence]]].
  change (String c w) with (String c "" +:+ w). eapply seg_trans; eassumption.
Qed.

Lemma matches_times_class_inv n p st st' :
  matches (Re.Times n (Re.Chr p)) st st' →
  ∃ w, seg st w st' ∧ String.length w = n ∧ all_chars p w ∧ Re.caps st' = Re.caps st.
Proof.
  revert st. induction n as [|n IH]; intros st H; simpl in H.
  - inversion H; subst. exists "". split; [apply seg_refl|]. repeat split.
  - inversion H as [| | |? ? ? st1 ? H1 H2| | | | |]; subst.
    apply matches_chr_inv in H1 as (c & Hs & Hc & Hcaps).
    apply IH in H2 as (w & Hs2 & Hl & Hall & Hcaps2).
    exists (String c w). split; [|split; [simpl; lia|split; [split; assumption|congruence]]].
    change (String c w) with (String c "" +:+ w). eapply seg_trans; eassumption.
Qed.

Lemma matches_upto_class_inv n p st st' :
  matches (Re.Upto n (Re.Chr p)) st st' →
  ∃ w, seg st w st' ∧ (String.length w ≤ n)%nat ∧ all_chars p w ∧
       Re.caps st' = Re.caps st.
Proof.
  revert st. induction n as [|n IH]; intros st H; simpl in H.
  - inversion H; subst. exists "". split; [apply seg_refl|]. repeat split. simpl. lia.
  - unfold Re.Opt in H. inversion H as [| | | |? ? ? ? Hl|? ? ? ? Hr| | |]; subst.
    + inversion Hl as [| | |? ? ? st1 ? H1 H2| | | | |]; subst.
      apply matches_chr_inv in H1 as (c & Hs & Hc & Hcaps).
      apply IH in H2 as (w & Hs2 & Hlen & Hall & Hcaps2).
      exists (String c w).
      split; [|split; [simpl; lia|split; [split; assumption|congruence]]].
      change (String c w) with (String c "" +:+ w). eapply seg_trans; eassumption.
    + inversion Hr; subst. exists "". split; [apply seg_refl|]. repeat split. simpl. lia.
Qed.

Lemma matches_repeat_class_inv lo hi p st st' :
  matches (Re.Repeat lo hi (Re.Chr p)) st st' →
  ∃ w, seg st w st' ∧ (lo ≤ String.length w ≤ lo + (hi - lo))%nat ∧ all_chars p w ∧
       Re.caps st' = Re.caps st.
Proof.
  unfold Re.Repeat. inversion 1 as [| | |? ? ? st1 ? H1 H2| | | | |]; subst.
  apply matches_times_class_inv in H1 as (w1 & Hs1 & Hl1 & Ha1 & Hc1).
  apply matches_upto_class_inv in H2 as (w2 & Hs2 & Hl2 & Ha2 & Hc2).
  exists (w1 +:+ w2). split; [eapply seg_trans; eassumption|].
  rewrite str_app_length. split; [lia|]. split; [apply all_chars_app; assumption|congruence].
Qed.

Lemma matches_bnd_inv st st' : matches Re.Bnd st st' → st' = st.
Proof. inversion 1; reflexivity. Qed.

(** *** Every reported match is a match *)

Lemma search_from_sound r s : ∀ i pv b st',
  Re.search_from r i pv s = Some (b, st') →
  ∃ skipped s0 pv0,
    s = skipped +:+ s0 ∧ b = (i + String.length skipped)%nat ∧
    matches r (Re.MState b pv0 s0 []) st'.
Proof.
  induction s as [|c s IH]; intros i pv b st' H; simpl in H.
  - destruct (Re.exec r _ Some) as [x|] eqn:He; [|discriminate].
    injection H as <- <-. apply exec_sound in He as (st1 & Hm & [= ->]).
    exists "", "", pv. split; [reflexivity|]. split; [simpl; lia|exact Hm].
  - destruct (Re.exec r _ Some) as [x|] eqn:He.
    + injection H as <- <-. apply exec_sound in He as (st1 & Hm & [= ->]).
      exists "", (String c s), pv. split; [reflexivity|]. split; [simpl; lia|exact Hm].
    + apply IH in H as (skipped & s0 & pv0 & -> & -> & Hm).
      exists (String c skipped), s0, pv0. split; [reflexivity|].
      split; [simpl; lia|exact Hm].
Qed.

Lemma scan_sound r text : ∀ fuel i pv s pre m,
  text = pre +:+ s → String.length pre = i →
  m ∈ Re.scan fuel r i pv s → is_match r text m.
Proof.
  induction fuel as [|fuel IH]; intros i pv s pre m Ht Hlen Hm; simpl in Hm.
  - inversion Hm.
  - destruct (Re.search_from r i pv s) as [[b st']|] eqn:Hs; [|inversion Hm].
    apply search_from_sound in Hs as (skipped & s0 & pv0 & -> & -> & Hmt).
    destruct (matches_seg _ _ _ Hmt) as (w & Hr & Hp). simpl in Hr, Hp.
    apply elem_of_cons in Hm as [->|Hm].
    + exists (pre +:+ skipped), s0, pv0, st'. simpl.
      rewrite str_app_assoc, str_app_length.
      split; [exact Ht|]. split; [lia|]. split; [exact Hmt|]. split; reflexivity.
    + assert (Ht' : text = (pre +:+ skipped +:+ w) +:+ Re.rest st').
      { rewrite Ht, Hr, !str_app_assoc. reflexivity. }
      assert (Hl' : String.length (pre +:+ skipped +:+ w) = Re.pos st').
      { rewrite Hp, !str_app_length. lia. }
      destruct (_ <? _)%nat.
      * eapply IH; [exact Ht'|exact Hl'|exact Hm].
      * destruct (Re.rest st') as [|c s'] eqn:Hrest; [inversion Hm|].
        eapply (IH _ _ _ ((pre +:+ skipped +:+ w) +:+ String c "")); [| |exact Hm].
        -- rewrite Ht', !str_app_assoc. reflexivity.
        -- rewrite str_app_length, Hl'. simpl. lia.
Qed.

Lemma finditer_sound r text m : m ∈ Re.finditer r text → is_match r text m.
Proof.
  unfold Re.finditer. apply (scan_sound r text _ _ _ _ ""); reflexivity.
Qed.


(** *** Inversion of the constructors *)

Lemma matches_seq_inv r1 r2 st st' :
  matches (Re.Seq r1 r2) st st' → ∃ st1, matches r1 st st1 ∧ matches r2 st1 st'.
Proof. inversion 1; subst. eauto. Qed.

Lemma matches_alt_inv r1 r2 st st' :
  matches (Re.Alt r1 r2) st st' → matches r1 st st' ∨ matches r2 st st'.
Proof. inversion 1; subst; auto. Qed.

Lemma matches_opt_inv r st st' :
  matches (Re.Opt r) st st' → matches r st st' ∨ st' = st.
Proof.
  unfold Re.Opt. intros H. apply matches_alt_inv in H as [H|H]; [left; exact H|].
  right. inversion H; reflexivity.
Qed.

Lemma matches_group_inv n r st st' :
  matches (Re.Group n r) st st' →
  ∃ st1, matches r st st1 ∧
    st' = Re.MState (Re.pos st1) (Re.prev st1) (Re.rest st1)
            ((n, (Re.pos st, Re.pos st1)) :: Re.caps st1).
Proof. inversion 1; subst. eauto. Qed.

Lemma at_text_same text st1 st2 :
  Re.pos st1 = Re.pos st2 → Re.rest st1 = Re.rest st2 → at_text text st1 → at_text text st2.
Proof. intros Hp Hr (pre & Ht & Hl). exists pre. rewrite <- Hr, <- Hp. auto. Qed.


(** *** The clause pattern *)

Lemma clause_groups text m :
  is_match Patterns.clause_re text m →
  ∃ kind sub,
    Re.group_or_empty text 1 m = kind ∧ Re.group_or_empty text 2 m = sub ∧
    kind ∈ ["Clause"; "Article"; "Act"] ∧
    (sub = "" ∨ ∃ c ds, sub = String "." (String c ds) ∧ PyStr.isdecimal c = true ∧
                        all_chars PyStr.isdecimal ds).
Proof.
  intros (pre & s & pv & st' & Ht & Hlen & Hm & He & Hc).
  set (st0 := Re.MState (Re.m_start m) pv s []) in *.
  assert (Hat0 : at_text text st0) by (exists pre; auto).
  unfold Patterns.clause_re in Hm. cbn [Re.Seqs Re.Alts] in Hm.
  apply matches_seq_inv in Hm as (st1 & Hg1 & Hm).
  apply matches_seq_inv in Hm as (st2 & Hsp & Hm).
  apply matches_seq_inv in Hm as (st3 & Hd & Hopt).
  apply matches_group_inv in Hg1 as (stK & Hk & ->).
  assert (HK : ∃ kind, kind ∈ ["Clause"; "Article"; "Act"] ∧ seg st0 kind stK ∧
                       Re.caps stK = []).
  { apply matches_alt_inv in Hk as [Hk|Hk]; [|apply matches_alt_inv in Hk as [Hk|Hk]];
      apply matches_lit_inv in Hk as [Hs Hcaps]; eexists; (split; [|split; [exact Hs|exact Hcaps]]);
      set_solver. }
  destruct HK as (kind & Hkind & Hsk & HcK).
  destruct (seg_at_text _ _ _ _ Hat0 Hsk) as [HatK Hslk].
  apply matches_plus_class_inv in Hsp as (c1 & w1 & Hs1 & _ & _ & Hc1).
  apply matches_plus_class_inv in Hd as (c2 & w2 & Hs2 & _ & _ & Hc2).
  simpl in Hc1.
  assert (Hat1 : at_text text st2).
  { eapply seg_at_text; [|exact Hs1]. eapply at_text_same; [| |exact HatK]; reflexivity. }
  destruct (seg_at_text _ _ _ _ Hat1 Hs2) as [Hat3 _].
  exists kind.
  apply matches_opt_inv in Hopt as [Hg2| ->].
  - apply matches_group_inv in Hg2 as (stX & Hx & ->).
    apply matches_seq_inv in Hx as (stD & Hdot & Hds).
    apply matches_lit_inv in Hdot as [Hsdot Hcdot].
    apply matches_plus_class_inv in Hds as (c3 & w3 & Hs3 & Hp3 & Hall3 & Hc3).
    pose proof (seg_trans _ _ _ _ _ Hsdot Hs3) as Hsub.
    destruct (seg_at_text _ _ _ _ Hat3 Hsub) as [_ Hslsub].
    exists ("." +:+ String c3 w3).
    unfold Re.group_or_empty. rewrite Hc. simpl.
    rewrite Hc3, Hcdot, Hc2, Hc1, HcK. simpl.
    split; [exact Hslk|]. split; [exact Hslsub|]. split; [exact Hkind|].
    right. exists c3, w3. auto.
  - exists "". unfold Re.group_or_empty. rewrite Hc, Hc2, Hc1, HcK. simpl.
    split; [exact Hslk|]. split; [reflexivity|]. split; [exact Hkind|]. left. reflexivity.
Qed.

(** *** The letter pattern *)

Lemma letter_group text m :
  is_match Patterns.letter_re text m →
  ∃ c w, Re.group_or_empty text 1 m = String c w ∧
         letter_char c = true ∧ all_chars letter_char w.
Proof.
  intros (pre & s & pv & st' & Ht & Hlen & Hm & He & Hc).
  set (st0 := Re.MState (Re.m_start m) pv s []) in *.
  assert (Hat0 : at_text text st0) by (exists pre; auto).
  unfold Patterns.letter_re in Hm. cbn [Re.Seqs] in Hm.
  apply matches_seq_inv in Hm as (st1 & Hl & Hm).
  apply matches_seq_inv in Hm as (st2 & Hsp & Hm).
  apply matches_seq_inv in Hm as (st3 & Hno & Hm).
  apply matches_seq_inv in Hm as (st4 & Hsp2 & Hg).
  apply matches_liti_inv in Hl as (w1 & Hs1 & _ & Hc1).
  apply matches_plus_class_inv in Hsp as (c2 & w2 & Hs2 & _ & _ & Hc2).
  assert (H3 : ∃ w3, seg st2 w3 st3 ∧ Re.caps st3 = Re.caps st2).
  { apply matches_opt_inv in Hno as [Hno| ->]; [|exists ""; split; [apply seg_refl|reflexivity]].
    apply matches_alt_inv in Hno as [Hno|Hno];
      apply matches_liti_inv in Hno as (w & Hs & _ & Hcw); eauto. }
  destruct H3 as (w3 & Hs3 & Hc3).
  apply matches_star_class_inv in Hsp2 as (w4 & Hs4 & _ & Hc4).
  apply matches_group_inv in Hg as (st5 & Hcls & ->).
  apply matches_plus_class_inv in Hcls as (c & w & Hs5 & Hpc & Hall & Hc5).
  destruct (seg_at_text _ _ _ _ Hat0 Hs1) as [Hat1 _].
  destruct (seg_at_text _ _ _ _ Hat1 Hs2) as [Hat2 _].
  destruct (seg_at_text _ _ _ _ Hat2 Hs3) as [Hat3 _].
  destruct (seg_at_text _ _ _ _ Hat3 Hs4) as [Hat4 _].
  destruct (seg_at_text _ _ _ _ Hat4 Hs5) as [_ Hsl].
  exists c, w. unfold Re.group_or_empty. rewrite Hc. simpl.
  split; [exact Hsl|]. split; assumption.
Qed.

(** ** Trimming *)

Lemma rstrip_idem (s : string) : PyStr.rstrip (PyStr.rstrip s) = PyStr.rstrip s.
Proof.
  induction s as [|c s IH]; [reflexivity|]. simpl.
  destruct (PyStr.rstrip s) as [|a r] eqn:Hr.
  - destruct (PyStr.isspace c) eqn:Hc; [reflexivity|]. simpl. rewrite Hc. reflexivity.
  - change (PyStr.rstrip (String c (String a r))) with
      (match PyStr.rstrip (String a r) with
       | EmptyString => if PyStr.isspace c then EmptyString else String c EmptyString
       | r' => String c r'
       end).
    rewrite IH. reflexivity.
Qed.

Lemma lstrip_head (s : string) :
  PyStr.lstrip s = "" ∨ ∃ c r, PyStr.lstrip s = String c r ∧ PyStr.isspace c = false.
Proof.
  induction s as [|c s IH]; [left; reflexivity|]. simpl.
  destruct (PyStr.isspace c) eqn:Hc; [exact IH|]. right. eauto.
Qed.

Lemma rstrip_head c r :
  PyStr.isspace c = false → ∃ r', PyStr.rstrip (String c r) = String c r'.
Proof.
  intros Hc. simpl. destruct (PyStr.rstrip r); [rewrite Hc|]; eauto.
Qed.

Lemma strip_head (s : string) :
  PyStr.strip s = "" ∨ ∃ c r, PyStr.strip s = String c r ∧ PyStr.isspace c = false.
Proof.
  unfold PyStr.strip. destruct (lstrip_head s) as [->|(c & r & -> & Hc)]; [left; reflexivity|].
  right. destruct (rstrip_head c r Hc) as [r' ->]. eauto.
Qed.

(** [str.strip] is idempotent. *)
Lemma strip_idem (s : string) : PyStr.strip (PyStr.strip s) = PyStr.strip s.
Proof.
  destruct (strip_head s) as [H|(c & r & H & Hc)].
  - rewrite H. reflexivity.
  - unfold PyStr.strip at 1. rewrite H. simpl PyStr.lstrip. rewrite Hc, <- H.
    unfold PyStr.strip. apply rstrip_idem.
Qed.

Lemma rstrip_snoc (w : string) (c : ascii) :
  PyStr.isspace c = false →
  PyStr.rstrip (w +:+ String c "") = w +:+ String c "".
Proof.
  intros Hc. induction w as [|a w IH].
  - rewrite append_empty. simpl. rewrite Hc. reflexivity.
  - rewrite append_cons. simpl. rewrite IH.
    destruct w; reflexivity.
Qed.

Lemma string_last (c : ascii) (w : string) :
  ∃ w' c', String c w = w' +:+ String c' "".
Proof.
  revert c. induction w as [|a w IH]; intros c.
  - exists "", c. reflexivity.
  - destruct (IH a) as (w' & c' & ->). exists (String c w'), c'. reflexivity.
Qed.

Lemma all_chars_snoc p (w : string) (c : ascii) :
  all_chars p (w +:+ String c "") → p c = true.
Proof.
  induction w as [|a w IH]; [intros [H _]; exact H|].
  rewrite append_cons. intros [_ H]. apply IH, H.
Qed.

(** A string that begins and ends with characters that are not blank is
    its own trimming. *)
Lemma strip_fixed (p : ascii → bool) (c a : ascii) (pre w : string) :
  (∀ x, p x = true → PyStr.isspace x = false) →
  PyStr.isspace c = false → all_chars p (String a w) →
  PyStr.strip (String c (pre +:+ String a w)) = String c (pre +:+ String a w).
Proof.
  intros Hp Hc Hall.
  destruct (string_last a w) as (w' & c' & Hw). rewrite Hw in *.
  unfold PyStr.strip. simpl PyStr.lstrip. rewrite Hc.
  change (String c (pre +:+ w' +:+ String c' "")) with
    (String c "" +:+ pre +:+ w' +:+ String c' "").
  rewrite <- !str_app_assoc. apply rstrip_snoc, Hp. eapply all_chars_snoc, Hall.
Qed.

Lemma strip_all_nonspace (p : ascii → bool) (c : ascii) (w : string) :
  (∀ x, p x = true → PyStr.isspace x = false) →
  all_chars p (String c w) → PyStr.strip (String c w) = String c w.
Proof.
  intros Hp [Hc Hall]. destruct w as [|a w].
  - unfold PyStr.strip. simpl. rewrite (Hp c Hc). simpl. rewrite (Hp c Hc). reflexivity.
  - apply (strip_fixed p c a "" w Hp (Hp c Hc) Hall).
Qed.

Lemma all_chars_impl (p q : ascii → bool) (w : string) :
  (∀ a, p a = true → q a = true) → all_chars p w → all_chars q w.
Proof.
  intros Hpq. induction w as [|a w IH]; [auto|]. intros [Ha Hw].
  split; [apply Hpq, Ha|apply IH, Hw].
Qed.

Lemma decimal_is_word (a : ascii) : PyStr.isdecimal a = true → PyStr.isword a = true.
Proof.
  unfold PyStr.isword, PyStr.isnumeric. intros ->. rewrite orb_true_r. reflexivity.
Qed.

Lemma letter_char_not_space (a : ascii) :
  letter_char a = true → PyStr.isspace a = false.
Proof. destruct a as [[] [] [] [] [] [] [] []]; vm_compute; congruence. Qed.

Lemma decimal_not_space (a : ascii) :
  PyStr.isdecimal a = true → PyStr.isspace a = false.
Proof.
  intros H. apply letter_char_not_space. unfold letter_char.
  rewrite (decimal_is_word a H). reflexivity.
Qed.

(** ** The clause entries *)

Section Further.
Context {coord : Type}.

Lemma keep_first_by_elem_of {A : Type} (key : A → string) (l : list A) x :
  x ∈ keep_first_by key l → x ∈ l.
Proof.
  induction l as [|y l IH]; simpl; [auto|].
  rewrite !elem_of_cons, list_elem_of_filter. intros [->|[_ H]]; auto.
Qed.

Lemma keep_first_by_keys {A : Type} (key : A → string) (l : list A) x :
  x ∈ l → key x ∈ map key (keep_first_by key l).
Proof.
  induction l as [|y l IH]; [inversion 1|]. simpl.
  rewrite !elem_of_cons. intros Hx.
  destruct (decide (key x = key y)) as [->|Hne]; [left; reflexivity|right].
  destruct Hx as [->|Hx]; [congruence|].
  apply IH in Hx. apply list_elem_of_fmap in Hx as (z & Hz & Hin).
  apply list_elem_of_fmap. exists z. split; [exact Hz|].
  apply list_elem_of_filter. split; [congruence|exact Hin].
Qed.

Lemma NoDup_map_filter {A : Type} (key : A → string) (P : A → Prop)
  `{∀ x, Decision (P x)} (l : list A) :
  NoDup (map key l) → NoDup (map key (filter P l)).
Proof.
  induction l as [|y l IH]; [auto|]. simpl. intros Hnd.
  apply NoDup_cons in Hnd as [Hy Hnd].
  destruct (decide (P y)).
  - rewrite filter_cons_True by assumption. simpl. apply NoDup_cons. split; [|auto].
    intros Hin. apply Hy. apply list_elem_of_fmap in Hin as (z & Hz & Hin).
    apply list_elem_of_filter in Hin as [_ Hin].
    apply list_elem_of_fmap. eauto.
  - rewrite filter_cons_False by assumption. auto.
Qed.

Lemma keep_first_by_NoDup {A : Type} (key : A → string) (l : list A) :
  NoDup (map key (keep_first_by key l)).
Proof.
  induction l as [|y l IH]; simpl; [constructor|].
  apply NoDup_cons. split; [|apply NoDup_map_filter, IH].
  intros Hin. apply list_elem_of_fmap in Hin as (z & Hz & Hin).
  apply list_elem_of_filter in Hin as [Hne _]. congruence.
Qed.

Lemma clauses_fold refs : ∀ s : @store coord,
  (∀ y, y ∈ seen_clauses s ↔ y ∈ map reference (md_clauses s)) →
  md_clauses (fold_left clause_step refs s)
  = md_clauses s ++
    map (clause_entry (parsed_doc s))
      (filter (fun r => render_ref r ∉ map reference (md_clauses s))
         (keep_first_by render_ref refs)).
Proof.
  induction refs as [|ref refs IH]; intros s Hseen; simpl.
  - rewrite app_nil_r. reflexivity.
  - unfold clause_step at 2.
    destruct (bool_decide (render_ref ref ∉ seen_clauses s)) eqn:Hn.
    + apply bool_decide_eq_true in Hn.
      assert (Hn' : render_ref ref ∉ map reference (md_clauses s))
        by (rewrite <- Hseen; exact Hn).
      rewrite IH.
      * unfold md_clauses at 1 2. simpl.
        rewrite filter_cons_True by exact Hn'.
        change (laws_clauses_articles_acts (references (metadata s))) with (md_clauses s).
        rewrite <- app_assoc. simpl. do 3 f_equal.
        rewrite list_filter_filter. apply list_filter_iff. intros r.
        rewrite List.map_app, not_elem_of_app. simpl.
        rewrite list_elem_of_singleton. tauto.
      * intros y. unfold md_clauses. simpl. rewrite List.map_app. simpl.
        rewrite elem_of_union, elem_of_singleton, elem_of_app, list_elem_of_singleton.
        rewrite Hseen. unfold md_clauses. tauto.
    + apply bool_decide_eq_false in Hn.
      assert (Hn' : render_ref ref ∈ map reference (md_clauses s)).
      { rewrite <- Hseen. destruct (decide (render_ref ref ∈ seen_clauses s)); tauto. }
      rewrite IH by exact Hseen.
      rewrite filter_cons_False by tauto. do 2 f_equal.
      rewrite list_filter_filter. apply list_filter_iff. intros r.
      split; [|tauto]. intros Hr. split; [exact Hr|]. intros E. apply Hr.
      rewrite E. exact Hn'.
Qed.

Lemma filter_all {A : Type} (P : A → Prop) `{∀ x, Decision (P x)} (l : list A) :
  (∀ x, P x) → filter P l = l.
Proof.
  intros HP. induction l as [|x l IH]; [reflexivity|].
  rewrite filter_cons_True by apply HP. f_equal. exact IH.
Qed.

Lemma final_clauses nlp pdf_filename (s : @store coord) :
  md_clauses (final_store nlp pdf_filename s)
  = map (clause_entry (parsed_doc s))
      (keep_first_by render_ref
         (Re.findall2 Patterns.clause_re (all_text_of (parsed_doc s)))).
Proof.
  unfold final_store. fold (store_after_dates pdf_filename s).
  set (s4 := fold_left letter_step _ _).
  assert (Hc : md_clauses (set_seen_clauses ∅ s4) = []).
  { change (md_clauses (set_seen_clauses ∅ s4)) with (md_clauses s4). unfold s4.
    rewrite !(fold_left_proj md_clauses)
      by (intros; unfold letter_step, person_step; repeat case_match; reflexivity).
    unfold md_clauses. simpl. rewrite (references_after_dates pdf_filename s). reflexivity. }
  assert (Hd : parsed_doc (set_seen_clauses ∅ s4) = parsed_doc s).
  { simpl. unfold s4.
    rewrite !(fold_left_proj parsed_doc)
      by (intros; unfold letter_step, person_step; repeat case_match; reflexivity).
    simpl. apply parsed_doc_after_dates. }
  rewrite clauses_fold.
  - rewrite Hc, Hd. simpl. f_equal. apply filter_all. intros r. apply not_elem_of_nil.
  - intros y. rewrite Hc. simpl. set_solver.
Qed.

End Further.

Lemma findall2_elem_of r text (ref : string * string) :
  ref ∈ Re.findall2 r text →
  ∃ m, is_match r text m ∧
       ref = (Re.group_or_empty text 1 m, Re.group_or_empty text 2 m).
Proof.
  unfold Re.findall2. intros H. apply list_elem_of_fmap in H as (m & -> & Hm).
  exists m. split; [apply finditer_sound, Hm|reflexivity].
Qed.

Lemma findall1_elem_of r text (x : string) :
  x ∈ Re.findall1 r text → ∃ m, is_match r text m ∧ x = Re.group_or_empty text 1 m.
Proof.
  unfold Re.findall1. intros H. apply list_elem_of_fmap in H as (m & -> & Hm).
  exists m. split; [apply finditer_sound, Hm|reflexivity].
Qed.

Lemma render_ref_shape (kind sub : string) :
  kind ∈ ["Clause"; "Article"; "Act"] →
  (sub = "" ∨ ∃ c ds, sub = String "." (String c ds) ∧ PyStr.isdecimal c = true ∧
                      all_chars PyStr.isdecimal ds) →
  PyStr.lower kind ∈ ["clause"; "article"; "act"] ∧
  (render_ref (kind, sub) = kind ∨
   ∃ c ds, PyStr.isdecimal c = true ∧ all_chars PyStr.isdecimal ds ∧
           render_ref (kind, sub) = kind +:+ " ." +:+ String c ds).
Proof.
  intros Hk Hsub.
  assert (Hlow : PyStr.lower kind ∈ ["clause"; "article"; "act"]).
  { rewrite !elem_of_cons in Hk. destruct Hk as [->|[->|[->|H]]]; [| | |inversion H];
      rewrite !elem_of_cons; simpl; auto. }
  split; [exact Hlow|].
  destruct Hsub as [->|(c & ds & -> & Hc & Hds)].
  - left. rewrite !elem_of_cons in Hk.
    destruct Hk as [->|[->|[->|H]]]; [| | |inversion H]; reflexivity.
  - right. exists c, ds. split; [exact Hc|]. split; [exact Hds|].
    unfold render_ref. cbn [fst snd PyStr.truthy].
    assert (Hall : all_chars PyStr.isdecimal (String c ds)) by (split; assumption).
    rewrite !elem_of_cons in Hk. destruct Hk as [->|[->|[->|H]]]; [| | |inversion H].
    + apply (strip_fixed PyStr.isdecimal "C" c "lause ." ds decimal_not_space eq_refl Hall).
    + apply (strip_fixed PyStr.isdecimal "A" c "rticle ." ds decimal_not_space eq_refl Hall).
    + apply (strip_fixed PyStr.isdecimal "A" c "ct ." ds decimal_not_space eq_refl Hall).
Qed.

(** X1. The clause list holds one entry for each distinct rendered
    reference, in the order in which the renderings first occur; the type
    and the page of an entry are those of the first match with its
    rendering, and every match has its rendering in the list. *)
Theorem clause_entries_first_per_reference :
  ∀ (coord : Type) (nlp : string → list Ent) (parsed : ParsedDocument coord)
    (pdf_filename : string),
    ∃ md s',
      run_extract nlp parsed pdf_filename = Ok md s' ∧
      laws_clauses_articles_acts (references md)
      = map (clause_entry parsed)
          (keep_first_by render_ref
             (Re.findall2 Patterns.clause_re (all_text_of parsed))) ∧
      NoDup (map reference (laws_clauses_articles_acts (references md))) ∧
      (∀ ref, ref ∈ Re.findall2 Patterns.clause_re (all_text_of parsed) →
         render_ref ref ∈ map reference (laws_clauses_articles_acts (references md))) ∧
      (∀ c, c ∈ laws_clauses_articles_acts (references md) →
         clause_page c = find_page (reference c) parsed).
Proof.
  intros coord nlp parsed pdf_filename.
  eexists _, _. split; [apply run_extract_final|].
  change (laws_clauses_articles_acts (references (metadata ?s))) with (md_clauses s).
  rewrite final_clauses. change (parsed_doc (init_store parsed)) with parsed.
  set (refs := Re.findall2 _ _).
  assert (Hmap : map reference (map (clause_entry parsed) (keep_first_by render_ref refs))
                 = map render_ref (keep_first_by render_ref refs)).
  { rewrite List.map_map. reflexivity. }
  split; [reflexivity|]. rewrite Hmap.
  split; [apply keep_first_by_NoDup|].
  split; [intros ref Href; apply keep_first_by_keys, Href|].
  intros c Hc. apply list_elem_of_fmap in Hc as (ref & -> & _). reflexivity.
Qed.

(** X2. Every clause entry has one of the three types "clause", "article"
    and "act", the lowercased kind, and its reference is the kind alone or
    the kind, a space, a dot and digits: the number before the dot is never
    part of it. *)
Theorem clause_entry_type_and_shape :
  ∀ (coord : Type) (nlp : string → list Ent) (parsed : ParsedDocument coord)
    (pdf_filename : string),
    ∃ md s',
      run_extract nlp parsed pdf_filename = Ok md s' ∧
      ∀ c, c ∈ laws_clauses_articles_acts (references md) →
        clause_type c ∈ ["clause"; "article"; "act"] ∧
        ∃ kind, kind ∈ ["Clause"; "Article"; "Act"] ∧
          clause_type c = PyStr.lower kind ∧
          (reference c = kind ∨
           ∃ d ds, PyStr.isdecimal d = true ∧ all_chars PyStr.isdecimal ds ∧
                   reference c = kind +:+ " ." +:+ String d ds).
Proof.
  intros coord nlp parsed pdf_filename.
  eexists _, _. split; [apply run_extract_final|].
  change (laws_clauses_articles_acts (references (metadata ?s))) with (md_clauses s).
  rewrite final_clauses. change (parsed_doc (init_store parsed)) with parsed.
  intros c Hc. apply list_elem_of_fmap in Hc as (ref & -> & Href).
  apply keep_first_by_elem_of, findall2_elem_of in Href as (m & Hm & ->).
  destruct (clause_groups _ _ Hm) as (kind & sub & -> & -> & Hk & Hsub).
  destruct (render_ref_shape kind sub Hk Hsub) as [Hlow Hshape].
  split; [exact Hlow|]. exists kind. split; [exact Hk|]. split; [reflexivity|exact Hshape].
Qed.

(** X3. Every letter entry has a non-empty name made of word characters,
    hyphens and slashes only, which is therefore its own trimming; the name
    is none of the stop-list terms, and the page is what the resolver gives
    for the name. *)
Theorem letter_names_are_identifier_tokens :
  ∀ (coord : Type) (nlp : string → list Ent) (parsed : ParsedDocument coord)
    (pdf_filename : string),
    ∃ md s',
      run_extract nlp parsed pdf_filename = Ok md s' ∧
      ∀ l, l ∈ letters_mentioned (references md) →
        letter_name l ≠ "" ∧ all_chars letter_char (letter_name l) ∧
        PyStr.strip (letter_name l) = letter_name l ∧
        (letter_name l ∉
           ["Contractor"; "Request"; "Works"; "Milestones"; "no."; "Name"; "Company"]) ∧
        letter_page l = find_page (letter_name l) parsed.
Proof.
  intros coord nlp parsed pdf_filename.
  eexists _, _. split; [apply run_extract_final|].
  change (letters_mentioned (references (metadata ?s))) with (md_letters s).
  rewrite final_letters. change (parsed_doc (init_store parsed)) with parsed.
  intros l Hl. apply list_elem_of_fmap in Hl as (x & -> & Hx).
  apply list_elem_of_filter in Hx as [Hv Hx].
  apply findall1_elem_of in Hx as (m & Hm & ->).
  destruct (letter_group _ _ Hm) as (c & w & E & Hc & Hall).
  apply is_valid_name_spec in Hv as [Hstop _].
  simpl. rewrite E in *.
  split; [discriminate|]. split; [split; assumption|].
  split; [apply (strip_all_nonspace letter_char); [apply letter_char_not_space|split; assumption]|].
  split; [exact Hstop|reflexivity].
Qed.

(** X4. A name is among the persons exactly when it is the trimmed text of
    a PERSON span whose text is not a stop-list term; every such name is
    non-empty and is its own trimming.  The stop-list is tested before
    trimming, so a blank-padded stop-list term is kept under the bare term. *)
Theorem person_names_are_trimmed_spans :
  ∀ (coord : Type) (nlp : string → list Ent) (parsed : ParsedDocument coord)
    (pdf_filename : string),
    ∃ md s',
      run_extract nlp parsed pdf_filename = Ok md s' ∧
      (∀ name, name ∈ map person_name (persons (references md)) ↔
         ∃ e, e ∈ nlp (all_text_of parsed) ∧ accepted_span e ∧
              name = PyStr.strip (ent_text e)) ∧
      (∀ p, p ∈ persons (references md) →
         person_name p ≠ "" ∧ PyStr.strip (person_name p) = person_name p ∧
         person_page p = find_page (person_name p) parsed) ∧
      (∀ e, e ∈ nlp (all_text_of parsed) → label_ e = "PERSON" →
         ent_text e = " Contractor" →
         "Contractor" ∈ map person_name (persons (references md))).
Proof.
  intros coord nlp parsed pdf_filename.
  eexists _, _. split; [apply run_extract_final|].
  change (persons (references (metadata ?s))) with (md_persons s).
  rewrite final_persons, accepted_candidates.
  change (parsed_doc (init_store parsed)) with parsed.
  rewrite person_entry_names.
  assert (Hiff : ∀ name,
    name ∈ keep_first (map (fun e => PyStr.strip (ent_text e))
                           (filter accepted_span (nlp (all_text_of parsed)))) ↔
    ∃ e, e ∈ nlp (all_text_of parsed) ∧ accepted_span e ∧ name = PyStr.strip (ent_text e)).
  { intros name. rewrite keep_first_elem_of, list_elem_of_fmap. split.
    - intros (e & -> & He). apply list_elem_of_filter in He as [Ha He]. eauto.
    - intros (e & He & Ha & ->). exists e. split; [reflexivity|].
      apply list_elem_of_filter. auto. }
  split; [exact Hiff|]. split.
  - intros p Hp. apply list_elem_of_fmap in Hp as (name & -> & Hn). simpl.
    apply Hiff in Hn as (e & _ & (_ & _ & Hne) & ->).
    split; [exact Hne|]. split; [apply strip_idem|reflexivity].
  - intros e He Hl Ht. apply Hiff. exists e. split; [exact He|].
    split; [|rewrite Ht; reflexivity].
    unfold accepted_span. rewrite Hl, Ht. split; [reflexivity|].
    split; [|vm_compute; discriminate].
    rewrite !elem_of_cons, elem_of_nil. intros H.
    repeat (destruct H as [H|H]; [discriminate|]). exact H.
Qed.

(** ** The page element builder and the assembler *)

Section Assembly.
Context {coord : Type}.

Lemma add_word_fold page_no (ws : list (Word coord)) acc :
  fold_left (add_word page_no) ws acc
  = acc ++ map (paragraph_of page_no)
             (filter (fun w => PyStr.strip (w_text w) ≠ "") ws).
Proof.
  revert acc. induction ws as [|w ws IH]; intros acc; simpl.
  - rewrite app_nil_r. reflexivity.
  - rewrite IH. unfold add_word.
    destruct (PyStr.strip (w_text w)) as [|c r] eqn:Hs.
    + rewrite filter_cons_False by (rewrite Hs; tauto). reflexivity.
    + rewrite filter_cons_True by (rewrite Hs; discriminate).
      simpl. rewrite <- app_assoc. unfold paragraph_of. rewrite Hs. reflexivity.
Qed.

Lemma add_table_fold page_no (ts : list (list (list string)))
  (acc : list (ContentElement coord)) :
  fold_left (add_table page_no) ts acc = acc ++ map (table_of page_no) ts.
Proof.
  revert acc. induction ts as [|t ts IH]; intros acc; simpl.
  - rewrite app_nil_r. reflexivity.
  - rewrite IH. unfold add_table. rewrite <- app_assoc. reflexivity.
Qed.

Lemma extract_elements_closed (page : Page coord) page_no :
  extract_elements_from_page page page_no
  = map (paragraph_of page_no)
      (filter (fun w => PyStr.strip (w_text w) ≠ "") (extract_words page))
    ++ map (table_of page_no) (extract_tables page)
    ++ [figure_of page_no page].
Proof.
  unfold extract_elements_from_page.
  rewrite add_table_fold, add_word_fold. simpl. rewrite <- app_assoc. reflexivity.
Qed.

Lemma filter_none {A : Type} (P : A → Prop) `{∀ x, Decision (P x)} (l : list A) :
  Forall (fun x => ¬ P x) l → filter P l = [].
Proof.
  induction 1 as [|x l Hx _ IH]; [reflexivity|].
  rewrite filter_cons_False by exact Hx. exact IH.
Qed.

Lemma figures_of_page (page : Page coord) page_no :
  filter (fun el => is_figure el = true) (extract_elements_from_page page page_no)
  = [figure_of page_no page].
Proof.
  rewrite extract_elements_closed, !filter_app.
  rewrite (filter_none _ (map (paragraph_of page_no) _)),
          (filter_none _ (map (table_of page_no) _)).
  - reflexivity.
  - apply Forall_forall. intros el Hel. apply list_elem_of_fmap in Hel as (t & -> & _).
    simpl. discriminate.
  - apply Forall_forall. intros el Hel. apply list_elem_of_fmap in Hel as (w & -> & _).
    simpl. discriminate.
Qed.

Lemma parse_pages_figures (pages : list (Page coord)) : ∀ i acc,
  map page_number (filter (fun el => is_figure el = true) (parse_pages i pages acc))
  = map page_number (filter (fun el => is_figure el = true) acc)
    ++ seqZ (i + 1) (Z.of_nat (length pages)).
Proof.
  induction pages as [|page pages IH]; intros i acc; simpl.
  - rewrite app_nil_r. reflexivity.
  - rewrite IH, filter_app, figures_of_page, List.map_app, <- app_assoc. f_equal.
    rewrite (seqZ_cons (i + 1)) by lia. simpl. do 2 f_equal; lia.
Qed.

Lemma constant_pages_sorted (l : list (ContentElement coord)) n :
  Forall (fun el => page_number el = n) l →
  StronglySorted Z.le (map page_number l).
Proof.
  intros Hall. induction l as [|e l IH]; simpl; constructor.
  - apply IH. eapply Forall_inv_tail, Hall.
  - apply Forall_forall. intros x Hx. apply list_elem_of_fmap in Hx as (e' & -> & He').
    rewrite Forall_forall in Hall.
    rewrite (Hall e), (Hall e'); [lia|right; exact He'|left].
Qed.

Lemma parse_pages_sorted (pages : list (Page coord)) : ∀ i acc,
  StronglySorted Z.le (map page_number acc) →
  Forall (fun el => page_number el ≤ i) acc →
  StronglySorted Z.le (map page_number (parse_pages i pages acc)).
Proof.
  induction pages as [|page pages IH]; intros i acc Hs Hle; simpl; [exact Hs|].
  pose proof (extract_elements_pages page (i + 1)) as Hp.
  apply IH.
  - rewrite List.map_app. apply StronglySorted_app_2.
    + intros x1 x2 H1 H2.
      apply list_elem_of_fmap in H1 as (e1 & -> & H1).
      apply list_elem_of_fmap in H2 as (e2 & -> & H2).
      rewrite Forall_forall in Hle, Hp. rewrite (Hp e2 H2). specialize (Hle e1 H1). lia.
    + exact Hs.
    + apply constant_pages_sorted with (n := i + 1). exact Hp.
  - apply Forall_app. split.
    + eapply Forall_impl; [exact Hle|]. simpl. intros. lia.
    + eapply Forall_impl; [exact Hp|]. simpl. intros el ->. lia.
Qed.

Lemma page_elements_in_document (pages : list (Page coord)) i page el :
  pages !! i = Some page →
  el ∈ extract_elements_from_page page (Z.of_nat i + 1) →
  el ∈ content (parse_document pages).
Proof.
  intros Hp Hel. unfold parse_document. simpl.
  change (parse_pages 0 pages []) with (parse_pages (Z.of_nat 0) pages []).
  rewrite (parse_pages_spec pages 0 []). simpl.
  apply list_elem_of_In, in_concat.
  exists (extract_elements_from_page page (Z.of_nat i + 1)).
  split; [|apply list_elem_of_In, Hel].
  apply list_elem_of_In, list_elem_of_lookup. exists i.
  rewrite list_lookup_imap, Hp. reflexivity.
Qed.

Lemma parse_pages_extends (pages : list (Page coord)) : ∀ i acc,
  ∃ more, parse_pages i pages acc = acc ++ more.
Proof.
  induction pages as [|page pages IH]; intros i acc; simpl.
  - exists []. rewrite app_nil_r. reflexivity.
  - destruct (IH (i + 1) (acc ++ extract_elements_from_page page (i + 1))) as [more ->].
    rewrite <- app_assoc. eauto.
Qed.

Lemma parse_pages_app (ps more : list (Page coord)) : ∀ i acc,
  parse_pages i (ps ++ more) acc
  = parse_pages (i + Z.of_nat (length ps)) more (parse_pages i ps acc).
Proof.
  induction ps as [|page ps IH]; intros i acc; simpl.
  - f_equal. lia.
  - rewrite IH. f_equal. lia.
Qed.

Lemma find_page_in_app snippet (l1 l2 : list (ContentElement coord)) :
  find_page_in snippet (l1 ++ l2)
  = if existsb (fun el => PyStr.contains snippet (get_text el)) l1
    then find_page_in snippet l1
    else find_page_in snippet l2.
Proof.
  induction l1 as [|e l1 IH]; simpl; [reflexivity|].
  destruct (PyStr.contains snippet (get_text e)); [reflexivity|exact IH].
Qed.

Lemma find_page_in_unfound snippet (l : list (ContentElement coord)) :
  existsb (fun el => PyStr.contains snippet (get_text el)) l = false →
  find_page_in snippet l = -1.
Proof.
  induction l as [|e l IH]; simpl; [reflexivity|].
  destruct (PyStr.contains snippet (get_text e)); [discriminate|exact IH].
Qed.

Lemma find_page_in_least snippet (els : list (ContentElement coord)) el :
  StronglySorted Z.le (map page_number els) →
  el ∈ els → occurs_in snippet (get_text el) →
  find_page_in snippet els ≤ page_number el ∧
  ∃ e0, e0 ∈ els ∧ occurs_in snippet (get_text e0) ∧
        find_page_in snippet els = page_number e0.
Proof.
  intros Hs Hel Hocc. induction els as [|e els IH]; [inversion Hel|].
  simpl in Hs. apply StronglySorted_inv in Hs as [Hs Hall]. simpl.
  destruct (PyStr.contains snippet (get_text e)) eqn:Hc.
  - split.
    + apply elem_of_cons in Hel as [->|Hel]; [lia|].
      rewrite Forall_forall in Hall. apply Hall, list_elem_of_In.
      apply in_map, list_elem_of_In, Hel.
    + exists e. split; [left|]. split; [apply contains_spec, Hc|reflexivity].
  - apply elem_of_cons in Hel as [->|Hel].
    + apply contains_spec in Hocc. congruence.
    + destruct (IH Hs Hel) as [Hle (e0 & He0 & Ho & Hp)].
      split; [exact Hle|]. exists e0. split; [right; exact He0|auto].
Qed.

Lemma join_occurs (sep x : string) (l : list string) :
  x ∈ l → occurs_in x (PyStr.join sep l).
Proof.
  induction l as [|y l IH]; [inversion 1|]. intros Hx.
  apply elem_of_cons in Hx as [->|Hx].
  - destruct l as [|z l]; simpl.
    + exists "", "". rewrite str_app_nil_r. reflexivity.
    + exists "", (sep +:+ PyStr.join sep (z :: l)). reflexivity.
  - destruct (IH Hx) as (a & b & Hab). destruct l as [|z l]; [inversion Hx|].
    change (PyStr.join sep (y :: z :: l)) with (y +:+ sep +:+ PyStr.join sep (z :: l)).
    rewrite Hab. exists (y +:+ sep +:+ a), b. rewrite !str_app_assoc. reflexivity.
Qed.

Lemma occurs_in_trans (a b c : string) : occurs_in a b → occurs_in b c → occurs_in a c.
Proof.
  intros (l1 & r1 & ->) (l2 & r2 & ->). exists (l2 +:+ l1), (r1 +:+ r2).
  rewrite !str_app_assoc. reflexivity.
Qed.

End Assembly.

(** ** Pages with cells that are [None] *)

Lemma strings_of_some (row : list string) :
  Plumber.strings_of (map Some row) = Returns row.
Proof. induction row as [|c row IH]; simpl; [reflexivity|rewrite IH; reflexivity]. Qed.

Lemma strings_of_returns (row : list (option string)) (cells : list string) :
  Plumber.strings_of row = Returns cells → row = map Some cells.
Proof.
  revert cells. induction row as [|[c|] row IH]; intros cells; simpl.
  - intros [= <-]. reflexivity.
  - destruct (Plumber.strings_of row) as [l|e]; [|discriminate].
    intros [= <-]. simpl. rewrite (IH l eq_refl). reflexivity.
  - discriminate.
Qed.

Lemma strings_of_raises (row : list (option string)) (e : exn) :
  Plumber.strings_of row = Raises e → e = TypeError.
Proof.
  induction row as [|[c|] row IH]; simpl.
  - discriminate.
  - destruct (Plumber.strings_of row) as [l|e']; [discriminate|].
    intros [= <-]. apply IH. reflexivity.
  - intros [= <-]. reflexivity.
Qed.

Lemma row_texts_some (table : list (list string)) :
  Plumber.row_texts (map (map Some) table) = Returns (map (PyStr.join " | ") table).
Proof.
  induction table as [|row table IH]; simpl; [reflexivity|].
  rewrite strings_of_some, IH. reflexivity.
Qed.

Lemma row_texts_returns (table : list (list (option string))) (texts : list string) :
  Plumber.row_texts table = Returns texts → ∀ row, row ∈ table → None ∉ row.
Proof.
  revert texts. induction table as [|r table IH]; intros texts; simpl.
  - intros _ row Hrow. inversion Hrow.
  - destruct (Plumber.strings_of r) as [cells|e] eqn:Hr; [|discriminate].
    destruct (Plumber.row_texts table) as [ts|e]; [|discriminate].
    intros _ row Hrow. apply elem_of_cons in Hrow as [->|Hrow].
    + rewrite (strings_of_returns _ _ Hr). intros Hin.
      apply list_elem_of_fmap in Hin as (c & Hc & _). discriminate.
    + eapply IH; [reflexivity|exact Hrow].
Qed.

Lemma row_texts_raises (table : list (list (option string))) (e : exn) :
  Plumber.row_texts table = Raises e → e = TypeError.
Proof.
  induction table as [|r table IH]; simpl; [discriminate|].
  destruct (Plumber.strings_of r) as [cells|e'] eqn:Hr.
  - destruct (Plumber.row_texts table) as [ts|e']; [discriminate|].
    intros [= <-]. apply IH. reflexivity.
  - intros [= <-]. eapply strings_of_raises, Hr.
Qed.

Lemma html_of_table_some (table : list (list string)) :
  Plumber.html_of_table (map (map Some) table) = html_of_table table.
Proof.
  unfold Plumber.html_of_table, html_of_table. rewrite List.map_map.
  do 3 f_equal. apply map_ext. intros row. rewrite List.map_map. reflexivity.
Qed.

Lemma some_default (row : list (option string)) :
  None ∉ row → map Some (map (default "") row) = row.
Proof.
  induction row as [|[c|] row IH]; intros Hn; simpl.
  - reflexivity.
  - rewrite IH; [reflexivity|]. intros H. apply Hn. right. exact H.
  - exfalso. apply Hn. left.
Qed.

Section PlumberPages.
Context {coord : Type}.

Lemma add_tables_some page_no (tables : list (list (list string)))
  (elements : list (ContentElement coord)) :
  Plumber.add_tables page_no elements (map (map (map Some)) tables)
  = Returns (fold_left (add_table page_no) tables elements).
Proof.
  revert elements. induction tables as [|table tables IH]; intros elements; simpl.
  - reflexivity.
  - rewrite row_texts_some, html_of_table_some, IH. reflexivity.
Qed.

Lemma add_tables_returns page_no (tables : list (list (list (option string))))
  (elements els : list (ContentElement coord)) :
  Plumber.add_tables page_no elements tables = Returns els →
  ∀ table row, table ∈ tables → row ∈ table → None ∉ row.
Proof.
  revert elements. induction tables as [|t tables IH]; intros elements; simpl.
  - intros _ table row Ht. inversion Ht.
  - destruct (Plumber.row_texts t) as [texts|e] eqn:Ht; [|discriminate].
    intros Hr table row Hin Hrow. apply elem_of_cons in Hin as [->|Hin].
    + eapply row_texts_returns; eassumption.
    + eapply IH; eassumption.
Qed.

Lemma add_tables_raises page_no (tables : list (list (list (option string))))
  (elements : list (ContentElement coord)) (e : exn) :
  Plumber.add_tables page_no elements tables = Raises e → e = TypeError.
Proof.
  revert elements. induction tables as [|t tables IH]; intros elements; simpl.
  - discriminate.
  - destruct (Plumber.row_texts t) as [texts|e'] eqn:Ht.
    + apply IH.
    + intros [= <-]. eapply row_texts_raises, Ht.
Qed.

(** On a page whose cells are all strings the builder returns what
    [extract_elements_from_page] gives. *)
Lemma plumber_elements_some (page : Page coord) page_no :
  Plumber.extract_elements_from_page (plumber_page page) page_no
  = Returns (extract_elements_from_page page page_no).
Proof.
  unfold Plumber.extract_elements_from_page, extract_elements_from_page, plumber_page.
  cbn [Plumber.extract_words Plumber.extract_tables Plumber.extract_text].
  rewrite add_tables_some. reflexivity.
Qed.

Lemma plumber_elements_returns (page : Plumber.Page coord) page_no els :
  Plumber.extract_elements_from_page page page_no = Returns els → Plumber.no_gap page.
Proof.
  unfold Plumber.extract_elements_from_page.
  destruct (Plumber.add_tables _ _ _) as [l|e] eqn:Ha; [|discriminate].
  intros _ table row. eapply add_tables_returns, Ha.
Qed.

Lemma plumber_elements_raises (page : Plumber.Page coord) page_no e :
  Plumber.extract_elements_from_page page page_no = Raises e → e = TypeError.
Proof.
  unfold Plumber.extract_elements_from_page.
  destruct (Plumber.add_tables _ _ _) as [l|e'] eqn:Ha; [discriminate|].
  intros [= <-]. eapply add_tables_raises, Ha.
Qed.

Lemma plumber_page_of (page : Plumber.Page coord) :
  Plumber.no_gap page → plumber_page (page_of_plumber page) = page.
Proof.
  destruct page as [ws ts tx]. unfold Plumber.no_gap, plumber_page, page_of_plumber.
  cbn [Plumber.extract_words Plumber.extract_tables Plumber.extract_text
       extract_words extract_tables extract_text].
  intros Hn. f_equal. rewrite <- (map_id ts) at 2. rewrite List.map_map.
  apply map_ext_in. intros table Ht. rewrite <- (map_id table) at 2. rewrite List.map_map.
  apply map_ext_in. intros row Hr. apply some_default.
  apply (Hn table row); apply list_elem_of_In; assumption.
Qed.

Lemma plumber_pages_some (pages : list (Page coord)) i acc :
  Plumber.parse_pages i (map plumber_page pages) acc
  = Returns (parse_pages i pages acc).
Proof.
  revert i acc. induction pages as [|page pages IH]; intros i acc; simpl.
  - reflexivity.
  - rewrite plumber_elements_some. apply IH.
Qed.

Lemma plumber_pages_returns (pages : list (Plumber.Page coord)) i acc els :
  Plumber.parse_pages i pages acc = Returns els →
  Forall Plumber.no_gap pages.
Proof.
  revert i acc. induction pages as [|page pages IH]; intros i acc; simpl.
  - constructor.
  - destruct (Plumber.extract_elements_from_page page (i + 1)) as [l|e] eqn:He;
      [|discriminate].
    intros Hr. constructor.
    + eapply plumber_elements_returns, He.
    + eapply IH, Hr.
Qed.

Lemma plumber_pages_raises (pages : list (Plumber.Page coord)) i acc e :
  Plumber.parse_pages i pages acc = Raises e → e = TypeError.
Proof.
  revert i acc. induction pages as [|page pages IH]; intros i acc; simpl.
  - discriminate.
  - destruct (Plumber.extract_elements_from_page page (i + 1)) as [l|e'] eqn:He.
    + apply IH.
    + intros [= <-]. eapply plumber_elements_raises, He.
Qed.

Lemma plumber_pages_of (pages : list (Plumber.Page coord)) :
  Forall Plumber.no_gap pages → map plumber_page (map page_of_plumber pages) = pages.
Proof.
  induction 1 as [|page pages Hp _ IH]; simpl; [reflexivity|].
  rewrite plumber_page_of, IH by exact Hp. reflexivity.
Qed.

(** A document that [parse_document] returns is the one assembled from the
    strings of its pages, none of which has a [None] cell. *)
Lemma plumber_document_returns (pages : list (Plumber.Page coord)) doc :
  Plumber.parse_document pages = Returns doc →
  Forall Plumber.no_gap pages ∧ doc = parse_document (map page_of_plumber pages).
Proof.
  unfold Plumber.parse_document.
  destruct (Plumber.parse_pages 0 pages []) as [els|e] eqn:Hp; [|discriminate].
  intros [= <-]. pose proof (plumber_pages_returns _ _ _ _ Hp) as Hn.
  split; [exact Hn|].
  rewrite <- (plumber_pages_of pages Hn), plumber_pages_some in Hp.
  injection Hp as <-. reflexivity.
Qed.

End PlumberPages.

(** X5. On a page whose table cells are all strings the builder returns
    the paragraphs of the words that are not blank, in the order of the
    words, then one table element per table, then exactly one figure
    element; every paragraph text is non-empty and is its own trimming.
    Every page without a [None] cell is such a page.  On a page with a
    [None] cell the builder raises [TypeError] and returns nothing. *)
Theorem page_elements_words_tables_figure :
  (∀ (coord : Type) (page : Page coord) (page_no : Z),
     Plumber.extract_elements_from_page (plumber_page page) page_no
     = Returns (extract_elements_from_page page page_no) ∧
     extract_elements_from_page page page_no
     = map (paragraph_of page_no)
         (filter (fun w => PyStr.strip (w_text w) ≠ "") (extract_words page))
       ++ map (table_of page_no) (extract_tables page)
       ++ [figure_of page_no page] ∧
     (∀ t p b, Paragraph t p b ∈ extract_elements_from_page page page_no →
        t ≠ "" ∧ PyStr.strip t = t ∧ p = page_no) ∧
     length (extract_elements_from_page page page_no)
     = (length (filter (fun w => PyStr.strip (w_text w) ≠ "") (extract_words page))
        + length (extract_tables page) + 1)%nat) ∧
  (∀ (coord : Type) (page : Plumber.Page coord),
     Plumber.no_gap page → plumber_page (page_of_plumber page) = page) ∧
  (∀ (coord : Type) (page : Plumber.Page coord) (page_no : Z) table row,
     table ∈ Plumber.extract_tables page → row ∈ table → None ∈ row →
     Plumber.extract_elements_from_page page page_no = Raises TypeError) ∧
  Plumber.extract_elements_from_page gap_page 1 = Raises TypeError ∧
  (∃ els, Plumber.extract_elements_from_page table_page 2 = Returns els ∧
          map get_text els
          = ["Schedule"; "Item | Qty" +:+ String "010" "Bolt | 4"; ""] ∧
          map page_number els = [2; 2; 2]).
Proof.
  split; [|split; [|split; [|split]]].
  - intros coord page page_no. split; [apply plumber_elements_some|].
    rewrite extract_elements_closed.
    split; [reflexivity|]. split.
    + intros t p b Hin. rewrite !elem_of_app in Hin.
      destruct Hin as [Hin|[Hin|Hin]].
      * apply list_elem_of_fmap in Hin as (w & E & Hw).
        apply list_elem_of_filter in Hw as [Hne _].
        unfold paragraph_of in E. injection E as -> -> _.
        split; [exact Hne|]. split; [apply strip_idem|reflexivity].
      * apply list_elem_of_fmap in Hin as (tb & E & _). discriminate.
      * apply list_elem_of_singleton in Hin. discriminate.
    + rewrite !length_app, !length_map. simpl. lia.
  - intros coord page. apply plumber_page_of.
  - intros coord page page_no table row Ht Hr Hn.
    destruct (Plumber.extract_elements_from_page page page_no) as [els|e] eqn:He.
    + exfalso. exact (plumber_elements_returns _ _ _ He table row Ht Hr Hn).
    + rewrite (plumber_elements_raises _ _ _ He). reflexivity.
  - vm_compute. reflexivity.
  - eexists. split; [vm_compute; reflexivity|]. split; vm_compute; reflexivity.
Qed.

(** X6. In an assembled document the figure elements, in order, carry the
    page numbers 1, 2, ..., n, one for each page, and the page numbers of
    the elements never decrease along the content list. *)
Theorem one_figure_per_page_in_page_order :
  ∀ (coord : Type) (pages : list (Page coord)),
    map page_number
      (filter (fun el => is_figure el = true) (content (parse_document pages)))
    = seqZ 1 (Z.of_nat (length pages)) ∧
    StronglySorted Z.le (map page_number (content (parse_document pages))).
Proof.
  intros coord pages. unfold parse_document. simpl. split.
  - rewrite parse_pages_figures. reflexivity.
  - apply parse_pages_sorted; constructor.
Qed.

(** X7. In an assembled document the resolver gives the least page that
    has an element containing the fragment, and a page once found stays the
    same when further pages are appended to the document. *)
Theorem find_page_earliest_and_stable :
  ∀ (coord : Type) (pages more : list (Page coord)) (text_snippet : string),
    (∀ el, el ∈ content (parse_document pages) →
       occurs_in text_snippet (get_text el) →
       1 ≤ find_page text_snippet (parse_document pages) ≤ page_number el ∧
       ∃ e0, e0 ∈ content (parse_document pages) ∧
             occurs_in text_snippet (get_text e0) ∧
             find_page text_snippet (parse_document pages) = page_number e0) ∧
    (find_page text_snippet (parse_document pages) ≠ -1 →
     find_page text_snippet (parse_document (pages ++ more))
     = find_page text_snippet (parse_document pages)).
Proof.
  intros coord pages more text_snippet. split.
  - intros el Hel Hocc.
    assert (Hs : StronglySorted Z.le (map page_number (content (parse_document pages)))).
    { unfold parse_document. simpl. apply parse_pages_sorted; constructor. }
    destruct (find_page_in_least _ _ _ Hs Hel Hocc) as [Hle (e0 & He0 & Ho & Hp)].
    pose proof (parse_document_pages _ _ He0) as Hr.
    unfold find_page. split; [lia|eauto].
  - intros Hfound. unfold find_page, parse_document in *. simpl in *.
    rewrite parse_pages_app.
    destruct (parse_pages_extends more (0 + Z.of_nat (length pages)) (parse_pages 0 pages []))
      as [extra ->].
    rewrite find_page_in_app.
    destruct (existsb _ _) eqn:He; [reflexivity|].
    apply find_page_in_unfound in He. contradiction.
Qed.

Lemma resolve_in_assembled :
  ∀ (coord : Type) (pages : list (Page coord)) (i : nat) (page : Page coord),
    pages !! i = Some page →
    (∀ w, w ∈ extract_words page → PyStr.strip (w_text w) ≠ "" →
       1 ≤ find_page (PyStr.strip (w_text w)) (parse_document pages) ≤ Z.of_nat i + 1) ∧
    (∀ table row cell, table ∈ extract_tables page → row ∈ table → cell ∈ row →
       1 ≤ find_page cell (parse_document pages) ≤ Z.of_nat i + 1).
Proof.
  intros coord pages i page Hp.
  assert (Hs : StronglySorted Z.le (map page_number (content (parse_document pages)))).
  { unfold parse_document. simpl. apply parse_pages_sorted; constructor. }
  assert (Hfound : ∀ snippet el,
    el ∈ extract_elements_from_page page (Z.of_nat i + 1) →
    occurs_in snippet (get_text el) →
    1 ≤ find_page snippet (parse_document pages) ≤ Z.of_nat i + 1).
  { intros snippet el Hel Hocc.
    pose proof (page_elements_in_document pages i page el Hp Hel) as Hin.
    destruct (find_page_in_least _ _ _ Hs Hin Hocc) as [Hle (e0 & He0 & _ & He)].
    pose proof (extract_elements_pages page (Z.of_nat i + 1)) as Hpn.
    rewrite Forall_forall in Hpn. rewrite (Hpn el Hel) in Hle.
    pose proof (parse_document_pages _ _ He0) as Hr.
    unfold find_page. lia. }
  split.
  - intros w Hw Hne. apply (Hfound _ (paragraph_of (Z.of_nat i + 1) w)).
    + rewrite extract_elements_closed, elem_of_app. left.
      apply list_elem_of_fmap. exists w. split; [reflexivity|].
      apply list_elem_of_filter. auto.
    + exists "", "". simpl. rewrite str_app_nil_r. reflexivity.
  - intros table row cell Ht Hr Hc. apply (Hfound _ (table_of (Z.of_nat i + 1) table)).
    + rewrite extract_elements_closed, !elem_of_app. right. left.
      apply list_elem_of_fmap. eauto.
    + simpl. unfold table_text.
      eapply occurs_in_trans; [apply (join_occurs " | "), Hc|].
      apply join_occurs, list_elem_of_fmap. eauto.
Qed.

(** X8. In a document that the assembler returned, every word of a page
    that is not blank, and every cell of a table of a page, is found by the
    resolver on that page or an earlier one: for the i-th page (counted from
    0) the answer lies between 1 and i+1. *)
Theorem words_and_cells_resolve :
  ∀ (coord : Type) (pages : list (Plumber.Page coord)) (doc : ParsedDocument coord)
    (i : nat) (page : Plumber.Page coord),
    Plumber.parse_document pages = Returns doc →
    pages !! i = Some page →
    (∀ w, w ∈ Plumber.extract_words page → PyStr.strip (w_text w) ≠ "" →
       1 ≤ find_page (PyStr.strip (w_text w)) doc ≤ Z.of_nat i + 1) ∧
    (∀ table row cell,
       table ∈ Plumber.extract_tables page → row ∈ table → Some cell ∈ row →
       1 ≤ find_page cell doc ≤ Z.of_nat i + 1).
Proof.
  intros coord pages doc i page Hdoc Hp.
  apply plumber_document_returns in Hdoc as [_ ->].
  assert (Hp' : map page_of_plumber pages !! i = Some (page_of_plumber page))
    by (rewrite list_lookup_fmap, Hp; reflexivity).
  destruct (resolve_in_assembled coord _ i _ Hp') as [Hw Hc].
  split; [exact Hw|].
  intros table row cell Ht Hr Hcell.
  apply (Hc (map (map (default "")) table) (map (default "") row) cell).
  - unfold page_of_plumber. cbn [extract_tables].
    apply list_elem_of_fmap. exists table. auto.
  - apply list_elem_of_fmap. exists row. auto.
  - apply list_elem_of_fmap. exists (Some cell). auto.
Qed.

Lemma words_and_cells_resolve_witness :
  Plumber.parse_document [plumber_page scenario_page; table_page]
  = Returns (parse_document [scenario_page; page_of_plumber table_page]) ∧
  [plumber_page scenario_page; table_page] !! 1%nat = Some table_page ∧
  ((∀ w, w ∈ Plumber.extract_words table_page → PyStr.strip (w_text w) ≠ "" →
      1 ≤ find_page (PyStr.strip (w_text w))
            (parse_document [scenario_page; page_of_plumber table_page])
        ≤ Z.of_nat 1 + 1) ∧
   (∀ table row cell,
      table ∈ Plumber.extract_tables table_page → row ∈ table → Some cell ∈ row →
      1 ≤ find_page cell (parse_document [scenario_page; page_of_plumber table_page])
        ≤ Z.of_nat 1 + 1)) ∧
  find_page "Qty" (parse_document [scenario_page; page_of_plumber table_page]) = 2.
Proof.
  assert (H : Plumber.parse_document [plumber_page scenario_page; table_page]
              = Returns (parse_document [scenario_page; page_of_plumber table_page]))
    by (vm_compute; reflexivity).
  split; [exact H|]. split; [reflexivity|].
  split; [|vm_compute; reflexivity].
  exact (words_and_cells_resolve unit [plumber_page scenario_page; table_page]
           (parse_document [scenario_page; page_of_plumber table_page]) 1 table_page
           H eq_refl).
Defined.

(** X17. The assembler returns exactly on the pages that have no [None]
    cell, and the document is then the one assembled from the strings of the
    pages; a [None] cell on any page makes it raise [TypeError], with no
    document returned. *)
Theorem parse_document_returns_or_raises :
  (∀ (coord : Type) (pages : list (Page coord)),
     Plumber.parse_document (map plumber_page pages) = Returns (parse_document pages)) ∧
  (∀ (coord : Type) (pages : list (Plumber.Page coord)) (doc : ParsedDocument coord),
     Plumber.parse_document pages = Returns doc →
     Forall Plumber.no_gap pages ∧ pages = map plumber_page (map page_of_plumber pages) ∧
     doc = parse_document (map page_of_plumber pages)) ∧
  (∀ (coord : Type) (pages : list (Plumber.Page coord)) page table row,
     page ∈ pages → table ∈ Plumber.extract_tables page → row ∈ table → None ∈ row →
     Plumber.parse_document pages = Raises TypeError) ∧
  Plumber.parse_document [plumber_page scenario_page; gap_page; table_page]
  = Raises TypeError.
Proof.
  split; [|split; [|split]].
  - intros coord pages. unfold Plumber.parse_document, parse_document.
    rewrite plumber_pages_some. reflexivity.
  - intros coord pages doc Hdoc.
    destruct (plumber_document_returns pages doc Hdoc) as [Hn ->].
    split; [exact Hn|]. split; [|reflexivity].
    symmetry. apply plumber_pages_of, Hn.
  - intros coord pages page table row Hp Ht Hr Hnone.
    destruct (Plumber.parse_document pages) as [doc|e] eqn:Hd.
    + exfalso. apply plumber_document_returns in Hd as [Hn _].
      rewrite Forall_forall in Hn. exact (Hn page Hp table row Ht Hr Hnone).
    + unfold Plumber.parse_document in Hd.
      destruct (Plumber.parse_pages 0 pages []) as [els|e'] eqn:Hpp; [discriminate|].
      injection Hd as <-. rewrite (plumber_pages_raises _ _ _ _ Hpp). reflexivity.
  - vm_compute. reflexivity.
Qed.

(** ** The date entries *)





(** ** Texts without digits *)

Lemma seg_head_in_text text st c w st' :
  at_text text st → seg st (String c w) st' → ∃ a b, text = a +:+ String c b.
Proof.
  intros (pre & -> & _) [Hr _]. rewrite Hr, append_cons. eauto.
Qed.

Lemma date_pattern_needs_digit pattern text m :
  pattern ∈ Patterns.date_patterns → is_match pattern text m → has_digit text.
Proof.
  intros Hp (pre & s & pv & st' & Ht & Hlen & Hm & _).
  set (st0 := Re.MState (Re.m_start m) pv s []) in *.
  assert (Hat0 : at_text text st0) by (exists pre; auto).
  assert (Hshape : ∃ lo hi r, (1 ≤ lo)%nat ∧
            pattern = Re.Seq Re.Bnd (Re.Seq (Re.Repeat lo hi Patterns.d) r)).
  { unfold Patterns.date_patterns in Hp. rewrite !elem_of_cons, elem_of_nil in Hp.
    destruct Hp as [->|[->|[->|[]]]]; eexists _, _, _; (split; [|reflexivity]); lia. }
  destruct Hshape as (lo & hi & r & Hlo & ->).
  apply matches_seq_inv in Hm as (st1 & Hb & Hm). apply matches_bnd_inv in Hb. subst st1.
  apply matches_seq_inv in Hm as (st2 & Hrep & _).
  apply matches_repeat_class_inv in Hrep as (w & Hs & [Hl _] & Hall & _).
  destruct w as [|c w]; [simpl in Hl; lia|].
  destruct (seg_head_in_text _ _ _ _ _ Hat0 Hs) as (a & b & E).
  exists a, c, b. split; [exact E|apply Hall].
Qed.

Lemma clause_needs_digit text m :
  is_match Patterns.clause_re text m → has_digit text.
Proof.
  intros (pre & s & pv & st' & Ht & Hlen & Hm & _).
  set (st0 := Re.MState (Re.m_start m) pv s []) in *.
  assert (Hat0 : at_text text st0) by (exists pre; auto).
  unfold Patterns.clause_re in Hm. cbn [Re.Seqs Re.Alts] in Hm.
  apply matches_seq_inv in Hm as (st1 & Hg1 & Hm).
  apply matches_seq_inv in Hm as (st2 & Hsp & Hm).
  apply matches_seq_inv in Hm as (st3 & Hd & _).
  destruct (matches_seg _ _ _ Hg1) as (w1 & Hs1).
  destruct (matches_seg _ _ _ Hsp) as (w2 & Hs2).
  apply matches_plus_class_inv in Hd as (c & w & Hs3 & Hc & _).
  destruct (seg_at_text _ _ _ _ Hat0 Hs1) as [Hat1 _].
  destruct (seg_at_text _ _ _ _ Hat1 Hs2) as [Hat2 _].
  destruct (seg_head_in_text _ _ _ _ _ Hat2 Hs3) as (a & b & E).
  exists a, c, b. auto.
Qed.

Lemma no_elements {A : Type} (l : list A) : (∀ x, x ∉ l) → l = [].
Proof. destruct l as [|x l]; [reflexivity|]. intros H. destruct (H x). left. Qed.

(** X10. When the document text holds no decimal digit, the extraction
    finds no date and no clause reference, and the document date is the
    sentinel, whatever the tagger reports. *)
Theorem no_digits_no_dates_no_clauses :
  ∀ (coord : Type) (nlp : string → list Ent) (parsed : ParsedDocument coord)
    (pdf_filename : string),
    ¬ has_digit (all_text_of parsed) →
    ∃ md s',
      run_extract nlp parsed pdf_filename = Ok md s' ∧
      dates md = [] ∧ document_date md = "not found" ∧
      laws_clauses_articles_acts (references md) = [].
Proof.
  intros coord nlp parsed pdf_filename Hno.
  destruct (final_dates_spec nlp pdf_filename (init_store parsed)) as (fd & Hfd & Hds & Hdd).
  change (parsed_doc (init_store parsed)) with parsed in Hfd, Hds.
  eexists _, _. split; [apply run_extract_final|].
  assert (Hs : sorted fd = []).
  { apply no_elements. intros k Hk.
    apply sorted_elem_of, Hfd in Hk as (pattern & m & dt & Hp & Hm & _).
    apply Hno. eapply date_pattern_needs_digit; [exact Hp|apply finditer_sound, Hm]. }
  rewrite Hds, Hdd, Hs. split; [reflexivity|]. split; [reflexivity|].
  change (laws_clauses_articles_acts (references (metadata ?s))) with (md_clauses s).
  rewrite final_clauses. change (parsed_doc (init_store parsed)) with parsed.
  rewrite (no_elements (Re.findall2 Patterns.clause_re (all_text_of parsed))); [reflexivity|].
  intros ref Href. apply findall2_elem_of in Href as (m & Hm & _).
  apply Hno. eapply clause_needs_digit, Hm.
Qed.

Lemma digit_free_text (text : string) :
  all_chars (fun c => negb (PyStr.isdecimal c)) text → ¬ has_digit text.
Proof.
  induction text as [|c0 text IH]; intros Hall (a & c & b & E & Hc).
  - destruct a; discriminate.
  - destruct Hall as [H0 Hall]. destruct a as [|a0 a].
    + rewrite append_empty in E. injection E as -> _. rewrite Hc in H0. discriminate.
    + rewrite append_cons in E. injection E as _ E. apply IH; [exact Hall|].
      exists a, c, b. auto.
Qed.

Lemma no_digits_no_dates_no_clauses_witness :
  ¬ has_digit (all_text_of (text_doc "Letter No. AB/C signed by Jane Roe")) ∧
  ∃ md s',
    run_extract sample_tagger (text_doc "Letter No. AB/C signed by Jane Roe") "a.pdf"
      = Ok md s' ∧
    dates md = [] ∧ document_date md = "not found" ∧
    laws_clauses_articles_acts (references md) = [].
Proof.
  assert (H : ¬ has_digit (all_text_of (text_doc "Letter No. AB/C signed by Jane Roe"))).
  { apply digit_free_text. vm_compute. tauto. }
  split; [exact H|].
  exact (no_digits_no_dates_no_clauses unit sample_tagger
           (text_doc "Letter No. AB/C signed by Jane Roe") "a.pdf" H).
Defined.

(** ** What the result depends on *)

Lemma find_page_in_view {c1 c2 : Type} snippet
  (l1 : list (ContentElement c1)) (l2 : list (ContentElement c2)) :
  map el_view l1 = map el_view l2 →
  find_page_in snippet l1 = find_page_in snippet l2.
Proof.
  revert l2. induction l1 as [|e1 l1 IH]; intros [|e2 l2] H; try discriminate;
    [reflexivity|].
  simpl in H. unfold el_view in H at 1 3. injection H as Ht Hp Hl.
  simpl. rewrite Ht, Hp, (IH l2 Hl). reflexivity.
Qed.

Lemma all_text_view {c1 c2 : Type}
  (d1 : ParsedDocument c1) (d2 : ParsedDocument c2) :
  map el_view (content d1) = map el_view (content d2) →
  all_text_of d1 = all_text_of d2.
Proof.
  intros H. unfold all_text_of. f_equal.
  assert (E : ∀ c (l : list (ContentElement c)), map get_text l = map fst (map el_view l)).
  { intros c l. rewrite List.map_map. reflexivity. }
  rewrite !E, H. reflexivity.
Qed.

Lemma final_document_name {coord : Type} nlp pdf_filename (s : @store coord) :
  document_name (metadata (final_store nlp pdf_filename s)) = pdf_filename.
Proof.
  unfold final_store. fold (store_after_dates pdf_filename s).
  set (f := fun s : @store coord => document_name (metadata s)).
  change (f (fold_left clause_step
               (Re.findall2 Patterns.clause_re (all_text_of (parsed_doc s)))
               (set_seen_clauses ∅
                  (fold_left letter_step
                     (Re.findall1 Patterns.letter_re (all_text_of (parsed_doc s)))
                     (fold_left person_step (nlp (all_text_of (parsed_doc s)))
                        (set_seen_persons ∅ (store_after_dates pdf_filename s))))))
          = pdf_filename).
  rewrite (fold_left_proj f)
    by (intros; unfold f, clause_step; repeat case_match; reflexivity).
  change (f (set_seen_clauses ∅ ?x)) with (f x).
  rewrite (fold_left_proj f)
    by (intros; unfold f, letter_step; repeat case_match; reflexivity).
  rewrite (fold_left_proj f)
    by (intros; unfold f, person_step; repeat case_match; reflexivity).
  unfold f, store_after_dates.
  assert (Hd : ∀ s : @store coord,
    document_name (metadata (doc_date_phase s)) = document_name (metadata s)).
  { intros s0. unfold doc_date_phase. destruct (dates (metadata s0)); reflexivity. }
  cbv zeta. change (metadata (set_seen_persons ∅ ?x)) with (metadata x).
  rewrite Hd. unfold append_dates_phase. rewrite fold_append_dates. simpl.
  rewrite (dates_phase_proj metadata) by reflexivity. reflexivity.
Qed.

Lemma metadata_eta (md : LegalMetadata) :
  md = MkMeta (document_name md) (document_date md) (dates md)
         (MkRefs (letters_mentioned (references md))
                 (laws_clauses_articles_acts (references md))
                 (persons (references md))).
Proof. destruct md as [n dd ds [l c p]]. reflexivity. Qed.

Lemma final_dates_determined {c1 c2 : Type} nlp1 nlp2 name1 name2
  (s1 : @store c1) (s2 : @store c2) :
  all_text_of (parsed_doc s1) = all_text_of (parsed_doc s2) →
  dates (metadata (final_store nlp1 name1 s1)) = dates (metadata (final_store nlp2 name2 s2)) ∧
  document_date (metadata (final_store nlp1 name1 s1))
  = document_date (metadata (final_store nlp2 name2 s2)).
Proof.
  intros Ht.
  destruct (final_dates_spec nlp1 name1 s1) as (fd1 & H1 & Hd1 & Hdd1).
  destruct (final_dates_spec nlp2 name2 s2) as (fd2 & H2 & Hd2 & Hdd2).
  assert (E : fd1 = fd2).
  { apply set_eq. intros k. rewrite H1, H2, Ht. reflexivity. }
  subst fd2. rewrite Hd1, Hd2, Hdd1, Hdd2, Ht. split; reflexivity.
Qed.

(** X11. The result depends on the parsed document only through the texts
    and page numbers of its elements, in order: two documents that agree on
    these give the same metadata, whatever their bounding boxes, HTML
    renderings, image file names and captions are. *)
Theorem metadata_depends_on_text_and_pages :
  ∀ (c1 c2 : Type) (nlp : string → list Ent)
    (d1 : ParsedDocument c1) (d2 : ParsedDocument c2) (pdf_filename : string),
    map el_view (content d1) = map el_view (content d2) →
    returned (run_extract nlp d1 pdf_filename) = returned (run_extract nlp d2 pdf_filename).
Proof.
  intros c1 c2 nlp d1 d2 pdf_filename Hv.
  pose proof (all_text_view d1 d2 Hv) as Ht.
  assert (Hfp : ∀ x, find_page x d1 = find_page x d2).
  { intros x. unfold find_page. apply find_page_in_view, Hv. }
  rewrite !run_extract_final. simpl. f_equal.
  rewrite (metadata_eta (metadata (final_store nlp pdf_filename (init_store d1)))),
          (metadata_eta (metadata (final_store nlp pdf_filename (init_store d2)))).
  destruct (final_dates_determined nlp nlp pdf_filename pdf_filename
              (init_store d1) (init_store d2) Ht) as [-> ->].
  rewrite !final_document_name.
  change (letters_mentioned (references (metadata ?s))) with (md_letters s).
  change (laws_clauses_articles_acts (references (metadata ?s))) with (md_clauses s).
  change (persons (references (metadata ?s))) with (md_persons s).
  rewrite !final_letters, !final_clauses, !final_persons.
  change (parsed_doc (init_store d1)) with d1.
  change (parsed_doc (init_store d2)) with d2.
  rewrite Ht. do 2 f_equal.
  - apply map_ext. intros x. unfold letter_entry. rewrite Hfp. reflexivity.
  - apply map_ext. intros x. unfold clause_entry. rewrite Hfp. reflexivity.
  - apply map_ext. intros x. unfold person_entry. rewrite Hfp. reflexivity.
Qed.

Lemma metadata_depends_on_text_and_pages_witness :
  map el_view (content three_pages)
  = map el_view (content (MkParsed
      [ Table "Scope" "<table></table>" 1; Figure "a.png" "Figure 1: Clause 9" 1;
        Paragraph "Terms" 2 [1; 2; 3; 4]; Figure "b.png" "" 2;
        Paragraph "see Clause 7 below" 3 []; Figure "c.png" "Fig. 2" 3 ])) ∧
  returned (run_extract sample_tagger three_pages "a.pdf")
  = returned (run_extract sample_tagger (MkParsed
      [ Table "Scope" "<table></table>" 1; Figure "a.png" "Figure 1: Clause 9" 1;
        Paragraph "Terms" 2 [1; 2; 3; 4]; Figure "b.png" "" 2;
        Paragraph "see Clause 7 below" 3 []; Figure "c.png" "Fig. 2" 3 ]) "a.pdf").
Proof.
  split; [reflexivity|].
  apply (metadata_depends_on_text_and_pages unit Z sample_tagger). reflexivity.
Defined.

(** X12. The dates, the document date, the letters, the clause references
    and the document name do not depend on the entity tagger; the name is
    the file name given. *)
Theorem tagger_only_affects_persons :
  ∀ (coord : Type) (nlp1 nlp2 : string → list Ent) (parsed : ParsedDocument coord)
    (pdf_filename : string),
    ∃ md1 md2 s1 s2,
      run_extract nlp1 parsed pdf_filename = Ok md1 s1 ∧
      run_extract nlp2 parsed pdf_filename = Ok md2 s2 ∧
      document_name md1 = pdf_filename ∧ document_name md2 = pdf_filename ∧
      document_date md1 = document_date md2 ∧ dates md1 = dates md2 ∧
      letters_mentioned (references md1) = letters_mentioned (references md2) ∧
      laws_clauses_articles_acts (references md1)
      = laws_clauses_articles_acts (references md2).
Proof.
  intros coord nlp1 nlp2 parsed pdf_filename.
  eexists _, _, _, _. split; [apply run_extract_final|]. split; [apply run_extract_final|].
  rewrite !final_document_name. split; [reflexivity|]. split; [reflexivity|].
  destruct (final_dates_determined nlp1 nlp2 pdf_filename pdf_filename
              (init_store parsed) (init_store parsed) eq_refl) as [-> ->].
  split; [reflexivity|]. split; [reflexivity|].
  change (letters_mentioned (references (metadata ?s))) with (md_letters s).
  change (laws_clauses_articles_acts (references (metadata ?s))) with (md_clauses s).
  rewrite !final_letters, !final_clauses. split; reflexivity.
Qed.

(** ** The caption extractor *)


Lemma lower_app (a b : string) : PyStr.lower (a +:+ b) = PyStr.lower a +:+ PyStr.lower b.
Proof.
  induction a as [|c a IH]; [reflexivity|]. rewrite append_cons. simpl.
  rewrite IH. reflexivity.
Qed.





(** ** Fragments with blanks in documents of words *)

Lemma blank_free_no_space (t : string) : blank_free t → ¬ has_space t.
Proof.
  unfold blank_free. induction t as [|x t IH]; intros Hall (a & c & b & E & Hc).
  - destruct a; discriminate.
  - destruct Hall as [Hx Ht]. destruct a as [|y a].
    + rewrite append_empty in E. injection E as -> ->. rewrite Hc in Hx. discriminate.
    + rewrite append_cons in E. injection E as -> ->. apply (IH Ht). exists a, c, b. auto.
Qed.

Lemma occurs_has_space (x t : string) : has_space x → occurs_in x t → has_space t.
Proof.
  intros (a & c & b & -> & Hc) (l & r & ->).
  exists (l +:+ a), c, (b +:+ r). split; [|exact Hc].
  rewrite !str_app_assoc, append_cons. reflexivity.
Qed.

Lemma all_chars_lstrip p (s : string) : all_chars p s → all_chars p (PyStr.lstrip s).
Proof.
  induction s as [|c s IH]; [auto|]. simpl. intros [Hc Hs].
  destruct (PyStr.isspace c); [apply IH, Hs|split; assumption].
Qed.

Lemma all_chars_rstrip p (s : string) : all_chars p s → all_chars p (PyStr.rstrip s).
Proof.
  induction s as [|c s IH]; [auto|]. simpl. intros [Hc Hs].
  specialize (IH Hs). destruct (PyStr.rstrip s).
  - destruct (PyStr.isspace c); simpl; auto.
  - split; assumption.
Qed.

Lemma all_chars_strip p (s : string) : all_chars p s → all_chars p (PyStr.strip s).
Proof. intros H. apply all_chars_rstrip, all_chars_lstrip, H. Qed.

Lemma document_element_origin {coord : Type} (pages : list (Page coord)) el :
  el ∈ content (parse_document pages) →
  ∃ i page, pages !! i = Some page ∧
            el ∈ extract_elements_from_page page (Z.of_nat i + 1).
Proof.
  unfold parse_document. simpl.
  change (parse_pages 0 pages []) with (parse_pages (Z.of_nat 0) pages []).
  rewrite (parse_pages_spec pages 0 []). simpl.
  intros H. apply list_elem_of_In, in_concat in H as (l & Hl & Hel).
  apply list_elem_of_In, list_elem_of_lookup in Hl as (i & Hi).
  rewrite list_lookup_imap in Hi.
  destruct (pages !! i) as [page|] eqn:Hp; [|discriminate].
  injection Hi as <-. exists i, page. split; [exact Hp|apply list_elem_of_In, Hel].
Qed.

(** X14. In a document assembled from pages that have no table and whose
    words hold no blank, a fragment that holds a blank is found nowhere: the
    resolver gives -1 for it.  A clause reference with a sub-clause holds a
    blank, so its page is then -1. *)
Theorem blank_fragments_unresolved_in_word_documents :
  ∀ (coord : Type) (nlp : string → list Ent) (pages : list (Page coord))
    (pdf_filename : string),
    (∀ page, page ∈ pages →
       extract_tables page = [] ∧ ∀ w, w ∈ extract_words page → blank_free (w_text w)) →
    (∀ text_snippet, has_space text_snippet →
       find_page text_snippet (parse_document pages) = -1) ∧
    ∃ md s',
      run_extract nlp (parse_document pages) pdf_filename = Ok md s' ∧
      ∀ c, c ∈ laws_clauses_articles_acts (references md) →
        has_space (reference c) → clause_page c = -1.
Proof.
  intros coord nlp pages pdf_filename Hpages.
  assert (Hfp : ∀ text_snippet, has_space text_snippet →
                  find_page text_snippet (parse_document pages) = -1).
  { intros snippet Hsp. unfold find_page. apply find_page_in_none.
    intros el Hel Hocc.
    apply document_element_origin in Hel as (i & page & Hp & Hel).
    assert (Hin : page ∈ pages) by (apply list_elem_of_lookup; eauto).
    destruct (Hpages page Hin) as [Htab Hwords].
    rewrite extract_elements_closed, Htab in Hel. simpl in Hel.
    rewrite elem_of_app in Hel. destruct Hel as [Hel|Hel].
    - apply list_elem_of_fmap in Hel as (w & -> & Hw).
      apply list_elem_of_filter in Hw as [_ Hw]. simpl in Hocc.
      apply (blank_free_no_space (PyStr.strip (w_text w))).
      + apply all_chars_strip, Hwords, Hw.
      + eapply occurs_has_space; eassumption.
    - apply list_elem_of_singleton in Hel. subst el. simpl in Hocc.
      apply (blank_free_no_space ""); [exact I|].
      eapply occurs_has_space; eassumption. }
  split; [exact Hfp|].
  eexists _, _. split; [apply run_extract_final|].
  intros c Hc Hsp.
  pose proof (final_clauses_resolved nlp pdf_filename (init_store (parse_document pages)))
    as Hall.
  rewrite Forall_forall in Hall. specialize (Hall c Hc).
  unfold clause_resolved in Hall. rewrite Hall. apply Hfp, Hsp.
Qed.

Lemma blank_fragments_unresolved_in_word_documents_witness :
  (∀ page, page ∈ [words_page ["Clause"; "4.2"; "applies"]] →
     extract_tables page = [] ∧ ∀ w, w ∈ extract_words page → blank_free (w_text w)) ∧
  (∀ text_snippet, has_space text_snippet →
     find_page text_snippet (parse_document [words_page ["Clause"; "4.2"; "applies"]]) = -1) ∧
  ∃ md s',
    run_extract no_entities (parse_document [words_page ["Clause"; "4.2"; "applies"]])
      "a.pdf" = Ok md s' ∧
    ∀ c, c ∈ laws_clauses_articles_acts (references md) →
      has_space (reference c) → clause_page c = -1.
Proof.
  assert (H : ∀ page, page ∈ [words_page ["Clause"; "4.2"; "applies"]] →
     extract_tables page = [] ∧ ∀ w, w ∈ extract_words page → blank_free (w_text w)).
  { intros page Hp. apply list_elem_of_singleton in Hp. subst page.
    split; [reflexivity|]. intros w Hw. simpl in Hw.
    rewrite !elem_of_cons, elem_of_nil in Hw.
    destruct Hw as [->|[->|[->|[]]]]; vm_compute; tauto. }
  split; [exact H|].
  exact (blank_fragments_unresolved_in_word_documents unit no_entities _ "a.pdf" H).
Defined.

(** ** Dates that survive have a four-digit year *)




Lemma matches_year_group st st' :
  matches DateTime.re_Y st st' →
  ∃ y, seg st y st' ∧ String.length y = 4%nat ∧ all_chars PyStr.isdecimal y ∧
       Re.caps st' = (1%nat, (Re.pos st, Re.pos st')) :: Re.caps st.
Proof.
  unfold DateTime.re_Y. intros Hm. apply matches_group_inv in Hm as (st1 & Hm & ->).
  apply matches_times_class_inv in Hm as (y & Hs & Hl & Hall & Hc).
  exists y. simpl. rewrite Hc. auto.
Qed.





(** ** How a surviving date text is read *)

Lemma in_range_decimal lo hi (c : ascii) :
  (48 ≤ lo)%nat → (hi ≤ 57)%nat → PyStr.in_range lo hi c = true →
  PyStr.isdecimal c = true.
Proof.
  unfold PyStr.isdecimal, PyStr.in_range. intros Hlo Hhi.
  rewrite !andb_true_iff, !Nat.leb_le. lia.
Qed.

Lemma matches_digit_in lo hi st st' :
  (hi ≤ 9)%nat → matches (DateTime.digit_in lo hi) st st' →
  ∃ c, seg st (String c "") st' ∧ PyStr.isdecimal c = true ∧ Re.caps st' = Re.caps st.
Proof.
  intros Hhi Hm. unfold DateTime.digit_in in Hm.
  apply matches_chr_inv in Hm as (c & Hs & Hc & Hcaps).
  exists c. split; [exact Hs|]. split; [|exact Hcaps].
  eapply in_range_decimal; [| |exact Hc]; lia.
Qed.

Lemma month_field st st' :
  matches DateTime.re_m st st' →
  ∃ w, seg st w st' ∧ all_chars PyStr.isdecimal w ∧
       Re.caps st' = (2%nat, (Re.pos st, Re.pos st')) :: Re.caps st.
Proof.
  unfold DateTime.re_m. cbn [Re.Alts]. intros Hm.
  apply matches_group_inv in Hm as (st1 & Hm & ->). simpl.
  assert (H : ∃ w, seg st w st1 ∧ all_chars PyStr.isdecimal w ∧ Re.caps st1 = Re.caps st).
  { apply matches_alt_inv in Hm as [Hm|Hm]; [|apply matches_alt_inv in Hm as [Hm|Hm]].
    - apply matches_seq_inv in Hm as (sa & Ha & Hb).
      apply matches_lit_inv in Ha as [Hsa Hca].
      apply matches_digit_in in Hb as (c & Hsb & Hc & Hcb); [|lia].
      exists ("1" +:+ String c ""). split; [eapply seg_trans; eassumption|].
      split; [|congruence]. simpl. auto.
    - apply matches_seq_inv in Hm as (sa & Ha & Hb).
      apply matches_lit_inv in Ha as [Hsa Hca].
      apply matches_digit_in in Hb as (c & Hsb & Hc & Hcb); [|lia].
      exists ("0" +:+ String c ""). split; [eapply seg_trans; eassumption|].
      split; [|congruence]. simpl. auto.
    - apply matches_digit_in in Hm as (c & Hs & Hc & Hcaps); [|lia].
      exists (String c ""). simpl. auto. }
  destruct H as (w & Hs & Hall & Hc). exists w. rewrite Hc. auto.
Qed.

Lemma decimal_day_char (c : ascii) : PyStr.isdecimal c = true → day_char c = true.
Proof. unfold day_char. intros ->. reflexivity. Qed.

Lemma day_field st st' :
  matches DateTime.re_d st st' →
  ∃ w, seg st w st' ∧ all_chars day_char w ∧
       Re.caps st' = (3%nat, (Re.pos st, Re.pos st')) :: Re.caps st.
Proof.
  unfold DateTime.re_d. cbn [Re.Alts]. intros Hm.
  apply matches_group_inv in Hm as (st1 & Hm & ->). simpl.
  assert (H : ∃ w, seg st w st1 ∧ all_chars day_char w ∧ Re.caps st1 = Re.caps st).
  { apply matches_alt_inv in Hm as [Hm|Hm]; [|apply matches_alt_inv in Hm as [Hm|Hm];
      [|apply matches_alt_inv in Hm as [Hm|Hm]; [|apply matches_alt_inv in Hm as [Hm|Hm]]]].
    - apply matches_seq_inv in Hm as (sa & Ha & Hb).
      apply matches_lit_inv in Ha as [Hsa Hca].
      apply matches_digit_in in Hb as (c & Hsb & Hc & Hcb); [|lia].
      exists ("3" +:+ String c ""). split; [eapply seg_trans; eassumption|].
      split; [|congruence]. simpl. split; [reflexivity|].
      split; [apply decimal_day_char, Hc|exact I].
    - apply matches_seq_inv in Hm as (sa & Ha & Hb).
      apply matches_digit_in in Ha as (c1 & Hsa & Hc1 & Hca); [|lia].
      apply matches_chr_inv in Hb as (c2 & Hsb & Hc2 & Hcb).
      exists (String c1 "" +:+ String c2 ""). split; [eapply seg_trans; eassumption|].
      split; [|congruence]. simpl.
      split; [apply decimal_day_char, Hc1|]. split; [apply decimal_day_char, Hc2|exact I].
    - apply matches_seq_inv in Hm as (sa & Ha & Hb).
      apply matches_lit_inv in Ha as [Hsa Hca].
      apply matches_digit_in in Hb as (c & Hsb & Hc & Hcb); [|lia].
      exists ("0" +:+ String c ""). split; [eapply seg_trans; eassumption|].
      split; [|congruence]. simpl. split; [reflexivity|].
      split; [apply decimal_day_char, Hc|exact I].
    - apply matches_digit_in in Hm as (c & Hs & Hc & Hcaps); [|lia].
      exists (String c ""). simpl. split; [exact Hs|]. split; [|exact Hcaps].
      split; [apply decimal_day_char, Hc|exact I].
    - apply matches_seq_inv in Hm as (sa & Ha & Hb).
      apply matches_lit_inv in Ha as [Hsa Hca].
      apply matches_digit_in in Hb as (c & Hsb & Hc & Hcb); [|lia].
      exists (" " +:+ String c ""). split; [eapply seg_trans; eassumption|].
      split; [|congruence]. simpl. split; [reflexivity|].
      split; [apply decimal_day_char, Hc|exact I]. }
  destruct H as (w & Hs & Hall & Hc). exists w. rewrite Hc. auto.
Qed.

Lemma matches_alts_liti (l : list string) st st' :
  matches (Re.Alts (map Re.LitI l)) st st' →
  ∃ w x, x ∈ l ∧ seg st w st' ∧ PyStr.lower w = PyStr.lower x ∧
         Re.caps st' = Re.caps st.
Proof.
  induction l as [|x l IH]; intros Hm.
  - simpl in Hm. apply matches_chr_inv in Hm as (c & _ & Hc & _). discriminate.
  - destruct l as [|y l].
    + simpl in Hm. apply matches_liti_inv in Hm as (w & Hs & Hl & Hc).
      exists w, x. split; [left|auto].
    + change (Re.Alts (map Re.LitI (x :: y :: l)))
        with (Re.Alt (Re.LitI x) (Re.Alts (map Re.LitI (y :: l)))) in Hm.
      apply matches_alt_inv in Hm as [Hm|Hm].
      * apply matches_liti_inv in Hm as (w & Hs & Hl & Hc).
        exists w, x. split; [left|auto].
      * destruct (IH Hm) as (w & z & Hz & Hs & Hl & Hc).
        exists w, z. split; [right; exact Hz|auto].
Qed.

Lemma month_name_field st st' :
  matches DateTime.re_B st st' →
  ∃ w mo, seg st w st' ∧
       DateTime.index_of (PyStr.lower w) DateTime.month_names 1 = Some mo ∧
       Re.caps st' = (4%nat, (Re.pos st, Re.pos st')) :: Re.caps st.
Proof.
  unfold DateTime.re_B. intros Hm.
  apply matches_group_inv in Hm as (st1 & Hm & ->). simpl.
  apply matches_alts_liti in Hm as (w & x & Hx & Hs & Hl & Hc).
  exists w. rewrite Hc, Hl. rewrite !elem_of_cons, elem_of_nil in Hx.
  destruct Hx as [->|[->|[->|[->|[->|[->|[->|[->|[->|[->|[->|[->|[]]]]]]]]]]]]];
    eexists; (split; [exact Hs|]); (split; [reflexivity|reflexivity]).
Qed.

Lemma app_same_length (a b : string) :
  String.length (a +:+ b) = String.length a → b = "".
Proof.
  rewrite str_app_length. destruct b; [reflexivity|]. simpl. lia.
Qed.

Lemma length_zero (a : string) : String.length a = 0%nat → a = "".
Proof. destruct a; [reflexivity|discriminate]. Qed.

(** The fields of a text that a format matches to its end, and the groups
    that hold them. *)
Lemma format_fields f s st' :
  matches (DateTime.format_regex f) (Re.MState 0 None s []) st' →
  Re.pos st' = String.length s →
  ∀ m, m = Re.MatchObj 0 (Re.pos st') (Re.caps st') →
  match f with
  | DateTime.Fmt_Y_m_d =>
      ∃ Y M D, s = Y +:+ "-" +:+ M +:+ "-" +:+ D ∧
        String.length Y = 4%nat ∧ all_chars PyStr.isdecimal Y ∧
        all_chars PyStr.isdecimal M ∧ all_chars day_char D ∧
        Re.group_or_empty s 1 m = Y ∧ Re.group_or_empty s 2 m = M ∧
        Re.group_or_empty s 3 m = D
  | DateTime.Fmt_d_m_Y =>
      ∃ D M Y, s = D +:+ "/" +:+ M +:+ "/" +:+ Y ∧
        String.length Y = 4%nat ∧ all_chars PyStr.isdecimal Y ∧
        all_chars PyStr.isdecimal M ∧ all_chars day_char D ∧
        Re.group_or_empty s 1 m = Y ∧ Re.group_or_empty s 2 m = M ∧
        Re.group_or_empty s 3 m = D
  | DateTime.Fmt_d_B_Y =>
      ∃ D sp1 B sp2 Y mo, s = D +:+ sp1 +:+ B +:+ sp2 +:+ Y ∧
        String.length Y = 4%nat ∧ all_chars PyStr.isdecimal Y ∧
        all_chars PyStr.isspace sp1 ∧ all_chars PyStr.isspace sp2 ∧
        all_chars day_char D ∧
        DateTime.index_of (PyStr.lower B) DateTime.month_names 1 = Some mo ∧
        Re.group_or_empty s 1 m = Y ∧ Re.group_or_empty s 4 m = B ∧
        Re.group_or_empty s 3 m = D
  end.
Proof.
  intros Hm Hend m ->.
  set (st0 := Re.MState 0 None s []) in *.
  assert (Hat0 : at_text s st0) by (exists ""; split; reflexivity).
  destruct f; unfold DateTime.format_regex in Hm; cbn [Re.Seqs] in Hm;
    apply matches_seq_inv in Hm as (st1 & H1 & Hm);
    apply matches_seq_inv in Hm as (st2 & H2 & Hm);
    apply matches_seq_inv in Hm as (st3 & H3 & Hm);
    apply matches_seq_inv in Hm as (st4 & H4 & H5).
  - apply matches_year_group in H1 as (Y & Hs1 & Hl & Hall & Hc1).
    apply matches_lit_inv in H2 as [Hs2 Hc2].
    apply month_field in H3 as (M & Hs3 & HallM & Hc3).
    apply matches_lit_inv in H4 as [Hs4 Hc4].
    apply day_field in H5 as (D & Hs5 & HallD & Hc5).
    destruct (seg_at_text _ _ _ _ Hat0 Hs1) as [Hat1 Hg1].
    destruct (seg_at_text _ _ _ _ Hat1 Hs2) as [Hat2 _].
    destruct (seg_at_text _ _ _ _ Hat2 Hs3) as [Hat3 Hg3].
    destruct (seg_at_text _ _ _ _ Hat3 Hs4) as [Hat4 _].
    destruct (seg_at_text _ _ _ _ Hat4 Hs5) as [_ Hg5].
    pose proof (seg_trans _ _ _ _ _ Hs1
                  (seg_trans _ _ _ _ _ Hs2
                     (seg_trans _ _ _ _ _ Hs3 (seg_trans _ _ _ _ _ Hs4 Hs5)))) as [Hr Hp].
    change (Re.rest st0) with s in Hr. change (Re.pos st0) with 0%nat in Hp.
    assert (He : Re.rest st' = "").
    { eapply app_same_length. rewrite <- Hr. rewrite <- Hend, Hp. reflexivity. }
    rewrite He, str_app_nil_r in Hr.
    exists Y, M, D. split; [exact Hr|].
    split; [exact Hl|]. split; [exact Hall|]. split; [exact HallM|]. split; [exact HallD|].
    unfold Re.group_or_empty. cbn [Re.m_caps]. rewrite Hc5, Hc4, Hc3, Hc2, Hc1.
    cbn [Re.cap_lookup Nat.eqb]. auto.
  - apply day_field in H1 as (D & Hs1 & HallD & Hc1).
    apply matches_lit_inv in H2 as [Hs2 Hc2].
    apply month_field in H3 as (M & Hs3 & HallM & Hc3).
    apply matches_lit_inv in H4 as [Hs4 Hc4].
    apply matches_year_group in H5 as (Y & Hs5 & Hl & Hall & Hc5).
    destruct (seg_at_text _ _ _ _ Hat0 Hs1) as [Hat1 Hg1].
    destruct (seg_at_text _ _ _ _ Hat1 Hs2) as [Hat2 _].
    destruct (seg_at_text _ _ _ _ Hat2 Hs3) as [Hat3 Hg3].
    destruct (seg_at_text _ _ _ _ Hat3 Hs4) as [Hat4 _].
    destruct (seg_at_text _ _ _ _ Hat4 Hs5) as [_ Hg5].
    pose proof (seg_trans _ _ _ _ _ Hs1
                  (seg_trans _ _ _ _ _ Hs2
                     (seg_trans _ _ _ _ _ Hs3 (seg_trans _ _ _ _ _ Hs4 Hs5)))) as [Hr Hp].
    change (Re.rest st0) with s in Hr. change (Re.pos st0) with 0%nat in Hp.
    assert (He : Re.rest st' = "").
    { eapply app_same_length. rewrite <- Hr. rewrite <- Hend, Hp. reflexivity. }
    rewrite He, str_app_nil_r in Hr.
    exists D, M, Y. split; [exact Hr|].
    split; [exact Hl|]. split; [exact Hall|]. split; [exact HallM|]. split; [exact HallD|].
    unfold Re.group_or_empty. cbn [Re.m_caps]. rewrite Hc5, Hc4, Hc3, Hc2, Hc1.
    cbn [Re.cap_lookup Nat.eqb]. auto.
  - apply day_field in H1 as (D & Hs1 & HallD & Hc1).
    apply matches_plus_class_inv in H2 as (c2 & w2 & Hs2 & Hc2 & Hw2 & Hcaps2).
    apply month_name_field in H3 as (B & mo & Hs3 & Hmo & Hc3).
    apply matches_plus_class_inv in H4 as (c4 & w4 & Hs4 & Hc4 & Hw4 & Hcaps4).
    apply matches_year_group in H5 as (Y & Hs5 & Hl & Hall & Hc5).
    destruct (seg_at_text _ _ _ _ Hat0 Hs1) as [Hat1 Hg1].
    destruct (seg_at_text _ _ _ _ Hat1 Hs2) as [Hat2 _].
    destruct (seg_at_text _ _ _ _ Hat2 Hs3) as [Hat3 Hg3].
    destruct (seg_at_text _ _ _ _ Hat3 Hs4) as [Hat4 _].
    destruct (seg_at_text _ _ _ _ Hat4 Hs5) as [_ Hg5].
    pose proof (seg_trans _ _ _ _ _ Hs1
                  (seg_trans _ _ _ _ _ Hs2
                     (seg_trans _ _ _ _ _ Hs3 (seg_trans _ _ _ _ _ Hs4 Hs5)))) as [Hr Hp].
    change (Re.rest st0) with s in Hr. change (Re.pos st0) with 0%nat in Hp.
    assert (He : Re.rest st' = "").
    { eapply app_same_length. rewrite <- Hr. rewrite <- Hend, Hp. reflexivity. }
    rewrite He, str_app_nil_r in Hr.
    exists D, (String c2 w2), B, (String c4 w4), Y, mo. split; [exact Hr|].
    split; [exact Hl|]. split; [exact Hall|].
    split; [split; assumption|]. split; [split; assumption|].
    split; [exact HallD|]. split; [exact Hmo|].
    unfold Re.group_or_empty. cbn [Re.m_caps]. rewrite Hc5, Hcaps4, Hc3, Hcaps2, Hc1.
    cbn [Re.cap_lookup Nat.eqb]. auto.
Qed.

Lemma strptime_read_as s f dt :
  DateTime.strptime s f = Returns dt → read_as s dt.
Proof.
  unfold DateTime.strptime.
  destruct (Re.match_ (DateTime.format_regex f) s) as [m|] eqn:Hm; [|discriminate].
  destruct (Re.m_end m =? String.length s)%nat eqn:Hend; [|discriminate].
  apply Nat.eqb_eq in Hend. cbn [negb].
  unfold Re.match_ in Hm.
  destruct (Re.exec (DateTime.format_regex f) _ Some) as [st'|] eqn:He; [|discriminate].
  injection Hm as Hm. symmetry in Hm.
  apply exec_sound in He as (st1 & Hmt & [= ->]).
  assert (Hpos : Re.pos st' = String.length s) by (rewrite <- Hend, Hm; reflexivity).
  pose proof (format_fields f s st' Hmt Hpos m Hm) as Hf.
  destruct (DateTime.month_of_match f s m) as [mo|] eqn:Hmo; [|discriminate].
  destruct (DateTime.valid_date _ _ _); [|discriminate].
  intros [= <-]. destruct f; unfold DateTime.month_of_match in Hmo.
  - destruct Hf as (Y & M & D & E & Hl & HY & HM & HD & G1 & G2 & G3).
    left. exists Y, M, D. injection Hmo as <-. rewrite G1, G2, G3. auto 10.
  - destruct Hf as (D & M & Y & E & Hl & HY & HM & HD & G1 & G2 & G3).
    right; left. exists D, M, Y. injection Hmo as <-. rewrite G1, G2, G3. auto 10.
  - destruct Hf as (D & sp1 & B & sp2 & Y & mo' & E & Hl & HY & H1 & H2 & HD & Hi & G1 & G4 & G3).
    right; right. exists D, sp1, B, sp2, Y, mo. rewrite G4 in Hmo. rewrite G1, G3. auto 10.
Qed.

Lemma first_parse_read_as s dt : first_parse s = Some dt → read_as s dt.
Proof.
  intros H. apply first_parse_spec in H as [H|[[_ H]|[_ [_ H]]]];
    eapply strptime_read_as; exact H.
Qed.

(** X16. Every date entry comes from a match whose text has one of three
    shapes, and its date is what [strftime] writes for the date read from
    the fields:
    year-month-day with hyphens, day/month/year with slashes (the day comes
    first), or day, full month name in any letter case, and year, separated
    by white space.  The year is always read from four digits. *)
Theorem date_entries_read_by_shape :
  ∀ (coord : Type) (nlp : string → list Ent) (parsed : ParsedDocument coord)
    (pdf_filename : string),
    ∃ md s',
      run_extract nlp parsed pdf_filename = Ok md s' ∧
      ∀ d, d ∈ dates md →
        ∃ pattern m dt,
          pattern ∈ Patterns.date_patterns ∧
          m ∈ Re.finditer pattern (all_text_of parsed) ∧
          read_as (Re.group0 (all_text_of parsed) m) dt ∧
          date d = DateTime.strftime dt.
Proof.
  intros coord nlp parsed pdf_filename.
  destruct (final_dates_spec nlp pdf_filename (init_store parsed)) as (fd & Hfd & Hds & _).
  change (parsed_doc (init_store parsed)) with parsed in Hfd, Hds.
  eexists _, _. split; [apply run_extract_final|].
  intros d Hd. rewrite Hds in Hd. apply list_elem_of_fmap in Hd as (k & -> & Hk).
  apply sorted_elem_of, Hfd in Hk as (pattern & m & dt & Hp & Hm & Hparse & ->).
  exists pattern, m, dt.
  split; [exact Hp|]. split; [exact Hm|].
  split; [apply first_parse_read_as, Hparse|reflexivity].
Qed.
